(** * zrepl: dataset paths, send-argument validation, stream copier,
      replication cursor and the replication endpoints

    A shallow embedding of [zfs/zfs.go], the replication-cursor file of
    package [zfs] and the endpoint file of package [endpoint].

    Conventions of the embedding:
    - a Go [string] is a [string] (a sequence of bytes);
    - a Go [uint64] that is only compared (GUID, createtxg) is an [N];
    - a Go [(T, error)] result is a [result T]; a Go panic is [Panic];
    - a method with a pointer receiver that mutates it returns the new value;
    - everything the code asks the [zfs] binary is answered by an explicit
      world ([World]) and by fault oracles, so that a call may fail the way
      an external command can. *)

From Stdlib Require Import String Ascii List NArith ZArith Lia Bool.
From stdpp Require Import base option gmap strings list.
Import ListNotations.
Open Scope string_scope.
Open Scope list_scope.

(* ===================================================================== *)
(** * Part I: definitions *)
(* ===================================================================== *)

(** ** The functions of Go's [strings] package that the code calls *)
Module GoStrings.

(** [strings.ContainsAny(s, chars)] for [chars] made of ASCII bytes. *)
Definition byteIn (c : ascii) (chars : string) : bool :=
  existsb (Ascii.eqb c) (list_ascii_of_string chars).

Definition ContainsAny (s chars : string) : bool :=
  existsb (fun c => byteIn c chars) (list_ascii_of_string s).

(** [strings.IndexAny(s, chars)]: index of the first byte of [s] that is
    in [chars], or [-1]. *)
Fixpoint IndexAny (s chars : string) : Z :=
  match s with
  | EmptyString => (-1)%Z
  | String c rest =>
      if byteIn c chars then 0%Z
      else let i := IndexAny rest chars in
           if (i =? -1)%Z then (-1)%Z else (i + 1)%Z
  end.

(** [strings.Contains(s, substr)] for a one-byte [substr]. *)
Definition ContainsByte (s : string) (c : ascii) : bool :=
  existsb (Ascii.eqb c) (list_ascii_of_string s).

(** [strings.Split(s, sep)] for a one-byte separator: the result always
    has at least one element, and [Split "" sep = [""]]. *)
Fixpoint Split (s : string) (sep : ascii) : list string :=
  match s with
  | EmptyString => [EmptyString]
  | String c rest =>
      if Ascii.eqb c sep then EmptyString :: Split rest sep
      else match Split rest sep with
           | [] => [String c EmptyString]
           | hd :: tl => String c hd :: tl
           end
  end.

(** [strings.SplitN(s, sep, 2)] for a one-byte separator: cut at the first
    separator only. *)
Fixpoint SplitN2 (s : string) (sep : ascii) : list string :=
  match s with
  | EmptyString => [EmptyString]
  | String c rest =>
      if Ascii.eqb c sep then [EmptyString; rest]
      else match SplitN2 rest sep with
           | [] => [String c EmptyString]
           | hd :: tl => String c hd :: tl
           end
  end.

(** [strings.Join(elems, sep)]. *)
Definition Join (elems : list string) (sep : string) : string :=
  String.concat sep elems.

(** The slice expression [s[0:1]] on a non-empty string. *)
Definition slice01 (s : string) : string := String.substring 0 1 s.

End GoStrings.

(** ** Errors and results *)

(** Arguments of a format string are kept next to it, unformatted. *)
Inductive error : Type :=
| New (msg : string)                               (* errors.New *)
| Errorf (format : string) (args : list fmtarg)    (* fmt.Errorf, errors.Errorf *)
| Wrap (cause : error) (msg : string)              (* errors.Wrap, errors.Wrapf *)
| DatasetDoesNotExist (Path : string)              (* *zfs.DatasetDoesNotExist *)
| ZFSError (Stderr : string)                       (* *zfs.ZFSError *)
| ClearResumeTokenError (ZFSOutput : string)       (* *zfs.ClearResumeTokenError *)
| ResumeTokenCorruptError                          (* sentinel values of package zfs *)
| ResumeTokenDecodingNotSupported
| ResumeTokenParsingError
| EOF                                              (* io.EOF *)
| ErrShortWrite                                    (* io.ErrShortWrite *)
| errInvalidWrite                                  (* io.errInvalidWrite *)
| ContextCanceled                                  (* context.Canceled *)
with fmtarg : Type :=
| FStr (s : string)
| FNum (n : N)
| FBool (b : bool)
| FErr (e : error).

Inductive result (A : Type) : Type :=
| Ok (a : A)
| Err (e : error)
| Panic (msg : string).
Arguments Ok {A} a.
Arguments Err {A} e.
Arguments Panic {A} msg.

#[global] Instance result_ret : MRet result := fun A a => Ok a.
#[global] Instance result_bind : MBind result := fun A B f m =>
  match m with
  | Ok a => f a
  | Err e => Err e
  | Panic msg => Panic msg
  end.

(** What a call that leaves the program answers (a run of the [zfs] binary,
    a function that is not among the sources): a value or an error. It does
    not panic. *)
Inductive reply (A : Type) : Type :=
| Reply (a : A)
| Fail (e : error).
Arguments Reply {A} a.
Arguments Fail {A} e.

Definition ask {A} (r : reply A) : result A :=
  match r with
  | Reply a => Ok a
  | Fail e => Err e
  end.

(** [check b e]: go on when [b] holds, return the error [e] otherwise. *)
Definition check (b : bool) (e : error) : result unit :=
  if b then Ok tt else Err e.

Definition isOk {A} (r : result A) : bool :=
  match r with Ok _ => true | _ => false end.

(** ** Package zfs: dataset paths (zfs.go) *)
Module Zfs.
Import GoStrings.

Record DatasetPath : Type := { comps : list string }.

Definition ToString (p : DatasetPath) : string := Join (comps p) "/".

Definition Empty (p : DatasetPath) : bool := Nat.eqb (length (comps p)) 0.

Definition Extend (p extend : DatasetPath) : DatasetPath :=
  {| comps := comps p ++ comps extend |}.

Definition HasPrefix (p prefix : DatasetPath) : bool :=
  if Nat.ltb (length (comps p)) (length (comps prefix)) then false
  else forallb (fun i => String.eqb (nth i (comps prefix) "") (nth i (comps p) ""))
               (seq 0 (length (comps prefix))).

Definition TrimPrefix (p prefix : DatasetPath) : DatasetPath :=
  if negb (HasPrefix p prefix) then p
  else
    let prelen := length (comps prefix) in
    let newlen := length (comps p) - prelen in
    let oldcomps := comps p in
    {| comps := map (fun i => nth (prelen + i) oldcomps "") (seq 0 newlen) |}.

Definition TrimNPrefixComps (p : DatasetPath) (n : nat) : DatasetPath :=
  let n := if Nat.ltb (length (comps p)) n then length (comps p) else n in
  if Nat.eqb n 0 then p else {| comps := skipn n (comps p) |}.

Definition Equal (p q : DatasetPath) : bool :=
  if negb (Nat.eqb (length (comps p)) (length (comps q))) then false
  else forallb (fun i => String.eqb (nth i (comps p) "") (nth i (comps q) ""))
               (seq 0 (length (comps p))).

Definition Length (p : DatasetPath) : nat := length (comps p).

Definition Copy (p : DatasetPath) : DatasetPath := {| comps := comps p |}.

Definition Pool (p : DatasetPath) : result string :=
  if Nat.ltb (length (comps p)) 1
  then Err (Errorf "dataset path does not have a pool component" [])
  else Ok (nth 0 (comps p) "").

(** ["@#|\t<>*"] *)
Definition FORBIDDEN : string :=
  String "@" (String "#" (String "|" (String (ascii_of_nat 9)
    (String "<" (String ">" (String "*" EmptyString)))))).

Definition NewDatasetPath (s : string) : result DatasetPath :=
  if String.eqb s "" then Ok {| comps := [] |}
  else if ContainsAny s FORBIDDEN
  then Err (Errorf "contains forbidden characters (any of '%s')" [FStr FORBIDDEN])
  else
    let cs := Split s "/" in
    if String.eqb (nth (length cs - 1) cs "") ""
    then Err (Errorf "must not end with a '/'" [])
    else Ok {| comps := cs |}.

Definition validateZFSFilesystem (fs : string) : result unit :=
  check (negb (Nat.ltb (String.length fs) 1)) (New "filesystem path must have length > 0").

(** *** The stream copier (zfs.go, [sendStreamCopier]) *)

(** An [io.ReadCloser] is given by what its successive [Read] calls
    return: the bytes delivered and the error. Once the script is over,
    [Read] returns [(0, io.EOF)]. *)
Definition ReadCloser : Type := list (string * option error).

(** An [io.Writer] is given by what its successive [Write] calls return:
    the count reported and the error. Once the script is over, [Write]
    accepts everything it is given. *)
Definition Writer : Type := list (Z * option error).

Definition readerRead (r : ReadCloser) : (string * option error) * ReadCloser :=
  match r with
  | [] => (("", Some EOF), [])
  | res :: rest => (res, rest)
  end.

Definition writerWrite (w : Writer) (p : string) : (Z * option error) * Writer :=
  match w with
  | [] => ((Z.of_nat (String.length p), None), [])
  | res :: rest => (res, rest)
  end.

Record readErrRecorder : Type := {
  stream : ReadCloser;          (* the embedded io.ReadCloser *)
  readErr : option error
}.

Record sendStreamCopier : Type := { recorder : readErrRecorder }.

Record sendStreamCopierError : Type := {
  isReadErr : bool;             (* if false, it's a write error *)
  err : error
}.

Definition IsReadError (e : sendStreamCopierError) : bool := isReadErr e.
Definition IsWriteError (e : sendStreamCopierError) : bool := negb (isReadErr e).

(** [readErrRecorder.Read]: every call overwrites [readErr] with the error
    of that call, [nil] included. *)
Definition recorderRead (r : readErrRecorder)
  : (string * option error) * readErrRecorder :=
  let '(res, rest) := readerRead (stream r) in
  (res, {| stream := rest; readErr := snd res |}).

Definition newSendStreamCopier (s : ReadCloser) : sendStreamCopier :=
  {| recorder := {| stream := s; readErr := None |} |}.

(** What happened during a copy, in order. *)
Inductive ioEvent : Type :=
| EvRead (p : string) (er : option error)
| EvWrite (p : string) (nw : Z) (ew : option error).

(** The loop of [io.Copy(dst, src)] (Go's [io.copyBuffer]), with [src] the
    recorder. Returns the error of the copy, the recorder and the writer
    after it, and what was done; [None] when [fuel] calls of [Read] were
    not enough. *)
Fixpoint copyLoop (fuel : nat) (dst : Writer) (src : readErrRecorder)
  : option (option error * readErrRecorder * Writer * list ioEvent) :=
  match fuel with
  | O => None
  | S fuel =>
      let '((p, er), src) := recorderRead src in
      let nr := Z.of_nat (String.length p) in
      let afterRead dst evs :=
        match er with
        | Some e =>
            Some (match e with EOF => None | _ => Some e end, src, dst, evs)
        | None =>
            match copyLoop fuel dst src with
            | Some (res, src', dst', evs') => Some (res, src', dst', evs ++ evs')
            | None => None
            end
        end in
      if (0 <? nr)%Z then
        let '((nw, ew), dst) := writerWrite dst p in
        let evs := [EvRead p er; EvWrite p nw ew] in
        let '(nw, ew) :=
          if ((nw <? 0) || (nr <? nw))%Z
          then (0%Z, match ew with None => Some errInvalidWrite | _ => ew end)
          else (nw, ew) in
        match ew with
        | Some e => Some (Some e, src, dst, evs)
        | None =>
            if negb (nr =? nw)%Z then Some (Some ErrShortWrite, src, dst, evs)
            else afterRead dst evs
        end
      else afterRead dst [EvRead p er]
  end.

(** A script of [n] reads is over after at most [n + 1] calls. *)
Definition ioCopy (dst : Writer) (src : readErrRecorder) :=
  copyLoop (S (length (stream src))) dst src.

(** [sendStreamCopier.WriteStreamTo]; also returns the copier and the
    writer after the copy. *)
Definition WriteStreamTo (c : sendStreamCopier) (w : Writer)
  : option (option sendStreamCopierError * sendStreamCopier * Writer) :=
  match ioCopy w (recorder c) with
  | None => None
  | Some (err, rec', w', _) =>
      let c' := {| recorder := rec' |} in
      match err with
      | Some e =>
          match readErr rec' with
          | Some re => Some (Some {| isReadErr := true; err := re |}, c', w')
          | None => Some (Some {| isReadErr := false; err := e |}, c', w')
          end
      | None => Some (None, c', w')
      end
  end.

(** *** Send arguments and their validation (zfs.go) *)

Record ZFSSendArgVersion : Type := { RelName : string; GUID : N }.

Record NilBool : Type := { B : bool }.

(** [From] may be nil; [To] and [Encrypted] are pointers too. *)
Record ZFSSendArgs : Type := {
  FS : string;
  From : option ZFSSendArgVersion;
  To : option ZFSSendArgVersion;
  Encrypted : option NilBool;
  ResumeToken : string
}.

(** The record that parsing a resume token yields (type [ResumeToken] of
    package zfs). Its declaration is not among the sources: the fields are
    those that the validation below reads. *)
Record ParsedResumeToken : Type := {
  HasFromGUID : bool;
  HasToGUID : bool;
  FromGUID : N;
  ToGUID : N;
  ToName : string;
  RawOK : bool;
  CompressOK : bool
}.

Inductive DrySendType : Type := DrySendTypeFull | DrySendTypeIncremental.

Record DrySendInfo : Type := {
  Type_ : DrySendType;
  Filesystem : string;
  DryFrom : string;
  DryTo : string;
  SizeEstimate : Z       (* -1 if size estimate is not possible *)
}.

(** What the validation asks of its surroundings. [ParseResumeToken] and
    [ResumeToken.ToNameSplit] are functions of package zfs that are not
    among the sources, the others stand for runs of the [zfs] binary; all of
    them are parameters.
    - [zfsGetGuid path]: [zfsGet(path, {"guid"}, sourceAny)] followed by
      [strconv.ParseUint];
    - [zfsSendProcess args]: starting [zfs args] on a pipe, which gives the
      standard output of the process or the error of the pipe or the start;
    - [zfsSendDryProcess args]: running [zfs args] and unmarshalling its
      output. *)
Record ZfsEnv : Type := {
  ParseResumeToken : string -> reply ParsedResumeToken;
  ToNameSplit : ParsedResumeToken -> reply (DatasetPath * string);
  zfsGetGuid : string -> reply N;
  ZFSGetEncryptionEnabled : string -> reply bool;
  zfsSendProcess : list string -> reply ReadCloser;
  zfsSendDryProcess : list string -> reply DrySendInfo
}.

(** The deferred function of [ZFSGetGUID] replaces every error by a
    formatted one, whatever its type was. *)
Definition ZFSGetGUID (env : ZfsEnv) (fs version : string) : result N :=
  let body : result N :=
    validateZFSFilesystem fs;;
    check (negb (Nat.eqb (String.length version) 0))
          (New "version must have non-zero length");;
    check (IndexAny (slice01 version) "@#" =? 0)%Z
          (New "version does not start with @ or #");;
    ask (zfsGetGuid env (fs +:+ version)) in
  match body with
  | Err e => Err (Errorf "zfs get guid fs=%q version=%q: %s" [FStr fs; FStr version; FErr e])
  | r => r
  end.

(** [ZFSSendArgVersion.Validate]; [fs] must be not empty. *)
Definition ZFSSendArgVersion_Validate (env : ZfsEnv) (a : ZFSSendArgVersion) (fs : string)
  : result unit :=
  check (negb (Nat.eqb (String.length (RelName a)) 0)) (New "`RelName` must not be empty");;
  check (IndexAny (slice01 (RelName a)) "@#" =? 0)%Z
        (Errorf "`RelName` field must start with @ or #, got %q" [FStr (RelName a)]);;
  (if String.eqb fs "" then Panic fs else Ok tt);;
  realGUID ← match ZFSGetGUID env fs (RelName a) with
             | Err (DatasetDoesNotExist _) => Ok 0%N
             | r => r
             end;
  check (N.eqb realGUID (GUID a))
        (Errorf "`GUID` field does not match real dataset's GUID: %q != %q"
                [FNum realGUID; FNum (GUID a)]).

Definition NilBool_Validate (n : option NilBool) : result unit :=
  match n with
  | None => Err (Errorf "must explicitly set `true` or `false`" [])
  | Some _ => Ok tt
  end.

(** Dereferencing a nil pointer panics. *)
Definition deref {A} (p : option A) : result A :=
  match p with
  | Some a => Ok a
  | None => Panic "invalid memory address or nil pointer dereference"
  end.

(** [ZFSSendArgs.validateCorrespondsToResumeToken]. *)
Definition validateCorrespondsToResumeToken (env : ZfsEnv) (a : ZFSSendArgs) : result unit :=
  if String.eqb (ResumeToken a) "" then Ok tt (* nothing to do *)
  else
    t ← ask (ParseResumeToken env (ResumeToken a));
    '(tokenFS, _) ← ask (ToNameSplit env t);
    check (String.eqb (FS a) (ToString tokenFS))
      (Errorf "filesystem in resume token field `toname` = %q does not match expected value %q"
              [FStr (ToString tokenFS); FStr (FS a)]);;
    (if negb (Bool.eqb (bool_decide (From a <> None)) (HasFromGUID t))
     then (* existence must be same *)
       if HasFromGUID t
       then Err (Errorf "resume token not expected to be incremental, but `fromguid` = %q"
                        [FNum (FromGUID t)])
       else Err (Errorf "resume token expected to be incremental, but `fromguid` not present" [])
     else if HasFromGUID t
     then (* if exists (which is same, we checked above), they must match *)
       from ← deref (From a);
       check (N.eqb (FromGUID t) (GUID from))
         (Errorf "resume token `fromguid` != expected: %q != %q"
                 [FNum (FromGUID t); FNum (GUID from)])
     else Ok tt (* both empty, ok *));;
    (* To must never be empty *)
    check (HasToGUID t) (Errorf "resume token does not have `toguid`" []);;
    to ← deref (To a);
    check (N.eqb (ToGUID t) (GUID to))
      (Errorf "resume token `toguid` != expected: %q != %q" [FNum (ToGUID t); FNum (GUID to)]);;
    enc ← deref (Encrypted a);
    (if B enc
     then check (RawOK t && CompressOK t)
            (Errorf "resume token must have `rawok` and `compressok` = true but got %q %q"
                    [FBool (RawOK t); FBool (CompressOK t)])
     else check (negb (RawOK t || CompressOK t))
            (Errorf "resume token must not have `rawok` or `compressok` set but got %q %q"
                    [FBool (RawOK t); FBool (CompressOK t)])).

(** [ZFSSendArgs.Validate]. *)
Definition Validate (env : ZfsEnv) (a : ZFSSendArgs) : result unit :=
  match NewDatasetPath (FS a) with
  | Ok dp =>
      if Nat.eqb (Length dp) 0
      then Err (Errorf "`FS` must be a valid non-zero dataset path" [])
      else Ok tt
  | _ => Err (Errorf "`FS` must be a valid non-zero dataset path" [])
  end;;
  match To a with
  | None => Err (New "`To` must not be nil")
  | Some to =>
      match ZFSSendArgVersion_Validate env to (FS a) with
      | Err e => Err (Wrap e "`To` invalid")
      | r => r
      end
  end;;
  match From a with
  | Some from =>
      match ZFSSendArgVersion_Validate env from (FS a) with
      | Err e => Err (Wrap e "`From` invalid")
      | r => r
      end
  | None => Ok tt
  end;;
  match NilBool_Validate (Encrypted a) with
  | Err e => Err (Wrap e "`Raw` invalid")
  | r => r
  end;;
  fsEncrypted ← match ask (ZFSGetEncryptionEnabled env (FS a)) with
                | Err e => Err (Wrap e "cannot check whether filesystem %q is encrypted")
                | r => r
                end;
  enc ← deref (Encrypted a);
  check (negb (B enc && negb fsEncrypted))
    (Errorf "encrypted send requested, but filesystem %q is not encrypted" [FStr (FS a)]);;
  if negb (String.eqb (ResumeToken a) "")
  then validateCorrespondsToResumeToken env a (* do not wrap *)
  else Ok tt.

(** [absVersion]; [v] must not be nil. *)
Definition absVersion (fs : string) (v : ZFSSendArgVersion) : result string :=
  validateZFSFilesystem fs;;
  Ok (fs +:+ RelName v).

(** [ZFSSendArgs.buildCommonSendArgs]: the resume token takes precedence. *)
Definition buildCommonSendArgs (a : ZFSSendArgs) : result (list string) :=
  if negb (String.eqb (ResumeToken a) "") then Ok ["-t"; ResumeToken a]
  else
    enc ← deref (Encrypted a);
    let args := if B enc then ["-w"] else [] in
    to ← deref (To a);
    toV ← absVersion (FS a) to;
    fromV ← match From a with
            | Some from => absVersion (FS a) from
            | None => Ok ""
            end;
    if String.eqb fromV "" then Ok (args ++ [toV])
    else Ok (args ++ ["-i"; fromV; toV]).

(** [ZFSSend]: the stream copier over the output of [zfs send]. *)
Definition ZFSSend (env : ZfsEnv) (sendArgs : ZFSSendArgs) : result sendStreamCopier :=
  match Validate env sendArgs with
  | Err e => Err (Wrap e "cannot validate send args")
  | Panic msg => Panic msg
  | Ok _ =>
      sargs ← buildCommonSendArgs sendArgs;
      stdout ← ask (zfsSendProcess env ("send" :: sargs));
      Ok (newSendStreamCopier stdout)
  end.

(** [ZFSSendDry]: no size estimate when [From] is a bookmark. *)
Definition ZFSSendDry (env : ZfsEnv) (sendArgs : ZFSSendArgs) : result DrySendInfo :=
  match Validate env sendArgs with
  | Err e => Err (Wrap e "cannot validate send args")
  | Panic msg => Panic msg
  | Ok _ =>
      match From sendArgs with
      | Some from =>
          if ContainsByte (RelName from) "#"
          then
            fromAbs ← match absVersion (FS sendArgs) from with
                      | Err e => Err (Errorf "error building abs version for 'from': %s" [FErr e])
                      | r => r
                      end;
            to ← deref (To sendArgs);
            toAbs ← match absVersion (FS sendArgs) to with
                    | Err e => Err (Errorf "error building abs version for 'to': %s" [FErr e])
                    | r => r
                    end;
            Ok {| Type_ := DrySendTypeIncremental; Filesystem := FS sendArgs;
                  DryFrom := fromAbs; DryTo := toAbs; SizeEstimate := (-1)%Z |}
          else
            sargs ← buildCommonSendArgs sendArgs;
            ask (zfsSendDryProcess env (["send"; "-n"; "-v"; "-P"] ++ sargs))
      | None =>
          sargs ← buildCommonSendArgs sendArgs;
          ask (zfsSendDryProcess env (["send"; "-n"; "-v"; "-P"] ++ sargs))
      end
  end.

(** *** The volume manager as the code sees it *)

Record RecvOptions : Type := {
  RollbackAndForceRecv : bool;
  SavePartialRecvState : bool
}.

(** What is kept of a filesystem: the placeholder property and the receive
    resume token (empty if there is none). *)
Record FSProps : Type := {
  placeholder : bool;
  receive_resume_token : string
}.

Record ZFSPropCreateTxgAndGuidProps : Type := { CreateTXG : N; Guid : N }.

(** The calls that leave the program. *)
Inductive Call : Type :=
| CallList                                       (* zfs list *)
| CallGet (path : string)                        (* zfs get ... path *)
| CallGetPlaceholder (fs : string)
| CallCreatePlaceholder (fs : string)
| CallSetPlaceholder (fs : string) (isPlaceholder : bool)
| CallGetResumeToken (fs : string)
| CallRecvAbort (fs : string)                    (* zfs recv -A fs *)
| CallResumeRecvSupported (fs : string)
| CallAcquireRecv                                (* the receive semaphore *)
| CallRecv (fs : string) (opts : RecvOptions)    (* zfs recv [-F] [-s] fs *)
| CallDestroy (arg : string)                     (* zfs destroy arg *)
| CallBookmark (snapname bookmarkname : string)  (* zfs bookmark *)
| CallRollback (rollbackArgs : list string) (snapabs : string). (* zfs rollback *)

(** Filesystems and versions (snapshots [fs@name], bookmarks [fs#name]) are
    found by their full name. [calls] is the list of the calls made so far,
    the latest first. *)
Record World : Type := {
  filesystems : gmap string FSProps;
  versions : gmap string ZFSPropCreateTxgAndGuidProps;
  resumable : bool;
  calls : list Call
}.

(** A call may fail for reasons of its own: the oracle sees the world and
    the call, and names the error. *)
Definition Faults : Type := World -> Call -> option error.

(** Code that talks to the volume manager: a state and error monad. *)
Definition M (A : Type) : Type := World -> result A * World.

#[global] Instance M_ret : MRet M := fun A a w => (Ok a, w).
#[global] Instance M_bind : MBind M := fun A B f m w =>
  match m w with
  | (Ok a, w') => f a w'
  | (Err e, w') => (Err e, w')
  | (Panic msg, w') => (Panic msg, w')
  end.

Definition lift {A} (r : result A) : M A := fun w => (r, w).

(** What the volume manager does on a call that did not fail. *)
Definition effect {A} (f : World -> result A * World) : M A := f.

(** Go's [v, err := f()]: the error becomes a value. *)
Definition try {A} (m : M A) : M (error + A) := fun w =>
  match m w with
  | (Ok a, w') => (Ok (inr a), w')
  | (Err e, w') => (Ok (inl e), w')
  | (Panic msg, w') => (Panic msg, w')
  end.

Definition mapErr {A} (f : error -> error) (m : M A) : M A := fun w =>
  match m w with
  | (Err e, w') => (Err (f e), w')
  | r => r
  end.

Definition record (c : Call) (w : World) : World :=
  {| filesystems := filesystems w; versions := versions w;
     resumable := resumable w; calls := c :: calls w |}.

Definition setFilesystems (f : gmap string FSProps) (w : World) : World :=
  {| filesystems := f; versions := versions w;
     resumable := resumable w; calls := calls w |}.

Definition setVersions (v : gmap string ZFSPropCreateTxgAndGuidProps) (w : World) : World :=
  {| filesystems := filesystems w; versions := v;
     resumable := resumable w; calls := calls w |}.

(** Make the call [c]: it is recorded, and fails if the oracle says so. *)
Definition call (flt : Faults) (c : Call) : M unit := fun w =>
  match flt w c with
  | Some e => (Err e, record c w)
  | None => (Ok tt, record c w)
  end.

(** [zfsGet] of the two number properties of a version: the dataset may
    not exist. *)
Definition zfsGet (flt : Faults) (path : string) : M ZFSPropCreateTxgAndGuidProps :=
  call flt (CallGet path);;
  effect (fun w => match versions w !! path with
                   | Some props => (Ok props, w)
                   | None => (Err (DatasetDoesNotExist path), w)
                   end).

(** [zfsGetNumberProps]: returns [*DatasetDoesNotExist] as it is. *)
Definition zfsGetNumberProps (flt : Faults) (ds : string) : M ZFSPropCreateTxgAndGuidProps :=
  mapErr (fun e => match e with
                   | DatasetDoesNotExist _ => e (* pass through as is *)
                   | _ => Wrap e "zfs: set replication cursor: get snapshot createtxg"
                   end)
         (zfsGet flt ds).

Definition ZFSGetCreateTXGAndGuid (flt : Faults) (ds : string)
  : M ZFSPropCreateTxgAndGuidProps :=
  zfsGetNumberProps flt ds.

(** [ZFSDestroy]: the dataset is gone afterwards. *)
Definition ZFSDestroy (flt : Faults) (arg : string) : M unit :=
  call flt (CallDestroy arg);;
  effect (fun w =>
    if bool_decide (is_Some (versions w !! arg))
    then (Ok tt, setVersions (delete arg (versions w)) w)
    else if bool_decide (is_Some (filesystems w !! arg))
    then (Ok tt, setFilesystems (delete arg (filesystems w)) w)
    else (Err (ZFSError "could not find any snapshots to destroy"), w)).

Definition zfsBuildSnapName (fs : DatasetPath) (name : string) : string :=
  ToString fs +:+ "@" +:+ name.

Definition zfsBuildBookmarkName (fs : DatasetPath) (name : string) : string :=
  ToString fs +:+ "#" +:+ name.

(** [ZFSBookmark]: the bookmark takes the createtxg and the GUID of the
    snapshot. *)
Definition ZFSBookmark (flt : Faults) (fs : DatasetPath) (snapshot bookmark : string) : M unit :=
  let snapname := zfsBuildSnapName fs snapshot in
  let bookmarkname := zfsBuildBookmarkName fs bookmark in
  call flt (CallBookmark snapname bookmarkname);;
  effect (fun w =>
    match versions w !! snapname, versions w !! bookmarkname with
    | Some props, None => (Ok tt, setVersions (<[bookmarkname := props]> (versions w)) w)
    | Some _, Some _ => (Err (ZFSError "bookmark exists"), w)
    | None, _ => (Err (ZFSError "dataset does not exist"), w)
    end).

(** *** The replication cursor (cursor file of package zfs) *)

Definition ReplicationCursorBookmarkName : string := "zrepl_replication_cursor".

(** [ZFSSetReplicationCursor]: [expGuid] is the expected guid of
    [snapname]; if [fs@snapname] has a different guid, the replication
    cursor won't be set. *)
Definition ZFSSetReplicationCursor (flt : Faults)
  (fs : DatasetPath) (snapname : string) (expGuid : N) : M unit :=
  lift (check (negb (Nat.eqb (Length fs) 0)) (New "filesystem name must not be empty"));;
  lift (check (negb (Nat.eqb (String.length snapname) 0)) (New "snapname must not be empty"));;
  (* must not check expGuid == 0, that might be legitimate *)
  let snapPath := ToString fs +:+ "@" +:+ snapname in
  snapProps ← mapErr (fun e => Wrap e "cannot get snapshot createtxg and guid")
                     (ZFSGetCreateTXGAndGuid flt snapPath);
  lift (check (N.eqb expGuid (Guid snapProps))
          (Errorf "expected guid %v != actual guid %v for snap name %q"
                  [FNum expGuid; FNum (Guid snapProps); FStr snapPath]));;
  let bookmarkPath := ToString fs +:+ "#" +:+ ReplicationCursorBookmarkName in
  r ← try (ZFSGetCreateTXGAndGuid flt bookmarkPath);
  let bookmark : M unit :=
    mapErr (fun e => Wrap e "cannot create bookmark")
           (ZFSBookmark flt fs snapname ReplicationCursorBookmarkName) in
  match r with
  | inl (DatasetDoesNotExist _) => bookmark
  | inl e => lift (Err (Wrap e "cannot get bookmark txg"))
  | inr bookmarkProps =>
      (* bookmark does exist *)
      if (CreateTXG snapProps <? CreateTXG bookmarkProps)%N
      then lift (Err (New "cannot can only be advanced, not set back"))
      else if N.eqb (Guid bookmarkProps) (Guid snapProps)
      then mret tt (* no action required *)
      else
        mapErr (fun e => Wrap e "cannot destroy current cursor to move it to new")
               (ZFSDestroy flt bookmarkPath);;
        bookmark
  end.

(** *** Placeholders and receiving *)

Record FilesystemPlaceholderState : Type := {
  FSExists : bool;
  IsPlaceholder : bool
}.

(** Modelled from the spec: [ZFSGetFilesystemPlaceholderState] is a function
    of package zfs that is not among the sources. "PlaceholderState:
    fs-exists, is-placeholder. A non-existent filesystem is not a
    placeholder; a placeholder is marked via a reserved property set at
    creation." *)
Definition ZFSGetFilesystemPlaceholderState (flt : Faults) (p : DatasetPath)
  : M FilesystemPlaceholderState :=
  call flt (CallGetPlaceholder (ToString p));;
  effect (fun w =>
    match filesystems w !! ToString p with
    | Some fs => (Ok {| FSExists := true; IsPlaceholder := placeholder fs |}, w)
    | None => (Ok {| FSExists := false; IsPlaceholder := false |}, w)
    end).

(** Modelled from the spec: [ZFSCreatePlaceholderFilesystem] is not among
    the sources. "Creating a placeholder sets a reserved property that
    is-placeholder=true." Creating what exists fails. *)
Definition ZFSCreatePlaceholderFilesystem (flt : Faults) (p : DatasetPath) : M unit :=
  call flt (CallCreatePlaceholder (ToString p));;
  effect (fun w =>
    match filesystems w !! ToString p with
    | Some _ => (Err (ZFSError "dataset already exists"), w)
    | None =>
        (Ok tt, setFilesystems
                  (<[ToString p := {| placeholder := true; receive_resume_token := "" |}]>
                     (filesystems w)) w)
    end).

(** Modelled from the spec: [ZFSSetPlaceholder] is not among the sources.
    It sets the reserved property of an existing filesystem: "clears the
    placeholder marker ... the filesystem is no longer advertised as a
    placeholder". *)
Definition ZFSSetPlaceholder (flt : Faults) (p : DatasetPath) (isPlaceholder : bool) : M unit :=
  call flt (CallSetPlaceholder (ToString p) isPlaceholder);;
  effect (fun w =>
    match filesystems w !! ToString p with
    | Some fs =>
        (Ok tt, setFilesystems
                  (<[ToString p := {| placeholder := isPlaceholder;
                                      receive_resume_token := receive_resume_token fs |}]>
                     (filesystems w)) w)
    | None => (Err (DatasetDoesNotExist (ToString p)), w)
    end).

(** Modelled from the spec: [ZFSGetReceiveResumeTokenOrEmptyStringIfNotSupported]
    is not among the sources. "optional resume token (receiver-only; empty
    if the volume manager reports none)". *)
Definition ZFSGetReceiveResumeTokenOrEmptyStringIfNotSupported (flt : Faults) (p : DatasetPath)
  : M string :=
  call flt (CallGetResumeToken (ToString p));;
  effect (fun w =>
    match filesystems w !! ToString p with
    | Some fs => (Ok (if resumable w then receive_resume_token fs else ""), w)
    | None => (Err (DatasetDoesNotExist (ToString p)), w)
    end).

(** Modelled from the spec: [ResumeRecvSupported] is not among the sources.
    "Resumable-receive support is probed per target". *)
Definition ResumeRecvSupported (flt : Faults) (fs : DatasetPath) : M bool :=
  call flt (CallResumeRecvSupported (ToString fs));;
  effect (fun w => (Ok (resumable w), w)).

(** [ZFSRecvClearResumeToken]: absence of resumable state is not an error. *)
Definition ZFSRecvClearResumeToken (flt : Faults) (fs : string) : M unit :=
  lift (validateZFSFilesystem fs);;
  mapErr (fun e => ClearResumeTokenError "") (call flt (CallRecvAbort fs));;
  effect (fun w =>
    match filesystems w !! fs with
    | Some p =>
        (Ok tt, setFilesystems
                  (<[fs := {| placeholder := placeholder p; receive_resume_token := "" |}]>
                     (filesystems w)) w)
    | None => (Err (ClearResumeTokenError ""), w)
    end).

(** *** Versions of a filesystem, and rolling back *)

(** [FilesystemVersion], as far as it is used. *)
Module FilesystemVersion.
Inductive VersionType : Type :=
| Bookmark
| Snapshot.
Record t : Type := {
  Type_ : VersionType;
  Name : string; (* without the filesystem and the delimiter *)
  Guid : N;
  CreateTXG : N
}.
End FilesystemVersion.

(** Modelled from the spec: [FilesystemVersion.ToAbsPath] is not among the
    sources. "short name (without filesystem prefix, starting with @ or #
    depending on variant)": the full name is the filesystem, the delimiter
    and the name, as [zfsBuildSnapName] and [zfsBuildBookmarkName] build
    it. *)
Definition ToAbsPath (v : FilesystemVersion.t) (p : DatasetPath) : string :=
  match FilesystemVersion.Type_ v with
  | FilesystemVersion.Snapshot => zfsBuildSnapName p (FilesystemVersion.Name v)
  | FilesystemVersion.Bookmark => zfsBuildBookmarkName p (FilesystemVersion.Name v)
  end.

(** Modelled from the spec: [FilesystemVersion.String] is not among the
    sources. The short name, "starting with @ or # depending on variant". *)
Definition FilesystemVersion_String (v : FilesystemVersion.t) : string :=
  match FilesystemVersion.Type_ v with
  | FilesystemVersion.Snapshot => "@" +:+ FilesystemVersion.Name v
  | FilesystemVersion.Bookmark => "#" +:+ FilesystemVersion.Name v
  end.

(** [s] after the prefix [p], if it starts with it. *)
Definition afterPrefix (p s : string) : option string :=
  if String.prefix p s
  then Some (String.substring (String.length p) (String.length s - String.length p) s)
  else None.

(** The version of the filesystem [fs] that an entry of [versions] stands
    for, if it is one. *)
Definition versionOf (fs : DatasetPath)
  (entry : string * ZFSPropCreateTxgAndGuidProps) : option FilesystemVersion.t :=
  match afterPrefix (ToString fs +:+ "@") (fst entry),
        afterPrefix (ToString fs +:+ "#") (fst entry) with
  | Some name, _ =>
      Some {| FilesystemVersion.Type_ := FilesystemVersion.Snapshot;
              FilesystemVersion.Name := name;
              FilesystemVersion.Guid := Guid (snd entry);
              FilesystemVersion.CreateTXG := CreateTXG (snd entry) |}
  | None, Some name =>
      Some {| FilesystemVersion.Type_ := FilesystemVersion.Bookmark;
              FilesystemVersion.Name := name;
              FilesystemVersion.Guid := Guid (snd entry);
              FilesystemVersion.CreateTXG := CreateTXG (snd entry) |}
  | None, None => None
  end.

(** Modelled from the spec: [ZFSListFilesystemVersions] is not among the
    sources. "list versions (snapshots/bookmarks)"; "FilesystemVersion:
    variant tag, short name, creation-transaction number, GUID". The order
    of the list is that of the listing. *)
Definition ZFSListFilesystemVersions (flt : Faults) (fs : DatasetPath)
  : M (list FilesystemVersion.t) :=
  call flt CallList;;
  effect (fun w => (Ok (omap (versionOf fs) (map_to_list (versions w))), w)).

(** [sort.Slice(x, less)], by insertion. [sort.Slice] promises no order
    among elements of which none is less than the other (here: snapshots
    of equal createtxg); they stay in the order they had. *)
Fixpoint insertSorted {A : Type} (less : A -> A -> bool) (x : A) (l : list A) : list A :=
  match l with
  | [] => [x]
  | y :: l' => if less x y then x :: l else y :: insertSorted less x l'
  end.

Definition sortSlice {A : Type} (less : A -> A -> bool) (l : list A) : list A :=
  fold_left (fun acc x => insertSorted less x acc) l [].

(** [ZFSRollback]. The volume manager rolls the filesystem back to the
    snapshot: with [-r] the versions of the filesystem that are later
    than the snapshot are destroyed. *)
Definition ZFSRollback (flt : Faults) (fs : DatasetPath) (snapshot : FilesystemVersion.t)
  (rollbackArgs : list string) : M unit :=
  let snapabs := ToAbsPath snapshot fs in
  match FilesystemVersion.Type_ snapshot with
  | FilesystemVersion.Snapshot =>
      call flt (CallRollback rollbackArgs snapabs);;
      effect (fun w =>
        match versions w !! snapabs with
        | Some props =>
            (Ok tt,
             setVersions
               (filter (fun e : string * ZFSPropCreateTxgAndGuidProps =>
                          negb (bool_decide (is_Some (versionOf fs e))
                                && (CreateTXG props <? CreateTXG (snd e))%N) = true)
                       (versions w)) w)
        | None => (Err (ZFSError "dataset does not exist"), w)
        end)
  | _ => lift (Err (Errorf "can only rollback to snapshots, got %s" [FStr snapabs]))
  end.

(** The rollback of [ZFSRecv] for a forced receive: destroy all snapshots
    before [recv -F]. *)
Definition rollbackForForcedRecv (flt : Faults) (fsdp : DatasetPath) : M unit :=
  vs ← mapErr (fun e => Errorf "cannot list versions for rollback for forced receive: %s"
                               [FErr e])
              (ZFSListFilesystemVersions flt fsdp);
  let snaps :=
    sortSlice (fun a b => (FilesystemVersion.CreateTXG a <? FilesystemVersion.CreateTXG b)%N)
              (List.filter (fun v => match FilesystemVersion.Type_ v with
                                     | FilesystemVersion.Snapshot => true
                                     | _ => false
                                     end) vs) in
  (* bookmarks are rolled back automatically *)
  match snaps with
  | rollbackTarget :: _ =>
      (* use rollback to efficiently destroy all but the earliest snapshot
         then destroy that earliest snapshot
         afterwards, recv -F will work *)
      let rollbackTargetAbs := ToAbsPath rollbackTarget fsdp in
      mapErr (fun e => Errorf "cannot rollback %s to %s for forced receive: %s"
                              [FStr (ToString fsdp);
                               FStr (FilesystemVersion_String rollbackTarget); FErr e])
             (ZFSRollback flt fsdp rollbackTarget ["-r"]);;
      mapErr (fun e => Errorf "cannot destroy %s for forced receive: %s"
                              [FStr rollbackTargetAbs; FErr e])
             (ZFSDestroy flt rollbackTargetAbs)
  | [] => mret tt
  end.

(** [ZFSRecv]: for a forced receive the rollback comes first, and its
    failure is returned before [zfs recv] is started. The run of [zfs recv]
    that consumes the stream is one call; what it does to snapshots is not
    kept. Afterwards the filesystem exists; an existing local property
    value is kept. *)
Definition ZFSRecv (flt : Faults) (fs : string) (streamCopier : sendStreamCopier)
  (opts : RecvOptions) : M unit :=
  lift (validateZFSFilesystem fs);;
  fsdp ← lift (NewDatasetPath fs);
  (if RollbackAndForceRecv opts then rollbackForForcedRecv flt fsdp else mret tt);;
  call flt (CallRecv fs opts);;
  effect (fun w =>
    let ph := match filesystems w !! fs with
              | Some p => placeholder p
              | None => false
              end in
    (Ok tt, setFilesystems
              (<[fs := {| placeholder := ph; receive_resume_token := "" |}]> (filesystems w)) w)).

(** The interface [DatasetFilter]. *)
Definition DatasetFilter : Type := DatasetPath -> result bool.

Fixpoint listMappingLoop (filter : DatasetFilter) (names : list string)
  : result (list DatasetPath) :=
  match names with
  | [] => Ok []
  | name :: rest =>
      path ← NewDatasetPath name;
      pass ← match filter path with
             | Err e => Err (Errorf "error calling filter: %s" [FErr e])
             | r => r
             end;
      datasets ← listMappingLoop filter rest;
      Ok (if pass : bool then path :: datasets else datasets)
  end.

(** Modelled from the spec: [ZFSListMapping] is not among the sources.
    "ListMapping(filter) returns paths passing a caller-supplied filter." *)
Definition ZFSListMapping (flt : Faults) (filter : DatasetFilter) : M (list DatasetPath) :=
  call flt CallList;;
  effect (fun w => (listMappingLoop filter (map fst (map_to_list (filesystems w))), w)).

(** Modelled from the spec: [DatasetPathForest.Add] and [WalkTopDown] are
    not among the sources. "A forest walk visits ancestor paths top-down";
    the visitor stops the descent by returning false. For the forest of one
    path this is the list of its non-empty prefixes, the shortest first: the
    visitor in [Receive] tests for the path itself and for the ancestors of
    the root, so it is handed both. *)
Definition forestOf (p : DatasetPath) : list DatasetPath :=
  map (fun n => {| comps := firstn n (comps p) |}) (seq 1 (length (comps p))).

Fixpoint WalkTopDown {S : Type} (visits : list DatasetPath)
  (visitor : DatasetPath -> S -> bool * S) (st : S) : S :=
  match visits with
  | [] => st
  | v :: rest =>
      let '(visitChildTree, st') := visitor v st in
      if visitChildTree then WalkTopDown rest visitor st' else st'
  end.

End Zfs.

(** ** Go's [path] package: [Clean] and [Join] *)
Module GoPath.
Import GoStrings.

(** [path.Clean] on the elements between slashes: empty elements and [.]
    are dropped, [..] removes the element before it; a [..] with nothing
    before it is dropped in a rooted path and kept otherwise. [out] is the
    cleaned path so far, last element first. *)
Fixpoint cleanElems (rooted : bool) (out elems : list string) : list string :=
  match elems with
  | [] => rev out
  | e :: rest =>
      if String.eqb e "" || String.eqb e "." then cleanElems rooted out rest
      else if String.eqb e ".." then
        match out with
        | top :: out' =>
            if String.eqb top ".." then cleanElems rooted (".." :: out) rest
            else cleanElems rooted out' rest
        | [] =>
            if rooted then cleanElems rooted [] rest
            else cleanElems rooted [".."] rest
        end
      else cleanElems rooted (e :: out) rest
  end.

Definition Clean (path : string) : string :=
  if String.eqb path "" then "."
  else
    let rooted := String.eqb (slice01 path) "/" in
    let out := cleanElems rooted [] (Split path "/") in
    let s := (if rooted then "/" else "") +:+ Join out "/" in
    if String.eqb s "" then "." else s.

(** [path.Join(a, b)]: empty elements are ignored, the result is cleaned. *)
Definition Join2 (a b : string) : string :=
  if Nat.eqb (String.length a + String.length b) 0 then ""
  else Clean (if String.eqb a "" then b else a +:+ "/" +:+ b).

End GoPath.

(** ** Package pdu: the messages of the endpoints, as far as they are used *)
Module Pdu.

Module SendReq.
Record t : Type := {
  Filesystem : string;
  From : string;
  To : string;
  ResumeToken : string;
  DryRun : bool
}.
End SendReq.

Module SendRes.
Record t : Type := {
  ExpectedSize : Z;
  UsedResumeToken : bool
}.
End SendRes.

Module ReceiveReq.
Record t : Type := {
  Filesystem : string;
  ClearResumeToken : bool
}.
End ReceiveReq.

Module Filesystem.
Record t : Type := {
  Path : string;
  ResumeToken : string;
  IsPlaceholder : bool
}.
End Filesystem.

Module ReplicationCursorReq.
Inductive op : Type :=
| Get
| Set_ (Snapshot : string).
Record t : Type := {
  Filesystem : string;
  Op : op
}.
End ReplicationCursorReq.

Module ReplicationCursorRes.
Inductive t : Type :=
| Guid (guid : N)
| Notexist (b : bool).
End ReplicationCursorRes.

End Pdu.

(** ** Package endpoint *)
Module Endpoint.
Import GoStrings.

(** *** Sender *)

Record Sender : Type := { FSFilter : Zfs.DatasetFilter }.

Definition filterCheckFS (s : Sender) (fs : string) : result Zfs.DatasetPath :=
  dp ← Zfs.NewDatasetPath fs;
  check (negb (Nat.eqb (Zfs.Length dp) 0)) (New "empty filesystem not allowed");;
  pass ← FSFilter s dp;
  check pass (Errorf "endpoint does not allow access to filesystem %s" [FStr fs]);;
  Ok dp.

(** What [Send] calls outside of this file. [ParseResumeToken] and
    [ZFSGetGUID] are those of [Zfs]. The endpoint calls
    [token.ValidateCorrespondsToSend] and the four-string forms of
    [zfs.ZFSSendDry] and [zfs.ZFSSend], none of which is among the sources:
    they are parameters, as are the query for resume support and the
    semaphore. *)
Record SendEnv : Type := {
  zfsEnv : Zfs.ZfsEnv;
  ResumeSendSupported : reply bool;
  ValidateCorrespondsToSend :
    Zfs.ParsedResumeToken -> string -> bool -> N -> N -> option error;
  Acquire : option error;
  ZFSSendDry : string -> string -> string -> string -> reply Zfs.DrySendInfo;
  ZFSSend : string -> string -> string -> string -> reply Zfs.sendStreamCopier
}.

(** The dynamic type of the error that the closure [validateResumeToken]
    returns: [nil], one of the two local wrapper types, or another error. *)
Inductive rtError : Type :=
| rtNil
| rtValErr (e : error)
| rtNotSupported (e : error)
| rtOther (e : error)
| rtPanic (msg : string).

Definition validateResumeToken (env : SendEnv) (r : Pdu.SendReq.t) : rtError :=
  if String.eqb (Pdu.SendReq.ResumeToken r) "" then rtNil
  else
    match ResumeSendSupported env with
    | Fail e => rtOther (Wrap e "check for resume send support failed")
    | Reply false => rtNotSupported (Errorf "resumable send not supported" [])
    | Reply true =>
        match Zfs.ParseResumeToken (zfsEnv env) (Pdu.SendReq.ResumeToken r) with
        | Fail ResumeTokenDecodingNotSupported =>
            rtNotSupported ResumeTokenDecodingNotSupported
        | Fail ResumeTokenParsingError =>
            rtNotSupported ResumeTokenParsingError
        | Fail ResumeTokenCorruptError =>
            rtOther ResumeTokenCorruptError (* hard error by sender *)
        | Fail e =>
            rtOther (Wrap e "resume token decoding failed")
        | Reply token =>
            match Zfs.ZFSGetGUID (zfsEnv env) (Pdu.SendReq.Filesystem r) (Pdu.SendReq.To r) with
            | Err e => rtOther e
            | Panic msg => rtPanic msg
            | Ok expToGUID =>
                let from :=
                  if negb (String.eqb (Pdu.SendReq.From r) "")
                  then match Zfs.ZFSGetGUID (zfsEnv env) (Pdu.SendReq.Filesystem r)
                                            (Pdu.SendReq.From r) with
                       | Ok g => Ok (true, g)
                       | Err e => Err e
                       | Panic msg => Panic msg
                       end
                  else Ok (false, 0%N) in
                match from with
                | Err e => rtOther e
                | Panic msg => rtPanic msg
                | Ok (expHasFromGUID, expFromGUID) =>
                    match ValidateCorrespondsToSend env token (Pdu.SendReq.Filesystem r)
                            expHasFromGUID expFromGUID expToGUID with
                    | Some e =>
                        rtValErr (Wrap e "resume token does not correspond to request send")
                    | None => rtNil
                    end
                end
            end
        end
    end.

(** The checks of [Send] that come before the resume token is looked at. *)
Definition checkSendReq (s : Sender) (r : Pdu.SendReq.t) : result unit :=
  check (negb (String.eqb (Pdu.SendReq.Filesystem r) ""))
        (New "`Filesystems` field in SendReq must not be empty");;
  check (negb (String.eqb (Pdu.SendReq.To r) ""))
        (New "`To` field in SendReq must not be empty");;
  check (IndexAny (slice01 (Pdu.SendReq.To r)) "@#" =? 0)%Z
        (New "`To` field in SendReq must start with @ or #");;
  (* r.From may be empty for full send *)
  check (negb (negb (String.eqb (Pdu.SendReq.From r) "")
               && negb (IndexAny (slice01 (Pdu.SendReq.From r)) "@#" =? 0)%Z))
        (New "`From` field in SendReq must start with @ or #");;
  filterCheckFS s (Pdu.SendReq.Filesystem r);;
  Ok tt.

(** What [Send] does once the resume token to use is known. *)
Definition sendWith (env : SendEnv) (r : Pdu.SendReq.t) (useResumeToken : string)
  : result (Pdu.SendRes.t * option Zfs.sendStreamCopier) :=
  match Acquire env with Some e => Err e | None => Ok tt end;;
  si ← ask (ZFSSendDry env (Pdu.SendReq.Filesystem r) (Pdu.SendReq.From r)
                       (Pdu.SendReq.To r) useResumeToken);
  (* protocol says 0 means no estimate, but si returns -1 for no size estimate *)
  let expSize := if negb (Zfs.SizeEstimate si =? -1)%Z then Zfs.SizeEstimate si else 0%Z in
  let res := {| Pdu.SendRes.ExpectedSize := expSize;
                Pdu.SendRes.UsedResumeToken := negb (String.eqb useResumeToken "") |} in
  if Pdu.SendReq.DryRun r then Ok (res, None)
  else
    streamCopier ← ask (ZFSSend env (Pdu.SendReq.Filesystem r) (Pdu.SendReq.From r)
                                (Pdu.SendReq.To r) useResumeToken);
    Ok (res, Some streamCopier).

(** [Sender.Send]: the response and the stream (none for a dry run), or the
    error. A case of a Go type switch does not fall through. *)
Definition Send (s : Sender) (env : SendEnv) (r : Pdu.SendReq.t)
  : result (Pdu.SendRes.t * option Zfs.sendStreamCopier) :=
  checkSendReq s r;;
  match validateResumeToken env r with
  | rtValErr e => Err e
  | rtNotSupported _ => sendWith env r ""
  | rtNil => sendWith env r (Pdu.SendReq.ResumeToken r)
  | rtOther e => Err e
  | rtPanic msg => Panic msg
  end.

(** [ZFSGetReplicationCursor] of the cursor file: the bookmark of the
    filesystem that is named [zrepl_replication_cursor], if the listing of
    its versions has one. *)
Definition ZFSGetReplicationCursor (flt : Zfs.Faults) (fs : Zfs.DatasetPath)
  : Zfs.M (option Zfs.ZFSPropCreateTxgAndGuidProps) :=
  Zfs.call flt Zfs.CallList;;
  Zfs.effect (fun w =>
    (Ok (Zfs.versions w !! Zfs.zfsBuildBookmarkName fs Zfs.ReplicationCursorBookmarkName), w)).

(** The endpoint calls [zfs.ZFSSetReplicationCursor(dp, op.Set.Snapshot)]:
    two arguments, and a GUID comes back with the error. The function of the
    cursor file takes a third argument, the expected GUID, and the request
    has no GUID to pass. The call is taken as that function run on the GUID
    that the named snapshot has when it is called, which is the GUID that
    comes back. *)
Definition setReplicationCursorByName (flt : Zfs.Faults)
  (fs : Zfs.DatasetPath) (snapname : string) : Zfs.M N :=
  fun w =>
    match Zfs.versions w !! Zfs.zfsBuildSnapName fs snapname with
    | Some props =>
        (Zfs.ZFSSetReplicationCursor flt fs snapname (Zfs.Guid props);;
         mret (Zfs.Guid props)) w
    | None =>
        (Zfs.ZFSSetReplicationCursor flt fs snapname 0%N;; mret 0%N) w
    end.

(** [Sender.ReplicationCursor]. *)
Definition ReplicationCursor (flt : Zfs.Faults) (p : Sender) (req : Pdu.ReplicationCursorReq.t)
  : Zfs.M Pdu.ReplicationCursorRes.t :=
  dp ← Zfs.lift (filterCheckFS p (Pdu.ReplicationCursorReq.Filesystem req));
  match Pdu.ReplicationCursorReq.Op req with
  | Pdu.ReplicationCursorReq.Get =>
      cursor ← ZFSGetReplicationCursor flt dp;
      match cursor with
      | None => mret (Pdu.ReplicationCursorRes.Notexist true)
      | Some c => mret (Pdu.ReplicationCursorRes.Guid (Zfs.Guid c))
      end
  | Pdu.ReplicationCursorReq.Set_ snapshot =>
      guid ← setReplicationCursorByName flt dp snapshot;
      mret (Pdu.ReplicationCursorRes.Guid guid)
  end.

(** *** Receiver *)

Record Receiver : Type := {
  rootWithoutClientComponent : Zfs.DatasetPath;
  appendClientIdentity : bool
}.

Definition NewReceiver (rootDataset : Zfs.DatasetPath) (appendClientIdentity : bool)
  : result Receiver :=
  if Nat.leb (Zfs.Length rootDataset) 0
  then Panic "root dataset must not be an empty path"
  else Ok {| rootWithoutClientComponent := Zfs.Copy rootDataset;
             appendClientIdentity := appendClientIdentity |}.

Definition clientRoot (rootFS : Zfs.DatasetPath) (clientIdentity : string)
  : result Zfs.DatasetPath :=
  let rootFSLen := Zfs.Length rootFS in
  let clientRootStr := GoPath.Join2 (Zfs.ToString rootFS) clientIdentity in
  clientRoot ← Zfs.NewDatasetPath clientRootStr;
  check (Nat.eqb (rootFSLen + 1) (Zfs.Length clientRoot))
        (Errorf "client identity must be a single ZFS filesystem path component" []);;
  Ok clientRoot.

Definition TestClientIdentity (rootFS : Zfs.DatasetPath) (clientIdentity : string)
  : result unit :=
  clientRoot rootFS clientIdentity;; Ok tt.

(** [ctx] is the value of the context at [ClientIdentityKey], if it is a
    string. *)
Definition clientRootFromCtx (s : Receiver) (ctx : option string) : result Zfs.DatasetPath :=
  if negb (appendClientIdentity s) then Ok (Zfs.Copy (rootWithoutClientComponent s))
  else
    match ctx with
    | None => Panic "ClientIdentityKey context value must be set"
    | Some clientIdentity =>
        match clientRoot (rootWithoutClientComponent s) clientIdentity with
        | Ok clientRoot => Ok clientRoot
        | _ => Panic "ClientIdentityContextKey must have been validated before invoking Receiver"
        end
    end.

Record subroot : Type := { localRoot : Zfs.DatasetPath }.

(** [subroot.Filter]: filters local [p]. *)
Definition Filter (f : subroot) (p : Zfs.DatasetPath) : result bool :=
  Ok (Zfs.HasPrefix p (localRoot f) && negb (Zfs.Equal p (localRoot f))).

Definition MapToLocal (f : subroot) (fs : string) : result Zfs.DatasetPath :=
  p ← Zfs.NewDatasetPath fs;
  check (negb (Nat.eqb (Zfs.Length p) 0)) (Errorf "cannot map empty filesystem" []);;
  let c := Zfs.Copy (localRoot f) in
  Ok (Zfs.Extend c p).

(** The loop of [Receiver.ListFilesystems] over the filtered paths. *)
Fixpoint listFilesystemsLoop (flt : Zfs.Faults) (root : Zfs.DatasetPath)
  (filtered : list Zfs.DatasetPath) : Zfs.M (list Pdu.Filesystem.t) :=
  match filtered with
  | [] => mret []
  | a :: rest =>
      ph ← Zfs.mapErr (fun e => Wrap e "cannot get placeholder state for fs %q")
                      (Zfs.ZFSGetFilesystemPlaceholderState flt a);
      (if negb (Zfs.FSExists ph)
       then Zfs.lift (Err (Errorf
              "inconsistent placeholder state: filesystem %q must exist in this context"
              [FStr (Zfs.ToString a)]))
       else mret tt);;
      token ← Zfs.ZFSGetReceiveResumeTokenOrEmptyStringIfNotSupported flt a;
      let a := Zfs.TrimPrefix a root in
      let fs := {| Pdu.Filesystem.Path := Zfs.ToString a;
                   Pdu.Filesystem.IsPlaceholder := Zfs.IsPlaceholder ph;
                   Pdu.Filesystem.ResumeToken := token |} in
      fss ← listFilesystemsLoop flt root rest;
      mret (fs :: fss)
  end.

(** [Receiver.ListFilesystems]: present filesystems without the root_fs
    prefix. *)
Definition ListFilesystems (flt : Zfs.Faults) (s : Receiver) (ctx : option string)
  : Zfs.M (list Pdu.Filesystem.t) :=
  root ← Zfs.lift (clientRootFromCtx s ctx);
  filtered ← Zfs.ZFSListMapping flt (Filter {| localRoot := root |});
  listFilesystemsLoop flt root filtered.

(** The visitor of the tree walk in [Receive]. Its state is the variable
    [visitErr] of the enclosing function ([Ok tt] for nil) and the world. *)
Definition visitor (flt : Zfs.Faults) (s : Receiver) (lp : Zfs.DatasetPath)
  (v : Zfs.DatasetPath) (st : result unit * Zfs.World) : bool * (result unit * Zfs.World) :=
  let '(visitErr, w) := st in
  if Zfs.Equal v lp then (false, st)
  else
    match Zfs.ZFSGetFilesystemPlaceholderState flt v w with
    | (Err e, w) => (false, (Err e, w))
    | (Panic msg, w) => (false, (Panic msg, w))
    | (Ok ph, w) =>
        if negb (Zfs.FSExists ph) then
          if Zfs.HasPrefix (rootWithoutClientComponent s) v then
            let visitErr :=
              if Nat.eqb (Zfs.Length v) 1
              then Err (Errorf "pool %q not imported" [FStr (Zfs.ToString v)])
              else Err (Errorf "root_fs %q does not exist"
                               [FStr (Zfs.ToString (rootWithoutClientComponent s))]) in
            (false, (visitErr, w))
          else
            match Zfs.ZFSCreatePlaceholderFilesystem flt v w with
            | (Err e, w) => (false, (Err e, w))
            | (Panic msg, w) => (false, (Panic msg, w))
            | (Ok _, w) => (true, (visitErr, w))
            end
        else (true, (visitErr, w)) (* leave this fs as is *)
    end.

(** The part of [Receive] that creates placeholder parent filesystems. *)
Definition createPlaceholderParents (flt : Zfs.Faults) (s : Receiver) (lp : Zfs.DatasetPath)
  : Zfs.M unit :=
  fun w => Zfs.WalkTopDown (Zfs.forestOf lp) (visitor flt s lp) (Ok tt, w).

(** [Receiver.Receive]. *)
Definition Receive (flt : Zfs.Faults) (s : Receiver) (ctx : option string)
  (req : Pdu.ReceiveReq.t) (receive : Zfs.sendStreamCopier) : Zfs.M unit :=
  root ← Zfs.lift (clientRootFromCtx s ctx);
  lp ← Zfs.lift (MapToLocal {| localRoot := root |} (Pdu.ReceiveReq.Filesystem req));
  (* create placeholder parent filesystems as appropriate *)
  createPlaceholderParents flt s lp;;
  (* determine whether we need to rollback the filesystem / change its
     placeholder state *)
  r ← Zfs.try (Zfs.ZFSGetFilesystemPlaceholderState flt lp);
  let ph := match r with
            | inr ph => ph
            | inl _ => {| Zfs.FSExists := false; Zfs.IsPlaceholder := false |}
            end in
  let clearPlaceholderProperty :=
    match r with
    | inr ph => Zfs.FSExists ph && Zfs.IsPlaceholder ph
    | inl _ => false
    end in
  (if clearPlaceholderProperty
   then Zfs.mapErr
          (fun e => Errorf "cannot clear placeholder property for forced receive: %s" [FErr e])
          (Zfs.ZFSSetPlaceholder flt lp false)
   else mret tt);;
  (if Pdu.ReceiveReq.ClearResumeToken req && Zfs.FSExists ph
   then Zfs.mapErr (fun e => Wrap e "cannot clear resume token")
                   (Zfs.ZFSRecvClearResumeToken flt (Zfs.ToString lp))
   else mret tt);;
  savePartialRecvState ←
    Zfs.mapErr (fun e => Wrap e "cannot determine whether we can use resumable send & recv")
               (Zfs.ResumeRecvSupported flt lp);
  let recvOpts := {| Zfs.RollbackAndForceRecv := clearPlaceholderProperty;
                     Zfs.SavePartialRecvState := savePartialRecvState |} in
  Zfs.call flt Zfs.CallAcquireRecv;;
  Zfs.ZFSRecv flt (Zfs.ToString lp) receive recvOpts.

End Endpoint.

(** ** A concrete sender, for the examples: the pool [pool] with the
       filesystem [pool/a] and its snapshots [s1] (GUID 11) and [s2]
       (GUID 22), not encrypted *)
Module Demo.

(** Modelled from the spec: [ResumeToken.ToNameSplit] is not among the
    sources. "ToName (the target filesystem+snapshot)": the filesystem is
    what comes before the [@]. *)
Definition toNameSplit (t : Zfs.ParsedResumeToken) : reply (Zfs.DatasetPath * string) :=
  match GoStrings.SplitN2 (Zfs.ToName t) "@" with
  | [fs; snap] =>
      match Zfs.NewDatasetPath fs with
      | Ok dp => Reply (dp, snap)
      | Err e => Fail (Wrap e "resume token field `toname` filesystem component is invalid")
      | Panic _ => Fail (New "unreachable")
      end
  | _ => Fail (Errorf "resume token field `toname` does not contain @: %q" [FStr (Zfs.ToName t)])
  end.

(** The token of an interrupted incremental send [s1 -> s2] of [pool/a]. *)
Definition token_s1_s2 : Zfs.ParsedResumeToken :=
  {| Zfs.HasFromGUID := true; Zfs.HasToGUID := true;
     Zfs.FromGUID := 11; Zfs.ToGUID := 22;
     Zfs.ToName := "pool/a@s2"; Zfs.RawOK := false; Zfs.CompressOK := false |}.

(** The same token, but for the filesystem [pool/b]. *)
Definition token_other_fs : Zfs.ParsedResumeToken :=
  {| Zfs.HasFromGUID := true; Zfs.HasToGUID := true;
     Zfs.FromGUID := 11; Zfs.ToGUID := 22;
     Zfs.ToName := "pool/b@s2"; Zfs.RawOK := false; Zfs.CompressOK := false |}.

Definition zfsEnv : Zfs.ZfsEnv :=
  {| Zfs.ParseResumeToken := fun tok =>
       if String.eqb tok "1-good" then Reply token_s1_s2
       else if String.eqb tok "1-other" then Reply token_other_fs
       else if String.eqb tok "1-corrupt" then Fail ResumeTokenCorruptError
       else Fail ResumeTokenParsingError;
     Zfs.ToNameSplit := toNameSplit;
     Zfs.zfsGetGuid := fun path =>
       if String.eqb path "pool/a@s1" then Reply 11%N
       else if String.eqb path "pool/a@s2" then Reply 22%N
       else if String.eqb path "pool/a#b1" then Reply 11%N
       else Fail (DatasetDoesNotExist path);
     Zfs.ZFSGetEncryptionEnabled := fun _ => Reply false;
     Zfs.zfsSendProcess := fun _ => Reply [("stream", Some EOF)];
     Zfs.zfsSendDryProcess := fun _ =>
       Reply {| Zfs.Type_ := Zfs.DrySendTypeIncremental; Zfs.Filesystem := "pool/a";
                Zfs.DryFrom := "pool/a@s1"; Zfs.DryTo := "pool/a@s2";
                Zfs.SizeEstimate := 4096 |} |}.

Definition sendArgs (tok : string) : Zfs.ZFSSendArgs :=
  {| Zfs.FS := "pool/a";
     Zfs.From := Some {| Zfs.RelName := "@s1"; Zfs.GUID := 11 |};
     Zfs.To := Some {| Zfs.RelName := "@s2"; Zfs.GUID := 22 |};
     Zfs.Encrypted := Some {| Zfs.B := false |};
     Zfs.ResumeToken := tok |}.

(** The endpoint of that sender: every filesystem may be read, resuming is
    supported or not, and the token check of the endpoint compares the
    filesystem only. *)
Definition sender : Endpoint.Sender := {| Endpoint.FSFilter := fun _ => Ok true |}.

Definition sendEnv (resumeSupported : bool) : Endpoint.SendEnv :=
  {| Endpoint.zfsEnv := zfsEnv;
     Endpoint.ResumeSendSupported := Reply resumeSupported;
     Endpoint.ValidateCorrespondsToSend := fun t fs _ _ _ =>
       match toNameSplit t with
       | Reply (dp, _) =>
           if String.eqb (Zfs.ToString dp) fs then None
           else Some (Errorf "filesystem in resume token field `toname` does not match" [])
       | Fail e => Some e
       end;
     Endpoint.Acquire := None;
     Endpoint.ZFSSendDry := fun _ _ _ _ =>
       Reply {| Zfs.Type_ := Zfs.DrySendTypeIncremental; Zfs.Filesystem := "pool/a";
                Zfs.DryFrom := "pool/a@s1"; Zfs.DryTo := "pool/a@s2";
                Zfs.SizeEstimate := (-1) |};
     Endpoint.ZFSSend := fun _ _ _ _ => Reply (Zfs.newSendStreamCopier [("stream", Some EOF)]) |}.

Definition sendReq (tok : string) : Pdu.SendReq.t :=
  {| Pdu.SendReq.Filesystem := "pool/a"; Pdu.SendReq.From := "@s1";
     Pdu.SendReq.To := "@s2"; Pdu.SendReq.ResumeToken := tok;
     Pdu.SendReq.DryRun := false |}.

(** *** A sending side with a replication cursor: [pool/a] has the
        snapshots [s1] (createtxg 5) and [s2] (createtxg 9, GUID 22), and
        the cursor is at [s2] *)

Definition noFaults : Zfs.Faults := fun _ _ => None.

Definition poolA : Zfs.DatasetPath := {| Zfs.comps := ["pool"; "a"] |}.

Definition cursorWorld (guid_s1 : N) : Zfs.World :=
  {| Zfs.filesystems :=
       {[ "pool" := {| Zfs.placeholder := false; Zfs.receive_resume_token := "" |};
          "pool/a" := {| Zfs.placeholder := false; Zfs.receive_resume_token := "" |} ]};
     Zfs.versions :=
       {[ "pool/a@s1" := {| Zfs.CreateTXG := 5; Zfs.Guid := guid_s1 |};
          "pool/a@s2" := {| Zfs.CreateTXG := 9; Zfs.Guid := 22 |};
          "pool/a#zrepl_replication_cursor" := {| Zfs.CreateTXG := 9; Zfs.Guid := 22 |} ]};
     Zfs.resumable := true;
     Zfs.calls := [] |}.

(** The cursor is at [s1] (GUID 11); since then [s2] was destroyed and a
    new snapshot was taken under the same name, with GUID 99. *)
Definition recreatedWorld : Zfs.World :=
  {| Zfs.filesystems :=
       {[ "pool" := {| Zfs.placeholder := false; Zfs.receive_resume_token := "" |};
          "pool/a" := {| Zfs.placeholder := false; Zfs.receive_resume_token := "" |} ]};
     Zfs.versions :=
       {[ "pool/a@s1" := {| Zfs.CreateTXG := 5; Zfs.Guid := 11 |};
          "pool/a@s2" := {| Zfs.CreateTXG := 14; Zfs.Guid := 99 |};
          "pool/a#zrepl_replication_cursor" := {| Zfs.CreateTXG := 5; Zfs.Guid := 11 |} ]};
     Zfs.resumable := true;
     Zfs.calls := [] |}.

Definition setCursorReq (snapshot : string) : Pdu.ReplicationCursorReq.t :=
  {| Pdu.ReplicationCursorReq.Filesystem := "pool/a";
     Pdu.ReplicationCursorReq.Op := Pdu.ReplicationCursorReq.Set_ snapshot |}.

(** *** A receiving side: the root is [tank/backups], the client [alice]
        has the placeholder [proj] *)

Definition receiver : Endpoint.Receiver :=
  {| Endpoint.rootWithoutClientComponent := {| Zfs.comps := ["tank"; "backups"] |};
     Endpoint.appendClientIdentity := true |}.

Definition plainFS : Zfs.FSProps :=
  {| Zfs.placeholder := false; Zfs.receive_resume_token := "" |}.

Definition placeholderFS : Zfs.FSProps :=
  {| Zfs.placeholder := true; Zfs.receive_resume_token := "" |}.

Definition sinkWorld : Zfs.World :=
  {| Zfs.filesystems :=
       {[ "tank" := plainFS; "tank/backups" := plainFS;
          "tank/backups/alice" := plainFS; "tank/backups/alice/proj" := placeholderFS ]};
     Zfs.versions := ∅;
     Zfs.resumable := true;
     Zfs.calls := [] |}.

Definition receiveReq (fs : string) : Pdu.ReceiveReq.t :=
  {| Pdu.ReceiveReq.Filesystem := fs; Pdu.ReceiveReq.ClearResumeToken := false |}.

Definition someStream : Zfs.sendStreamCopier :=
  Zfs.newSendStreamCopier [("stream", Some EOF)].

(** Only the pool [tank] exists. *)
Definition emptyPool : Zfs.World :=
  {| Zfs.filesystems := {[ "tank" := plainFS ]};
     Zfs.versions := ∅;
     Zfs.resumable := true;
     Zfs.calls := [] |}.

(** A dry send from the bookmark [b1] of [s1]. *)
Definition sendArgsFromBookmark : Zfs.ZFSSendArgs :=
  {| Zfs.FS := "pool/a";
     Zfs.From := Some {| Zfs.RelName := "#b1"; Zfs.GUID := 11 |};
     Zfs.To := Some {| Zfs.RelName := "@s2"; Zfs.GUID := 22 |};
     Zfs.Encrypted := Some {| Zfs.B := false |};
     Zfs.ResumeToken := "" |}.

(** The target [proj/x/y] of [alice], two levels below her placeholder. *)
Definition deepTarget : Zfs.DatasetPath :=
  {| Zfs.comps := ["tank"; "backups"; "alice"; "proj"; "x"; "y"] |}.


(** *** The same receiving side, where [alice] also has the filesystem
        [data], which is not a placeholder *)
Definition dataWorld : Zfs.World :=
  {| Zfs.filesystems :=
       {[ "tank" := plainFS; "tank/backups" := plainFS;
          "tank/backups/alice" := plainFS; "tank/backups/alice/data" := plainFS ]};
     Zfs.versions := ∅;
     Zfs.resumable := true;
     Zfs.calls := [] |}.

End Demo.

(** ** Vocabulary of the statements: what the specification says about
       strings and paths, independently of how the code tests it *)
Module Spec.

(** The seven forbidden characters [@ # | TAB < > *]. *)
Definition forbiddenChars : list ascii :=
  ["@"; "#"; "|"; ascii_of_nat 9; "<"; ">"; "*"]%char.

Definition hasForbidden (s : string) : Prop :=
  Exists (fun c => c ∈ forbiddenChars) (list_ascii_of_string s).

Definition endsWithSlash (s : string) : Prop :=
  last (list_ascii_of_string s) = Some "/"%char.

(** [p] is [root] followed by at least one more component. *)
Definition strictlyBelow (p root : Zfs.DatasetPath) : Prop :=
  exists c rest, Zfs.comps p = Zfs.comps root ++ c :: rest.

(** [p] is a (possibly equal) ancestor of [root]. *)
Definition atOrAbove (p root : Zfs.DatasetPath) : Prop :=
  exists rest, Zfs.comps root = Zfs.comps p ++ rest.

(** The error returned by the last [Read] of a copy ([d] if it made none). *)
Fixpoint lastReadErrFrom (d : option error) (evs : list Zfs.ioEvent) : option error :=
  match evs with
  | [] => d
  | Zfs.EvRead _ er :: rest => lastReadErrFrom er rest
  | Zfs.EvWrite _ _ _ :: rest => lastReadErrFrom d rest
  end.

(** The copy ended on a [Write] that failed: it returned an error, or a
    count other than the number of bytes it was given. *)
Definition sinkFailed (evs : list Zfs.ioEvent) : Prop :=
  exists evs0 p nw ew,
    evs = evs0 ++ [Zfs.EvWrite p nw ew]
    /\ (ew <> None \/ nw <> Z.of_nat (String.length p)).

#[global] Instance hasForbidden_dec s : Decision (hasForbidden s).
Proof. unfold hasForbidden. apply _. Defined.

#[global] Instance endsWithSlash_dec s : Decision (endsWithSlash s).
Proof. unfold endsWithSlash. apply _. Defined.

(** What one run of the copy loop guarantees. *)
Definition copyPost (d : option error)
  (r : option error * Zfs.readErrRecorder * Zfs.Writer * list Zfs.ioEvent) : Prop :=
  let '(cerr, src', _, evs) := r in
  Zfs.readErr src' = lastReadErrFrom d evs
  /\ (cerr = None -> Zfs.readErr src' = Some EOF)
  /\ (cerr <> None -> Zfs.readErr src' = None -> sinkFailed evs)
  /\ (forall e, Zfs.readErr src' = Some e -> e <> EOF -> cerr <> None).

(** A source that delivers five bytes in two reads and a sink whose second
    write breaks. *)
Definition twoReads : Zfs.sendStreamCopier :=
  Zfs.newSendStreamCopier [("abc", None); ("de", None)].
Definition brokenSink : Zfs.Writer := [(3%Z, None); (1%Z, Some (New "broken pipe"))].

(** The resume token describes the operation of the send arguments: the
    same filesystem, the same [from] (present on both sides or on neither,
    with equal GUIDs), the same [to], and raw and compressed both allowed
    for an encrypted send and both not allowed otherwise. *)
Definition tokenCorresponds (a : Zfs.ZFSSendArgs) (t : Zfs.ParsedResumeToken)
  (tokenFS : Zfs.DatasetPath) : Prop :=
  Zfs.ToString tokenFS = Zfs.FS a
  /\ (Zfs.HasFromGUID t = true <-> Zfs.From a <> None)
  /\ (forall from, Zfs.From a = Some from -> Zfs.HasFromGUID t = true ->
        Zfs.FromGUID t = Zfs.GUID from)
  /\ Zfs.HasToGUID t = true
  /\ (exists to, Zfs.To a = Some to /\ Zfs.ToGUID t = Zfs.GUID to)
  /\ (exists enc, Zfs.Encrypted a = Some enc
        /\ if Zfs.B enc
           then Zfs.RawOK t = true /\ Zfs.CompressOK t = true
           else Zfs.RawOK t = false /\ Zfs.CompressOK t = false).

(** The request [r] without its resume token. *)
Definition withoutResumeToken (r : Pdu.SendReq.t) : Pdu.SendReq.t :=
  {| Pdu.SendReq.Filesystem := Pdu.SendReq.Filesystem r;
     Pdu.SendReq.From := Pdu.SendReq.From r;
     Pdu.SendReq.To := Pdu.SendReq.To r;
     Pdu.SendReq.ResumeToken := "";
     Pdu.SendReq.DryRun := Pdu.SendReq.DryRun r |}.

(** What the query of the two number properties of [path] answers in [w]:
    the oracle first, then the world. *)
Definition getProps (flt : Zfs.Faults) (path : string) (w : Zfs.World)
  : result Zfs.ZFSPropCreateTxgAndGuidProps :=
  match flt w (Zfs.CallGet path) with
  | Some (DatasetDoesNotExist p) => Err (DatasetDoesNotExist p)
  | Some e => Err (Wrap e "zfs: set replication cursor: get snapshot createtxg")
  | None =>
      match Zfs.versions w !! path with
      | Some props => Ok props
      | None => Err (DatasetDoesNotExist path)
      end
  end.

(** The name of the cursor bookmark of [fs]. *)
Definition cursorOf (fs : Zfs.DatasetPath) : string :=
  Zfs.zfsBuildBookmarkName fs Zfs.ReplicationCursorBookmarkName.

(** What one entry of the answer says about the path [a] it comes from. *)
Definition entryOf (root : Zfs.DatasetPath) (w : Zfs.World) (a : Zfs.DatasetPath)
  (e : Pdu.Filesystem.t) : Prop :=
  Pdu.Filesystem.Path e = Zfs.ToString (Zfs.TrimPrefix a root)
  /\ exists fs, Zfs.filesystems w !! Zfs.ToString a = Some fs
                /\ Pdu.Filesystem.IsPlaceholder e = Zfs.placeholder fs.

(** If [fs] has the placeholder property [b] in [w], it has it in [w']. *)
Definition keepsPlaceholder (fs : string) (b : bool) (w w' : Zfs.World) : Prop :=
  (exists p, Zfs.filesystems w !! fs = Some p /\ Zfs.placeholder p = b) ->
  (exists p, Zfs.filesystems w' !! fs = Some p /\ Zfs.placeholder p = b).

(** What a walk over the paths [vs] may have done between [w] and [w']: it
    made calls, and every filesystem it created is a placeholder, did not
    exist before, and is at a path of [vs] that is not an ancestor of the
    root. *)
Definition walked (root : Zfs.DatasetPath) (vs : list Zfs.DatasetPath) (w w' : Zfs.World) : Prop :=
  (exists newcalls,
      Zfs.calls w' = newcalls ++ Zfs.calls w
      /\ forall fs, In (Zfs.CallCreatePlaceholder fs) newcalls ->
           exists p, In p vs /\ fs = Zfs.ToString p /\ Zfs.HasPrefix root p = false)
  /\ Zfs.versions w' = Zfs.versions w
  /\ forall fs,
       Zfs.filesystems w' !! fs = Zfs.filesystems w !! fs
       \/ (Zfs.filesystems w !! fs = None
           /\ Zfs.filesystems w' !! fs
              = Some {| Zfs.placeholder := true; Zfs.receive_resume_token := "" |}
           /\ exists p, In p vs /\ fs = Zfs.ToString p /\ Zfs.HasPrefix root p = false).

(** The ancestor of [lp] that has [n] components. *)
Definition prefixOf (lp : Zfs.DatasetPath) (n : nat) : Zfs.DatasetPath :=
  {| Zfs.comps := firstn n (Zfs.comps lp) |}.

(** The surroundings [env] with another dry run of [zfs send]. *)
Definition withDryProcess (f : list string -> reply Zfs.DrySendInfo) (env : Zfs.ZfsEnv)
  : Zfs.ZfsEnv :=
  {| Zfs.ParseResumeToken := Zfs.ParseResumeToken env;
     Zfs.ToNameSplit := Zfs.ToNameSplit env;
     Zfs.zfsGetGuid := Zfs.zfsGetGuid env;
     Zfs.ZFSGetEncryptionEnabled := Zfs.ZFSGetEncryptionEnabled env;
     Zfs.zfsSendProcess := Zfs.zfsSendProcess env;
     Zfs.zfsSendDryProcess := f |}.

(** A call that [Receive] may make for the target [lp] without forcing
    anything: it does not set the placeholder property, it does not destroy
    or roll back, and if it is [zfs recv], it is on the target and without
    rollback. *)
Definition gentleCall (lp : string) (c : Zfs.Call) : Prop :=
  match c with
  | Zfs.CallRecv fs opts => fs = lp /\ Zfs.RollbackAndForceRecv opts = false
  | Zfs.CallSetPlaceholder _ _ => False
  | Zfs.CallDestroy _ => False
  | Zfs.CallRollback _ _ => False
  | _ => True
  end.

(** A component of a clean path: not empty, not [.] or [..], without slash
    and without forbidden character. *)
Definition plainComponent (c : string) : Prop :=
  c <> "" /\ c <> "." /\ c <> ".."
  /\ GoStrings.ContainsByte c "/" = false
  /\ GoStrings.ContainsAny c Zfs.FORBIDDEN = false.

End Spec.

(** ** Further functions of Go's [strings] and [strconv] packages, for the
       functions of package zfs that read the output of the [zfs] binary *)
Module Strings.
Import GoStrings.

(** The pieces of [s] around its first [cuts] separators. *)
Fixpoint splitCuts (s : string) (sep : ascii) (cuts : nat) {struct s} : list string :=
  match cuts with
  | O => [s]
  | S k =>
      match s with
      | EmptyString => [EmptyString]
      | String c rest =>
          if Ascii.eqb c sep then EmptyString :: splitCuts rest sep k
          else match splitCuts rest sep cuts with
               | [] => [String c EmptyString]
               | hd :: tl => String c hd :: tl
               end
      end
  end.

(** [strings.SplitN(s, sep, n)] for a one-byte separator: nil for [n = 0],
    every piece for [n < 0], and otherwise at most [n] pieces, the last of
    which is the unsplit remainder. *)
Definition SplitN (s : string) (sep : ascii) (n : Z) : list string :=
  if (n =? 0)%Z then []
  else if (n <? 0)%Z then Split s sep
  else splitCuts s sep (Z.to_nat (n - 1)).

(** [strings.FieldsFunc(s, f)] for a predicate on bytes: the maximal runs
    of bytes that do not satisfy [f]; there are no empty fields. *)
Fixpoint FieldsFunc (s : string) (f : ascii -> bool) : list string :=
  match s with
  | EmptyString => []
  | String c rest =>
      if f c then FieldsFunc rest f
      else match rest with
           | EmptyString => [String c EmptyString]
           | String c' _ =>
               if f c' then String c EmptyString :: FieldsFunc rest f
               else match FieldsFunc rest f with
                    | hd :: tl => String c hd :: tl
                    | [] => [String c EmptyString]
                    end
           end
  end.

(** [strings.HasPrefix(s, prefix)]. *)
Definition HasPrefix (s prefix : string) : bool := String.prefix prefix s.

(** [strings.Contains(s, substr)]. *)
Definition Contains (s substr : string) : bool :=
  match String.index 0 substr s with
  | Some _ => true
  | None => false
  end.

End Strings.

Module Strconv.

Definition maxUint64 : N := 18446744073709551615.

(** The value of a decimal digit. *)
Definition digit (c : ascii) : option N :=
  let n := N_of_ascii c in
  if ((48 <=? n) && (n <=? 57))%N then Some (n - 48)%N else None.

(** The loop of [strconv.ParseUint(s, 10, 64)]: a byte that is not a digit
    is a syntax error, a value above [maxUint64] a range error, whichever
    comes first. *)
Fixpoint parseUintLoop (s0 s : string) (n : N) : result N :=
  match s with
  | EmptyString => Ok n
  | String c rest =>
      match digit c with
      | None => Err (Errorf "strconv.ParseUint: parsing %q: invalid syntax" [FStr s0])
      | Some d =>
          if (maxUint64 <? n * 10 + d)%N
          then Err (Errorf "strconv.ParseUint: parsing %q: value out of range" [FStr s0])
          else parseUintLoop s0 rest (n * 10 + d)
      end
  end.

(** [strconv.ParseUint(s, 10, 64)]. *)
Definition ParseUint (s : string) : result N :=
  if String.eqb s "" then Err (Errorf "strconv.ParseUint: parsing %q: invalid syntax" [FStr s])
  else parseUintLoop s s 0.

End Strconv.

(** ** Package zfs: the functions that run the [zfs] binary and read what
       it prints (zfs.go, encryption.go) *)
Module ZfsCmd.
Import GoStrings.

(** The error of running a command: an [*exec.ExitError] (the process was
    started and did not succeed; [Exited()] is false when a signal ended
    it; [Stderr] is its field of that name; [state] is what its [Error()]
    prints), or another error. *)
Inductive cmdErr : Type :=
| ExitError (exited : bool) (Stderr : string) (state : string)
| OtherErr (e : error).

(** The value as an [error]. *)
Definition errorOf (e : cmdErr) : error :=
  match e with
  | ExitError _ _ state => New state
  | OtherErr e => e
  end.

(** [exec.Command(ZFS_BINARY, args...).Output()]: the standard output and
    the error, for each argument list. *)
Definition Output : Type := list string -> string * option cmdErr.

Record ZFSProperties : Type := { m : gmap string string }.

Definition NewZFSProperties : ZFSProperties := {| m := ∅ |}.

Definition Set_ (p : ZFSProperties) (key val : string) : ZFSProperties :=
  {| m := <[key := val]> (m p) |}.

(** A key that is not in a Go map reads as the zero value. *)
Definition Get (p : ZFSProperties) (key : string) : string :=
  default "" (m p !! key).

(** [zfsPropertySource], a [uint] of 64 bits. *)
Definition sourceLocal : N := 1.
Definition sourceDefault : N := 2.
Definition sourceInherited : N := 4.
Definition sourceNone : N := 8.
Definition sourceTemporary : N := 16.
Definition sourceReceived : N := 32.
Definition sourceAny : N := N.ones 64.

Definition zfsGetSourceFieldPrefixes (s : N) : list string :=
  (if negb (N.eqb (N.land s sourceLocal) 0) then ["local"] else [])
  ++ (if negb (N.eqb (N.land s sourceDefault) 0) then ["default"] else [])
  ++ (if negb (N.eqb (N.land s sourceInherited) 0) then ["inherited"] else [])
  ++ (if negb (N.eqb (N.land s sourceNone) 0) then ["-"] else [])
  ++ (if negb (N.eqb (N.land s sourceTemporary) 0) then ["temporary"] else [])
  ++ (if negb (N.eqb (N.land s sourceReceived) 0) then ["received"] else [])
  ++ (if N.eqb s sourceAny then [""] else []).

(** The end of [zfsGetDatasetDoesNotExistRegexp] after its first group. *)
Definition doesNotExistTail (s : string) : bool :=
  String.prefix "': dataset does not exist" s
  || String.prefix "': no such pool or dataset" s.

(** The group [([^)]+)] of the expression, matched at the start of [s]: the
    longest non-empty prefix of [s] that has no [)] and is followed by the
    end of the expression. *)
Fixpoint doesNotExistGroup (s : string) : option string :=
  match s with
  | EmptyString => None
  | String c rest =>
      if Ascii.eqb c ")" then None
      else match doesNotExistGroup rest with
           | Some g => Some (String c g)
           | None => if doesNotExistTail rest then Some (String c EmptyString) else None
           end
  end.

(** [zfsGetDatasetDoesNotExistRegexp.FindSubmatch(stderr)], of which the
    code reads the first group only. The expression is
    [^cannot open '([^)]+)': (dataset does not exist|no such pool or dataset)]. *)
Definition zfsGetDatasetDoesNotExistRegexp (stderr : string) : option string :=
  let lit := "cannot open '" in
  if String.prefix lit stderr
  then doesNotExistGroup (String.substring (String.length lit)
                            (String.length stderr - String.length lit) stderr)
  else None.

Definition tab : ascii := ascii_of_nat 9.
Definition newline : ascii := ascii_of_nat 10.

(** The loop of [zfsGet] over the lines. *)
Fixpoint zfsGetLines (allowedPrefixes : list string) (lines : list string)
  (res : ZFSProperties) : result ZFSProperties :=
  match lines with
  | [] => Ok res
  | line :: rest =>
      let fields := Strings.FieldsFunc line (Ascii.eqb tab) in
      if negb (Nat.eqb (length fields) 3)
      then Err (Errorf "zfs get did not return property,value,source tuples" [])
      else
        (* the first allowed prefix that fits sets the property *)
        let res := if existsb (fun p => Strings.HasPrefix (nth 2 fields "") p) allowedPrefixes
                   then Set_ res (nth 0 fields "") (nth 1 fields "")
                   else res in
        zfsGetLines allowedPrefixes rest res
  end.

Definition zfsGet (run : Output) (path : string) (props : list string) (allowedSources : N)
  : result ZFSProperties :=
  let args := ["get"; "-Hp"; "-o"; "property,value,source"; Join props ","; path] in
  match run args with
  | (_, Some (ExitError exited Stderr _)) =>
      if exited
         && match zfsGetDatasetDoesNotExistRegexp Stderr with
            | Some sm1 => String.eqb sm1 path
            | None => false
            end
      then Err (DatasetDoesNotExist path)
      else Err (ZFSError Stderr)
  | (_, Some (OtherErr e)) => Err e
  | (stdout, None) =>
      let lines := Split stdout newline in
      if Nat.ltb (length lines) 1 (* account for newlines *)
         || negb (Nat.eqb (length lines - 1) (length props))
      then Err (Errorf "zfs get did not return the number of expected property values" [])
      else zfsGetLines (zfsGetSourceFieldPrefixes allowedSources)
                       (firstn (length lines - 1) lines) NewZFSProperties
  end.

(** [zfsGetNumberProps]: returns [*DatasetDoesNotExist] as it is. The
    numbers are returned in the order of [props]. *)
Fixpoint parseNumberProps (sps : ZFSProperties) (props : list string)
  : result (gmap string N) :=
  match props with
  | [] => Ok ∅
  | p :: rest =>
      match Strconv.ParseUint (Get sps p) with
      | Ok v => r ← parseNumberProps sps rest; Ok (<[p := v]> r)
      | Err e => Err (Wrap e "zfs get: parse number property %q")
      | Panic msg => Panic msg
      end
  end.

Definition zfsGetNumberProps (run : Output) (ds : string) (props : list string)
  : result (gmap string N) :=
  match zfsGet run ds props sourceAny with
  | Ok sps => parseNumberProps sps props
  | Err (DatasetDoesNotExist p) => Err (DatasetDoesNotExist p) (* pass through as is *)
  | Err e => Err (Wrap e "zfs: set replication cursor: get snapshot createtxg")
  | Panic msg => Panic msg
  end.

Definition ZFSGetCreateTXGAndGuid (run : Output) (ds : string)
  : result Zfs.ZFSPropCreateTxgAndGuidProps :=
  props ← zfsGetNumberProps run ds ["createtxg"; "guid"];
  Ok {| Zfs.CreateTXG := default 0%N (props !! "createtxg");
        Zfs.Guid := default 0%N (props !! "guid") |}.

(** *** Native encryption (encryption.go) *)

(** [exec.Command(...).CombinedOutput()]: the output and the error. *)
Definition CombinedOutput : Type := list string -> string * option cmdErr.

(** The package variable [encryptionCLISupport]: [once] has run or not, and
    what it stored. *)
Record encryptionCLISupport : Type := {
  onceDone : bool;
  supported : bool;
  err : option error
}.

(** [EncryptionCLISupported]: the feature discovery runs once. [envBool] is
    [envconst.Bool], which is not among the sources: the value of the
    variable of the environment if it is set, the default otherwise. *)
Definition EncryptionCLISupported (envBool : string -> bool -> bool)
  (run : CombinedOutput) (st : encryptionCLISupport)
  : (bool * option error) * encryptionCLISupport :=
  if onceDone st then ((supported st, err st), st)
  else
    let '(output, cerr) := run ["load-key"] in
    let err :=
      match cerr with
      | Some (ExitError true _ _) => None
      | Some e =>
          Some (Wrap (errorOf e) "native encryption cli support feature check failed")
      | None => None (* wrapping nil gives nil *)
      end in
    let def := Strings.Contains output "load-key" && Strings.Contains output "keylocation" in
    let supported := envBool "ZREPL_EXPERIMENTAL_ZFS_ENCRYPTION_CLI_SUPPORTED" def in
    ((supported, err), {| onceDone := true; supported := supported; err := err |}).

(** [ZFSGetEncryptionEnabled]: returns false, nil if encryption is not
    supported. The deferred function reformats every error. *)
Definition ZFSGetEncryptionEnabled (envBool : string -> bool -> bool)
  (loadKey : CombinedOutput) (run : Output) (fs : string) (st : encryptionCLISupport)
  : result bool * encryptionCLISupport :=
  let '((supp, err), st) := EncryptionCLISupported envBool loadKey st in
  let body : result bool :=
    match err with
    | Some e => Err e
    | None =>
        if negb supp then Ok false
        else
          Zfs.validateZFSFilesystem fs;;
          props ← match zfsGet run fs ["encryption"] sourceAny with
                  | Err e => Err (Wrap e "cannot get `encryption` property")
                  | r => r
                  end;
          let val := Get props "encryption" in
          if String.eqb val "" then Panic "zfs get should return a value for `encryption`"
          else if String.eqb val "-"
          then Err (Errorf "`encryption` property should never be %q" [FStr "-"])
          else if String.eqb val "off" then Ok false
          else Ok true
    end in
  (match body with
   | Err e => Err (Errorf "zfs get encryption enabled fs=%q: %s" [FStr fs; FErr e])
   | r => r
   end, st).

(** *** Setting properties *)

(** A command that is started and waited for, with a buffer for its
    standard error. *)
Inductive startWait : Type :=
| StartErr (e : error)
| Waited (stderr : string) (waitErr : option cmdErr).

(** [ZFSProperties.appendArgs] on the entries of the map in the order
    [range] in which the loop visits them. *)
Fixpoint appendArgs (range : list (string * string)) (args : list string)
  : result (list string) :=
  match range with
  | [] => Ok args
  | (prop, val) :: rest =>
      if ContainsByte prop "="
      then Err (New "prop contains rune '=' which is the delimiter between property name and value")
      else appendArgs rest (args ++ [prop +:+ "=" +:+ val])
  end.

(** [zfsSet]. The order in which Go ranges over a map is not specified:
    [rangeOrder] gives the order of this run, a permutation of the entries
    of the map. *)
Definition zfsSet (run : list string -> startWait)
  (rangeOrder : gmap string string -> list (string * string))
  (path : string) (props : ZFSProperties) : result unit :=
  args ← appendArgs (rangeOrder (m props)) ["set"];
  let args := args ++ [path] in
  match run args with
  | StartErr e => Err e
  | Waited stderr (Some _) => Err (ZFSError stderr)
  | Waited _ None => Ok tt
  end.

Definition ZFSSet (run : list string -> startWait)
  (rangeOrder : gmap string string -> list (string * string))
  (fs : Zfs.DatasetPath) (props : ZFSProperties) : result unit :=
  zfsSet run rangeOrder (Zfs.ToString fs) props.

(** *** Listing *)

(** [zfs list] through a pipe: the pipe or the start may fail; otherwise
    the process prints [stdout] and [stderr], and [Wait] returns. *)
Inductive listRun : Type :=
| ListPipeErr (e : error)
| ListStartErr (e : error)
| ListRan (stdout stderr : string) (waitErr : option cmdErr).

(** The loop of [ZFSList] over the lines that the scanner delivers. *)
Fixpoint listLines (properties : list string) (lines : list string)
  (res : list (list string)) : list (list string) * option error :=
  match lines with
  | [] => (res, None)
  | line :: rest =>
      let fields := Strings.SplitN line tab (Z.of_nat (length properties)) in
      if negb (Nat.eqb (length fields) (length properties))
      then (res, Some (New "unexpected output"))
      else listLines properties rest (res ++ [fields])
  end.

(** [ZFSList]: [res] and [err], as the function returns them. [scan] is
    the [bufio.Scanner] of the function (lines of at most 1024 bytes): the
    lines it delivers from the output before it stops. The function does
    not look at the error of the scanner. *)
Definition ZFSList (run : list string -> listRun) (scan : string -> list string)
  (properties zfsArgs : list string) : list (list string) * option error :=
  let args := ["list"; "-H"; "-p"; "-o"; Join properties ","] ++ zfsArgs in
  match run args with
  | ListPipeErr e => ([], Some e)
  | ListStartErr e => ([], Some e)
  | ListRan stdout stderr waitErr =>
      match listLines properties (scan stdout) [] with
      | (res, Some e) => (res, Some e)
      | (res, None) =>
          match waitErr with
          | Some _ => ([], Some (ZFSError stderr))
          | None => (res, None)
          end
      end
  end.

(** *** Destroying *)

Record DestroySnapshotsError : Type := {
  RawLines : list string;
  Filesystem : string;
  Undestroyable : list string; (* snapshot name only (filesystem@ stripped) *)
  Reason : list string
}.

(** [DestroySnapshotsError.Error]. *)
Definition DestroySnapshotsError_Error (e : DestroySnapshotsError) : result string :=
  if negb (Nat.eqb (length (Undestroyable e)) (length (Reason e)))
  then Panic "%v != %v"
  else if Nat.eqb (length (Undestroyable e)) 0
  then Panic "error must have one undestroyable snapshot, %q"
  else if Nat.eqb (length (Undestroyable e)) 1
  then Ok ("zfs destroy failed: " +:+ Filesystem e +:+ "@" +:+ nth 0 (Undestroyable e) ""
           +:+ ": " +:+ nth 0 (Reason e) "")
  else Ok (Join (RawLines e) (String newline "")).

(** [s] without the prefix [p], if it has it. *)
Definition stripPrefix (p s : string) : option string :=
  if String.prefix p s
  then Some (String.substring (String.length p) (String.length s - String.length p) s)
  else None.

(** The end of [destroySnapshotsErrorRegexp] on a text without newline: a
    group of one or more characters, a colon and a space, and a group that
    reaches to the end of the text. The first of the two is as long as
    possible. *)
Fixpoint splitLastColonSpace (s : string) : option (string * string) :=
  match s with
  | EmptyString => None
  | String c rest =>
      match splitLastColonSpace rest with
      | Some (g2, g3) => Some (String c g2, g3)
      | None =>
          match stripPrefix ": " rest with
          | Some g3 => Some (String c EmptyString, g3)
          | None => None
          end
      end
  end.

(** [destroySnapshotsErrorRegexp.FindStringSubmatch(line)]: the three
    groups of the expression, which is [cannot destroy snapshot ] at the
    start of the text, a group of one or more characters other than [@],
    an [@], and the end described above. The first group ends at the first
    [@]; a dot does not match a newline. *)
Definition destroySnapshotsErrorRegexp (line : string) : option (string * string * string) :=
  match stripPrefix "cannot destroy snapshot " line with
  | None => None
  | Some rest =>
      match SplitN2 rest "@" with
      | [g1; after] =>
          if String.eqb g1 "" then None
          else if ContainsByte after newline then None
          else match splitLastColonSpace after with
               | Some (g2, g3) => Some (g1, g2, g3)
               | None => None
               end
      | _ => None
      end
  end.

(** The loop of [tryParseDestroySnapshotsError] over the lines. *)
Fixpoint parseDestroyLines (filesystem : string) (lines : list string)
  (undestroyable reason rawLines : list string) : option DestroySnapshotsError :=
  match lines with
  | [] =>
      if Nat.eqb (length undestroyable) 0 then None
      else Some {| RawLines := rawLines; Filesystem := filesystem;
                   Undestroyable := undestroyable; Reason := reason |}
  | line :: rest =>
      let rawLines := rawLines ++ [line] in
      match destroySnapshotsErrorRegexp line with
      | None => None (* unexpected line => be conservative *)
      | Some (m1, m2, m3) =>
          if negb (String.eqb m1 filesystem) then None
          else parseDestroyLines filesystem rest (undestroyable ++ [m2]) (reason ++ [m3])
                                 rawLines
      end
  end.

(** [tryParseDestroySnapshotsError]; [scan] is its [bufio.Scanner]: the
    lines it delivers from [stderr]. *)
Definition tryParseDestroySnapshotsError (scan : string -> list string)
  (arg stderr : string) : option DestroySnapshotsError :=
  let argComps := SplitN2 arg "@" in
  if negb (Nat.eqb (length argComps) 2) then None
  else parseDestroyLines (nth 0 argComps "") (scan stderr) [] [] [].

(** The labels [dstype] and [filesystem] that [ZFSDestroy] computes for its
    duration metric. *)
Definition destroyLabels (arg : string) : string * string :=
  let idx := IndexAny arg "@#" in
  if (idx =? -1)%Z then ("filesystem", arg)
  else
    (match String.get (Z.to_nat idx) arg with
     | Some c => if Ascii.eqb c "@" then "snapshot"
                 else if Ascii.eqb c "#" then "bookmark" else ""
     | None => ""
     end,
     String.substring 0 (Z.to_nat idx) arg).

(** The error of [ZFSDestroy]: a [*DestroySnapshotsError] or another one. *)
Inductive destroyError : Type :=
| DestroySnaps (e : DestroySnapshotsError)
| DestroyErr (e : error).

Definition ZFSDestroy (run : list string -> startWait) (scan : string -> list string)
  (arg : string) : option destroyError :=
  match run ["destroy"; arg] with
  | StartErr e => Some (DestroyErr e)
  | Waited stderr (Some _) =>
      match tryParseDestroySnapshotsError scan arg stderr with
      | Some dserr => Some (DestroySnaps dserr)
      | None => Some (DestroyErr (ZFSError stderr))
      end
  | Waited _ None => None
  end.

(** *** The stream of a running [zfs send] ([sendStream]) *)

(** What [cmd.Wait] returns: nil, an [*exec.ExitError], or another error. *)
Inductive waitResult : Type :=
| WaitNil
| WaitExitError
| WaitOther (e : error).

(** A call of [s.kill]: at once, or by the timer of 200 milliseconds. *)
Inductive killCall : Type := KillNow | KillAfter200ms.

(** The stream and the process behind it. [stdoutReader] is [None] for
    nil. [waits n] and [closes n] are what the [n]-th call of [cmd.Wait]
    and of [stdoutReader.Close] return; [nWait] and [nClose] count the calls
    made, [closed] those of [Close] that returned nil, and [kills] lists the
    calls of [kill], the latest first. *)
Record sendStream : Type := {
  opErr : option error;
  stdoutReader : option Zfs.ReadCloser;
  stderrBuf : string;
  waits : nat -> waitResult;
  closes : nat -> option error;
  nWait : nat;
  nClose : nat;
  closed : nat;
  kills : list killCall
}.

(** [os.ErrInvalid], which reading a nil [*os.File] returns. *)
Definition ErrInvalid : error := New "invalid argument".

Definition isEOF (e : option error) : bool :=
  match e with
  | Some EOF => true
  | _ => false
  end.

(** [sendStream.killAndWait]. *)
Definition killAndWait (s : sendStream) (precedingReadErr : option error)
  : option error * sendStream :=
  (* give the zfs process a little bit of time to terminate itself *)
  let kill := if isEOF precedingReadErr then KillAfter200ms else KillNow in
  let s := {| opErr := opErr s; stdoutReader := stdoutReader s; stderrBuf := stderrBuf s;
              waits := waits s; closes := closes s; nWait := nWait s; nClose := nClose s;
              closed := closed s; kills := kill :: kills s |} in
  match opErr s with
  | Some e => (Some e, s)
  | None =>
      let waitErr := waits s (nWait s) in
      let s := {| opErr := opErr s; stdoutReader := stdoutReader s; stderrBuf := stderrBuf s;
                  waits := waits s; closes := closes s; nWait := S (nWait s);
                  nClose := nClose s; closed := closed s; kills := kills s |} in
      match waitErr with
      | WaitOther e => (Some e, s)
      | _ =>
          let exitErr := match waitErr with WaitExitError => true | _ => false end in
          (* now, after we know the program exited do we close the pipe *)
          let closing : option error * sendStream :=
            match stdoutReader s with
            | Some _ =>
                let closePipeErr := closes s (nClose s) in
                (closePipeErr,
                 {| opErr := opErr s;
                    stdoutReader := match closePipeErr with
                                    | None => None (* avoid double-closes *)
                                    | Some _ => stdoutReader s
                                    end;
                    stderrBuf := stderrBuf s; waits := waits s; closes := closes s;
                    nWait := nWait s; nClose := S (nClose s);
                    closed := match closePipeErr with
                              | None => S (closed s)
                              | Some _ => closed s
                              end;
                    kills := kills s |})
            | None => (None, s)
            end in
          match closing with
          | (Some closePipeErr, s) => (Some closePipeErr, s)
          | (None, s) =>
              let e := if exitErr then ZFSError (stderrBuf s)
                       else Errorf "zfs send exited with status code 0" [] in
              let s := {| opErr := Some e; stdoutReader := stdoutReader s;
                          stderrBuf := stderrBuf s; waits := waits s; closes := closes s;
                          nWait := nWait s; nClose := nClose s; closed := closed s;
                          kills := kills s |} in
              (* the edge where we're called from s.Read after the pipe EOFed
                 and zfs send exited without errors *)
              if negb exitErr && isEOF precedingReadErr then (precedingReadErr, s)
              else (opErr s, s)
          end
      end
  end.

(** [sendStream.Read]. *)
Definition sendStream_Read (s : sendStream) : (string * option error) * sendStream :=
  match opErr s with
  | Some e => (("", Some e), s)
  | None =>
      let '((p, err), reader) :=
        match stdoutReader s with
        | Some r => let '(res, r) := Zfs.readerRead r in (res, Some r)
        | None => (("", Some ErrInvalid), None)
        end in
      let s := {| opErr := opErr s; stdoutReader := reader; stderrBuf := stderrBuf s;
                  waits := waits s; closes := closes s; nWait := nWait s; nClose := nClose s;
                  closed := closed s; kills := kills s |} in
      match err with
      | Some _ =>
          let '(kwerr, s) := killAndWait s err in
          ((p, kwerr), s)
      | None => ((p, None), s)
      end
  end.

(** [sendStream.Close]. *)
Definition sendStream_Close (s : sendStream) : option error * sendStream :=
  killAndWait s None.

(** The stream that [ZFSSend] returns: nothing has failed, the pipe is
    open, nothing was waited for. *)
Definition newSendStream (stdout : Zfs.ReadCloser) (stderr : string)
  (waits : nat -> waitResult) (closes : nat -> option error) : sendStream :=
  {| opErr := None; stdoutReader := Some stdout; stderrBuf := stderr;
     waits := waits; closes := closes; nWait := 0; nClose := 0; closed := 0; kills := [] |}.

(** A call of a method of the stream. *)
Inductive streamOp : Type := OpRead | OpClose.

Definition streamStep (s : sendStream) (op : streamOp) : sendStream :=
  match op with
  | OpRead => snd (sendStream_Read s)
  | OpClose => snd (sendStream_Close s)
  end.

End ZfsCmd.

(** ** Vocabulary of the statements about the command functions: what the
       [zfs] binary prints *)
Module SpecCmd.

(** A field of a line: not empty, and without tab and newline. *)
Definition plainField (s : string) : Prop :=
  s <> "" /\ GoStrings.ContainsByte s ZfsCmd.tab = false
  /\ GoStrings.ContainsByte s ZfsCmd.newline = false.

(** A line of [zfs get -Hp -o property,value,source]: the three fields,
    separated by tabs, and a newline. *)
Definition getLine (e : string * string * string) : string :=
  let '(name, value, source) := e in
  name +:+ String ZfsCmd.tab (value +:+ String ZfsCmd.tab (source +:+ String ZfsCmd.newline "")).

Fixpoint getOutput (entries : list (string * string * string)) : string :=
  match entries with
  | [] => ""
  | e :: rest => getLine e +:+ getOutput rest
  end.

(** The decimal digits of [n], the last one before [acc]; [fuel] bounds the
    number of digits. *)
Fixpoint digitsOf (fuel : nat) (n : N) (acc : string) : string :=
  match fuel with
  | O => acc
  | S fuel =>
      let acc := String (ascii_of_N (48 + n mod 10)) acc in
      if (n / 10 =? 0)%N then acc else digitsOf fuel (n / 10) acc
  end.

(** A number of 64 bits in decimal, as the binary prints it with [-p]: it
    has at most 20 digits. *)
Definition decimal (n : N) : string := digitsOf 20 n "".

(** The value of a string of decimal digits after the digits of [n]. *)
Fixpoint decimalValue (s : string) (n : N) : N :=
  match s with
  | EmptyString => n
  | String c rest => decimalValue rest (n * 10 + (N_of_ascii c - 48))
  end.

(** [s] consists of decimal digits. *)
Definition allDigits (s : string) : Prop :=
  Forall (fun c => (48 <= N_of_ascii c <= 57)%N) (list_ascii_of_string s).

(** [s] contains a colon that is followed by a space. *)
Fixpoint hasColonSpace (s : string) : bool :=
  match s with
  | EmptyString => false
  | String c rest =>
      (Ascii.eqb c ":" && String.prefix " " rest) || hasColonSpace rest
  end.

(** The line of [zfs destroy] about a snapshot that it could not destroy. *)
Definition cannotDestroyLine (fs : string) (nr : string * string) : string :=
  "cannot destroy snapshot " +:+ fs +:+ String "@" (nr.1 +:+ ": " +:+ nr.2).

End SpecCmd.

(** ** Package timeoutconn: reading into several buffers with [readv]
       (timoutconn_readv.go) *)
Module Timeoutconn.

(** [syscall.Iovec]: the address of the first byte and the number of
    bytes. Addresses are numbers; a buffer does not wrap around the end of
    the address space. *)
Record Iovec : Type := { Base : Z; Len : Z }.

(** What the system call returns: a count (a [uintptr] other than
    [^uintptr(0)]), or [^uintptr(0)] and an error number, which is [EAGAIN]
    or another one. *)
Inductive readvResult : Type :=
| Count (thisReadN : N)
| Eagain
| Errno (e : error).

(** The loop of [doOneReadv] that shifts the iovecs forward by [left]
    bytes. Indexing an empty slice panics. *)
Fixpoint shiftIovecs (iovecs : list Iovec) (left : Z) : result (list Iovec) :=
  match iovecs with
  | [] => if (0 <? left)%Z then Panic "index out of range" else Ok []
  | v :: rest =>
      if (0 <? left)%Z then
        let thisIovecConsumedCompletely := (Len v <=? left)%Z in
        if thisIovecConsumedCompletely then shiftIovecs rest (left - Len v)
        else (* trim this iovec to remaining length *)
          Ok ({| Base := Base v + left; Len := Len v - left |} :: rest)
      else Ok (v :: rest)
  end.

(** The function that [doOneReadv] passes to [rawConn.Read], called until
    it returns true: [syscalls] is what the successive system calls return.
    Gives the [n], [err] and iovecs that the calls leave behind. Each call
    takes the address of the first iovec for the system call, which panics
    when there is no iovec. [int] has 64 bits. *)
Fixpoint readCallback (syscalls : list readvResult) (iovecs : list Iovec)
  : result (Z * option error * list Iovec) :=
  match syscalls with
  | [] => Ok (0%Z, None, iovecs)
  | r :: rest =>
      match iovecs with
      | [] => Panic "index out of range"
      | _ :: _ =>
          match r with
          | Eagain => readCallback rest iovecs
          | Errno e => Ok (0%Z, Some e, iovecs)
          | Count thisReadN =>
              if (2 ^ 63 <=? thisReadN)%N then Panic "unexpected return value"
              else
                iovecs ← shiftIovecs iovecs (Z.of_N thisReadN);
                if (thisReadN =? 0)%N then Ok (Z.of_N thisReadN, Some EOF, iovecs)
                else Ok (Z.of_N thisReadN, None, iovecs)
          end
      end
  end.

(** [doOneReadv]: [rawReadErr] is what [rawConn.Read] returns. Returns
    [n], [err] and the iovecs. *)
Definition doOneReadv (syscalls : list readvResult) (rawReadErr : option error)
  (iovecs : list Iovec) : result (Z * option error * list Iovec) :=
  '(n, err, iovecs) ← readCallback syscalls iovecs;
  let err := match rawReadErr with Some e => Some e | None => err end in
  Ok (n, err, iovecs).

(** What [readv] finds when it asks the wire for its raw connection. *)
Inductive syscallConn : Type :=
| NotASyscallConner
| SyscallConnNotSupported
| SyscallConnErr (e : error)
| RawConn.

(** The loop of [readv]. The [i]-th round renews the deadline, which gives
    [renew i], and reads once, with the system calls [reads i]; [isTimeout]
    tells whether an error is a [net.Error] whose [Timeout()] is true.
    [fuel] bounds the number of rounds. *)
Fixpoint readvLoop (fuel : nat) (renew : nat -> option error)
  (reads : nat -> list readvResult * option error) (isTimeout : error -> bool)
  (i : nat) (iovecs : list Iovec) (n : Z) : option (result (Z * option error)) :=
  match iovecs with
  | [] => Some (Ok (n, None))
  | _ =>
      match fuel with
      | O => None
      | S fuel =>
          match renew i with
          | Some err => Some (Ok (n, Some err))
          | None =>
              match doOneReadv (fst (reads i)) (snd (reads i)) iovecs with
              | Ok (oneN, oneErr, iovecs) =>
                  let n := (n + oneN)%Z in
                  let again := readvLoop fuel renew reads isTimeout (S i) iovecs n in
                  match oneErr with
                  | Some e =>
                      if isTimeout e && (0 <? oneN)%Z then again
                      else Some (Ok (n, oneErr))
                  | None =>
                      if (0 <? oneN)%Z then again else Some (Ok (n, oneErr))
                  end
              | Err e => Some (Err e)
              | Panic msg => Some (Panic msg)
              end
          end
      end
  end.

(** [Conn.readv]. The fallback and the construction of the iovecs from
    the buffers are not in this file: [readvFallback] is what the fallback
    returns, and [iovecs] what [buildIovecs] built. *)
Definition readv (conn : syscallConn) (readvFallback : Z * option error)
  (fuel : nat) (renew : nat -> option error)
  (reads : nat -> list readvResult * option error) (isTimeout : error -> bool)
  (iovecs : list Iovec) : option (result (Z * option error)) :=
  match conn with
  | NotASyscallConner => Some (Ok readvFallback)
  | SyscallConnNotSupported => Some (Ok readvFallback)
  | SyscallConnErr e => Some (Ok (0%Z, Some e))
  | RawConn => readvLoop fuel renew reads isTimeout 0 iovecs 0
  end.

(** The addresses that the iovecs cover, in their order. *)
Definition addresses (v : Iovec) : list Z :=
  map (fun i => (Base v + Z.of_nat i)%Z) (seq 0 (Z.to_nat (Len v))).

Definition covered (iovecs : list Iovec) : list Z :=
  concat (map addresses iovecs).

Definition totalLen (iovecs : list Iovec) : Z :=
  fold_right Z.add 0%Z (map Len iovecs).

End Timeoutconn.
(** ** Package endpoint: destroying snapshots ([DestroySnapshots] of the
       sender and of the receiver, [doDestroySnapshots]) *)
Module EndpointDestroy.

(** [pdu.FilesystemVersion]. *)
Module FilesystemVersion.
Inductive VersionType : Type :=
| Snapshot
| Bookmark.
Record t : Type := {
  Type_ : VersionType;
  Name : string;
  Guid : N;
  CreateTXG : N;
  Creation : string
}.
End FilesystemVersion.

(** [pdu.DestroySnapshotsReq]. *)
Module DestroySnapshotsReq.
Record t : Type := {
  Filesystem : string;
  Snapshots : list FilesystemVersion.t
}.
End DestroySnapshotsReq.

(** [pdu.DestroySnapshotRes]. *)
Module DestroySnapshotRes.
Record t : Type := {
  Snapshot : FilesystemVersion.t;
  Error : string
}.
End DestroySnapshotRes.

(** [zfs.DestroySnapOp]. The field [ErrOut] of the [i]-th operation
    points to [errs[i]]. *)
Module DestroySnapOp.
Record t : Type := {
  Filesystem : string;
  Name : string
}.
End DestroySnapOp.

(** The first loop of [doDestroySnapshots]: the operations and the
    results, or the error for the first version that is not a snapshot. *)
Fixpoint buildReqs (lp : Zfs.DatasetPath) (snaps : list FilesystemVersion.t)
  : result (list DestroySnapOp.t * list DestroySnapshotRes.t) :=
  match snaps with
  | [] => Ok ([], [])
  | fsv :: snaps =>
      match FilesystemVersion.Type_ fsv with
      | FilesystemVersion.Snapshot =>
          '(reqs, ress) ← buildReqs lp snaps;
          Ok ({| DestroySnapOp.Filesystem := Zfs.ToString lp;
                 DestroySnapOp.Name := FilesystemVersion.Name fsv |} :: reqs,
              {| DestroySnapshotRes.Snapshot := fsv;
                 (* Error set after batch operation *)
                 DestroySnapshotRes.Error := "" |} :: ress)
      | _ => Err (Errorf "version %q is not a snapshot" [FStr (FilesystemVersion.Name fsv)])
      end
  end.

(** The second loop: the error text of the [i]-th result. [errorText] is
    the [Error] method of the errors other than [*DestroySnapshotsError]. *)
Definition resultError (errorText : error -> string) (e : option ZfsCmd.destroyError)
  (unset : string) : result string :=
  match e with
  | None => Ok unset
  | Some (ZfsCmd.DestroySnaps de) =>
      if Nat.eqb (length (ZfsCmd.Reason de)) 1 then Ok (nth 0 (ZfsCmd.Reason de) "")
      else ZfsCmd.DestroySnapshotsError_Error de
  | Some (ZfsCmd.DestroyErr e) => Ok (errorText e)
  end.

Fixpoint setErrors (errorText : error -> string) (errs : list (option ZfsCmd.destroyError))
  (i : nat) (ress : list DestroySnapshotRes.t) : result (list DestroySnapshotRes.t) :=
  match ress with
  | [] => Ok []
  | res :: ress =>
      text ← resultError errorText (nth i errs None) (DestroySnapshotRes.Error res);
      ress ← setErrors errorText errs (S i) ress;
      Ok ({| DestroySnapshotRes.Snapshot := DestroySnapshotRes.Snapshot res;
             DestroySnapshotRes.Error := text |} :: ress)
  end.

(** [doDestroySnapshots]. [zfs.ZFSDestroyFilesystemVersions] is not among
    the sources: [destroyVersions] gives, for the operations passed, what
    it leaves in [errs] (nil where it writes nothing). The second component
    is the list of the batches that were passed to it. *)
Definition doDestroySnapshots
  (destroyVersions : list DestroySnapOp.t -> list (option ZfsCmd.destroyError))
  (errorText : error -> string)
  (lp : Zfs.DatasetPath) (snaps : list FilesystemVersion.t)
  : result (list DestroySnapshotRes.t) * list (list DestroySnapOp.t) :=
  match buildReqs lp snaps with
  | Ok (reqs, ress) =>
      let errs := destroyVersions reqs in
      (setErrors errorText errs 0 ress, [reqs])
  | Err e => (Err e, [])
  | Panic msg => (Panic msg, [])
  end.

(** [Sender.DestroySnapshots]. *)
Definition Sender_DestroySnapshots
  (destroyVersions : list DestroySnapOp.t -> list (option ZfsCmd.destroyError))
  (errorText : error -> string)
  (p : Endpoint.Sender) (req : DestroySnapshotsReq.t)
  : result (list DestroySnapshotRes.t) * list (list DestroySnapOp.t) :=
  match Endpoint.filterCheckFS p (DestroySnapshotsReq.Filesystem req) with
  | Ok dp => doDestroySnapshots destroyVersions errorText dp (DestroySnapshotsReq.Snapshots req)
  | Err e => (Err e, [])
  | Panic msg => (Panic msg, [])
  end.

(** [Receiver.DestroySnapshots]. *)
Definition Receiver_DestroySnapshots
  (destroyVersions : list DestroySnapOp.t -> list (option ZfsCmd.destroyError))
  (errorText : error -> string)
  (s : Endpoint.Receiver) (ctx : option string) (req : DestroySnapshotsReq.t)
  : result (list DestroySnapshotRes.t) * list (list DestroySnapOp.t) :=
  match Endpoint.clientRootFromCtx s ctx with
  | Ok root =>
      match Endpoint.MapToLocal {| Endpoint.localRoot := root |}
              (DestroySnapshotsReq.Filesystem req) with
      | Ok lp =>
          doDestroySnapshots destroyVersions errorText lp (DestroySnapshotsReq.Snapshots req)
      | Err e => (Err e, [])
      | Panic msg => (Panic msg, [])
      end
  | Err e => (Err e, [])
  | Panic msg => (Panic msg, [])
  end.

End EndpointDestroy.




(* ===================================================================== *)
(** * Part II: theorems *)
(* ===================================================================== *)

Import GoStrings Zfs Spec.

(** ** Strings *)

Lemma Split_nonempty s sep : Split s sep <> [].
Proof.
  destruct s as [|c s]; simpl; [discriminate|].
  destruct (Ascii.eqb c sep); [discriminate|].
  destruct (Split s sep); discriminate.
Qed.

Lemma Join_cons_cons x y l sep :
  Join (x :: y :: l) sep = x +:+ sep +:+ Join (y :: l) sep.
Proof. reflexivity. Qed.

Lemma Join_String_head c hd tl sep :
  Join (String c hd :: tl) sep = String c (Join (hd :: tl) sep).
Proof. destruct tl; reflexivity. Qed.

(** Joining what was split gives the string back. *)
Lemma Join_Split s (sep : ascii) :
  Join (Split s sep) (String sep EmptyString) = s.
Proof.
  induction s as [|c s IH]; [reflexivity|].
  simpl Split. pose proof (Split_nonempty s sep) as Hn.
  destruct (Split s sep) as [|hd tl] eqn:E; [congruence|].
  destruct (Ascii.eqb_spec c sep) as [->|Hne].
  - rewrite Join_cons_cons, IH. reflexivity.
  - rewrite Join_String_head, IH. reflexivity.
Qed.

Lemma byteIn_spec c chars :
  byteIn c chars = true <-> In c (list_ascii_of_string chars).
Proof.
  unfold byteIn. rewrite existsb_exists. split.
  - intros (x & Hx & Heq). apply Ascii.eqb_eq in Heq. now subst.
  - intros H. exists c. split; [exact H | apply Ascii.eqb_refl].
Qed.

Lemma ContainsAny_FORBIDDEN s :
  ContainsAny s FORBIDDEN = true <-> hasForbidden s.
Proof.
  unfold ContainsAny, hasForbidden. rewrite existsb_exists, Exists_exists.
  split; intros (c & Hc & Hin); exists c; (split; [by apply list_elem_of_In|]).
  - apply byteIn_spec in Hin. apply list_elem_of_In. exact Hin.
  - apply byteIn_spec. apply list_elem_of_In in Hin. exact Hin.
Qed.

(** The component that [NewDatasetPath] inspects is the last one. *)
Lemma nth_pred_length_last (cs : list string) :
  nth (length cs - 1) cs "" = List.last cs "".
Proof.
  induction cs as [|x [|y cs] IH]; try reflexivity.
  replace (length (x :: y :: cs) - 1) with (S (length (y :: cs) - 1))
    by (simpl; lia).
  change (List.last (x :: y :: cs) "") with (List.last (y :: cs) "").
  rewrite <- IH. reflexivity.
Qed.

Lemma endsWithSlash_cons c s :
  s <> "" -> (endsWithSlash (String c s) <-> endsWithSlash s).
Proof.
  unfold endsWithSlash. destruct s as [|d s]; [congruence|]. intros _.
  reflexivity.
Qed.

Lemma Split_singleton_empty s sep : Split s sep = [""] -> s = "".
Proof.
  intros H. rewrite <- (Join_Split s sep), H. reflexivity.
Qed.

(** The last component is empty exactly for the empty string and for a
    string that ends with the separator. *)
Lemma last_Split_empty s :
  List.last (Split s "/") "" = "" <-> s = "" \/ endsWithSlash s.
Proof.
  induction s as [|c s IH].
  - simpl. tauto.
  - simpl Split. pose proof (Split_nonempty s "/") as Hn.
    destruct (Split s "/") as [|hd tl] eqn:E; [congruence|].
    destruct (Ascii.eqb_spec c "/") as [->|Hne].
    + change (List.last ("" :: hd :: tl) "") with (List.last (hd :: tl) "").
      rewrite IH. destruct s as [|d s].
      * unfold endsWithSlash. simpl. intuition congruence.
      * rewrite (endsWithSlash_cons "/" (String d s)) by discriminate.
        intuition congruence.
    + destruct tl as [|y tl].
      * simpl. split; [intros H; discriminate H|]. intros [H|H]; [discriminate H|].
        exfalso. destruct s as [|d s].
        -- unfold endsWithSlash in H. simpl in H. congruence.
        -- apply endsWithSlash_cons in H; [|discriminate].
           assert (hd = "") as -> by (apply IH; now right).
           apply Split_singleton_empty in E. discriminate.
      * change (List.last (String c hd :: y :: tl) "")
          with (List.last (hd :: y :: tl) "").
        rewrite IH. destruct s as [|d s]; [discriminate E|].
        rewrite (endsWithSlash_cons c (String d s)) by discriminate.
        intuition congruence.
Qed.

(** ** Dataset paths: parsing and printing (C8, C9) *)

Lemma NewDatasetPath_forbidden s :
  hasForbidden s ->
  NewDatasetPath s =
    Err (Errorf "contains forbidden characters (any of '%s')" [FStr FORBIDDEN]).
Proof.
  intros H. unfold NewDatasetPath.
  destruct (String.eqb_spec s "") as [->|_].
  - unfold hasForbidden in H. simpl in H. inversion H.
  - apply ContainsAny_FORBIDDEN in H. rewrite H. reflexivity.
Qed.

Lemma NewDatasetPath_trailing_slash s :
  ~ hasForbidden s -> endsWithSlash s ->
  NewDatasetPath s = Err (Errorf "must not end with a '/'" []).
Proof.
  intros Hf Hs. unfold NewDatasetPath.
  destruct (String.eqb_spec s "") as [->|_]; [discriminate Hs|].
  destruct (ContainsAny s FORBIDDEN) eqn:E.
  - apply ContainsAny_FORBIDDEN in E. contradiction.
  - cbv zeta. rewrite nth_pred_length_last.
    assert (List.last (Split s "/") "" = "") as -> by (apply last_Split_empty; auto).
    reflexivity.
Qed.

Lemma NewDatasetPath_ok s :
  ~ hasForbidden s -> ~ endsWithSlash s ->
  NewDatasetPath s = Ok {| comps := if String.eqb s "" then [] else Split s "/" |}.
Proof.
  intros Hf Hs. unfold NewDatasetPath.
  destruct (String.eqb_spec s "") as [->|Hne]; [reflexivity|].
  destruct (ContainsAny s FORBIDDEN) eqn:E.
  - apply ContainsAny_FORBIDDEN in E. contradiction.
  - cbv zeta. rewrite nth_pred_length_last.
    destruct (String.eqb_spec (List.last (Split s "/") "") "") as [H|_]; [|reflexivity].
    apply last_Split_empty in H. tauto.
Qed.

Lemma NewDatasetPath_Ok_ToString s p : NewDatasetPath s = Ok p -> ToString p = s.
Proof.
  unfold NewDatasetPath. destruct (String.eqb_spec s "") as [->|Hs].
  - intros [= <-]. reflexivity.
  - destruct (ContainsAny s FORBIDDEN); [discriminate|].
    destruct (String.eqb _ _); [discriminate|].
    intros [= <-]. unfold ToString. cbn [comps]. apply (Join_Split s "/").
Qed.

(** C8. Every string without a forbidden character that does not end with
    [/] parses as a DatasetPath, and printing the parsed path gives the
    string back. *)
Theorem C8_DatasetPath_roundtrip (s : string) :
  ~ hasForbidden s -> ~ endsWithSlash s ->
  exists p, NewDatasetPath s = Ok p /\ ToString p = s.
Proof.
  intros Hf Hs. rewrite (NewDatasetPath_ok s Hf Hs). eexists; split; [reflexivity|].
  unfold ToString. simpl. destruct (String.eqb_spec s "") as [->|_]; [reflexivity|].
  apply (Join_Split s "/").
Qed.


Lemma C8_DatasetPath_roundtrip_witness :
  exists p, NewDatasetPath "zroot/var/log data" = Ok p
            /\ ToString p = "zroot/var/log data".
Proof.
  apply (C8_DatasetPath_roundtrip "zroot/var/log data");
    apply (bool_decide_unpack _); vm_compute; exact I.
Defined.

(** C9, as the claim states it, fails: an empty component that is not the
    last one is accepted. ["a//b"] parses, and its second component is the
    empty string (so does ["/a"], whose first component is empty). *)
Lemma C9_empty_component_accepted :
  NewDatasetPath "a//b" = Ok {| comps := ["a"; ""; "b"] |}
  /\ NewDatasetPath "/a" = Ok {| comps := [""; "a"] |}
  /\ In "" (comps {| comps := ["a"; ""; "b"] |}).
Proof. repeat split. simpl. auto. Qed.

(** C9, amended. Parsing rejects every string that contains one of
    [@ # | TAB < > *] and every string that ends with [/]; it accepts all
    other strings, so a parsed path has no forbidden character and a
    non-empty last component (an empty component before the last one is not
    rejected). *)
Theorem C9_NewDatasetPath_rejects (s : string) :
  (hasForbidden s \/ endsWithSlash s -> exists e, NewDatasetPath s = Err e)
  /\ (forall p, NewDatasetPath s = Ok p ->
        ~ hasForbidden s /\ ~ endsWithSlash s
        /\ (comps p <> [] -> List.last (comps p) "" <> "")).
Proof.
  split.
  - intros H. destruct (decide (hasForbidden s)) as [Hf|Hf].
    + rewrite NewDatasetPath_forbidden by exact Hf. eauto.
    + destruct H as [H|H]; [contradiction|].
      rewrite NewDatasetPath_trailing_slash by assumption. eauto.
  - intros p Hp.
    destruct (decide (hasForbidden s)) as [Hf|Hf].
    { rewrite NewDatasetPath_forbidden in Hp by exact Hf. discriminate Hp. }
    destruct (decide (endsWithSlash s)) as [Hs|Hs].
    { rewrite NewDatasetPath_trailing_slash in Hp by assumption. discriminate Hp. }
    split; [exact Hf|]. split; [exact Hs|].
    rewrite NewDatasetPath_ok in Hp by assumption.
    injection Hp as <-. simpl.
    destruct (String.eqb_spec s "") as [->|Hne]; [congruence|].
    intros _ Hl. apply last_Split_empty in Hl. tauto.
Qed.

Lemma C9_NewDatasetPath_rejects_witness :
  (exists e, NewDatasetPath "tank/backups/" = Err e)
  /\ (exists e, NewDatasetPath "tank@backups" = Err e)
  /\ List.last (comps {| comps := ["tank"; "backups"] |}) "" <> "".
Proof.
  split; [|split].
  - apply (proj1 (C9_NewDatasetPath_rejects "tank/backups/")).
    right. vm_compute. reflexivity.
  - apply (proj1 (C9_NewDatasetPath_rejects "tank@backups")).
    left. apply (bool_decide_unpack _). vm_compute. exact I.
  - apply (proj2 (C9_NewDatasetPath_rejects "tank/backups") _ eq_refl).
    simpl. discriminate.
Defined.

(** ** The stream copier (C7) *)

Lemma lastReadErrFrom_app d evs evs' :
  lastReadErrFrom d (evs ++ evs') = lastReadErrFrom (lastReadErrFrom d evs) evs'.
Proof.
  revert d. induction evs as [|[p er|p nw ew] evs IH]; intros d; simpl; auto.
Qed.

Lemma sinkFailed_app evs evs' : sinkFailed evs' -> sinkFailed (evs ++ evs').
Proof.
  intros (evs0 & p & nw & ew & -> & H).
  exists (evs ++ evs0), p, nw, ew. split; [apply app_assoc | exact H].
Qed.


Lemma copyLoop_post fuel : forall dst src d,
  length (stream src) < fuel ->
  exists r, copyLoop fuel dst src = Some r /\ copyPost d r.
Proof.
  induction fuel as [|fuel IH]; intros dst src d Hlen; [lia|].
  cbn [copyLoop]. unfold recorderRead, readerRead.
  destruct src as [[|[p er] rest] re0]; cbn [stream] in *.
  - (* the script is over: Read returns (0, EOF) *)
    cbn. eexists; split; [reflexivity|]. cbn. repeat split; auto; congruence.
  - cbn [snd fst].
    assert (Hrest : length rest < fuel) by (cbn in Hlen; lia).
    (* what follows a read whose write, if any, went well *)
    assert (Hafter : forall dst0 evs0,
      lastReadErrFrom d evs0 = er ->
      exists r,
        match er with
        | Some e =>
            Some (match e with EOF => None | _ => Some e end,
                  {| stream := rest; readErr := er |}, dst0, evs0)
        | None =>
            match copyLoop fuel dst0 {| stream := rest; readErr := er |} with
            | Some (res, src', dst', evs') => Some (res, src', dst', evs0 ++ evs')
            | None => None
            end
        end = Some r /\ copyPost d r).
    { intros dst0 evs0 Hevs. destruct er as [e|].
      - eexists; split; [reflexivity|]. cbn. rewrite Hevs.
        repeat split; auto.
        + destruct e; congruence.
        + congruence.
        + intros e' [= <-] Hne. destruct e; congruence.
      - destruct (IH dst0 {| stream := rest; readErr := None |} None Hrest)
          as ([[[cerr src'] dst'] evs'] & -> & Hr & Hok & Hsink & Hsrc).
        eexists; split; [reflexivity|]. cbn.
        rewrite lastReadErrFrom_app, Hevs.
        repeat split; auto.
        intros H1 H2. apply sinkFailed_app. auto. }
    destruct (0 <? Z.of_nat (String.length p))%Z eqn:Hnr.
    + destruct (writerWrite dst p) as [[nw ew] dst1].
      destruct ((nw <? 0) || (Z.of_nat (String.length p) <? nw))%Z eqn:Hinv.
      * (* invalid count *)
        destruct ew as [e|]; eexists; (split; [reflexivity|]); cbn;
          repeat split; try congruence.
        -- intros _ _. exists [EvRead p er], p, nw, (Some e).
           split; [reflexivity|]. left. congruence.
        -- intros _ _. exists [EvRead p er], p, nw, None.
           split; [reflexivity|]. right. lia.
      * destruct ew as [e|].
        -- eexists; split; [reflexivity|]. cbn. repeat split; try congruence.
           intros _ _. exists [EvRead p er], p, nw, (Some e).
           split; [reflexivity|]. left. congruence.
        -- destruct (Z.of_nat (String.length p) =? nw)%Z eqn:Hsh; cbn [negb].
           ++ apply Hafter. reflexivity.
           ++ eexists; split; [reflexivity|]. cbn. repeat split; try congruence.
              intros _ _. exists [EvRead p er], p, nw, None.
              split; [reflexivity|]. right. lia.
    + apply Hafter. reflexivity.
Qed.

(** The copy always returns. *)
Lemma ioCopy_total dst src :
  exists r, ioCopy dst src = Some r /\ copyPost (readErr src) r.
Proof. apply copyLoop_post. lia. Qed.

(** C7. [WriteStreamTo] always returns. When the copy ends with an error,
    the copier-error it returns is a read-error exactly when the error
    recorded from the last [Read] of the source is non-nil, and a
    write-error otherwise, in which case the copy ended on a failed [Write]
    of the sink; when the copy ends without error, no copier-error is
    returned. *)
Theorem C7_WriteStreamTo_error_kind (c : sendStreamCopier) (w : Writer) :
  exists cerr c' w' evs res,
    ioCopy w (recorder c) = Some (cerr, recorder c', w', evs)
    /\ WriteStreamTo c w = Some (res, c', w')
    /\ readErr (recorder c') = lastReadErrFrom (readErr (recorder c)) evs
    /\ match cerr with
       | None => res = None
       | Some _ =>
           exists e, res = Some e
             /\ (IsReadError e = true <-> readErr (recorder c') <> None)
             /\ (IsWriteError e = true <-> readErr (recorder c') = None)
             /\ (IsWriteError e = true -> sinkFailed evs)
       end.
Proof.
  destruct (ioCopy_total w (recorder c))
    as ([[[cerr src'] w'] evs] & Hcopy & Hlast & Hok & Hsink & _).
  exists cerr, {| recorder := src' |}, w', evs.
  unfold WriteStreamTo. rewrite Hcopy. cbn [recorder].
  destruct cerr as [e|].
  - destruct (readErr src') as [re|] eqn:Hre.
    + eexists. repeat split; eauto. eexists. repeat split; cbn; try congruence.
    + eexists. repeat split; eauto. eexists. repeat split; cbn; try congruence.
      intros _. apply Hsink; congruence.
  - eexists. repeat split; eauto.
Qed.


Lemma C7_WriteStreamTo_error_kind_witness :
  exists cerr c' w' evs res,
    ioCopy brokenSink (recorder twoReads) = Some (cerr, recorder c', w', evs)
    /\ WriteStreamTo twoReads brokenSink = Some (res, c', w')
    /\ readErr (recorder c') = lastReadErrFrom (readErr (recorder twoReads)) evs
    /\ match cerr with
       | None => res = None
       | Some _ =>
           exists e, res = Some e
             /\ (IsReadError e = true <-> readErr (recorder c') <> None)
             /\ (IsWriteError e = true <-> readErr (recorder c') = None)
             /\ (IsWriteError e = true -> sinkFailed evs)
       end.
Proof. exact (C7_WriteStreamTo_error_kind twoReads brokenSink). Defined.

Example WriteStreamTo_broken_sink :
  WriteStreamTo twoReads brokenSink
  = Some (Some {| isReadErr := false; err := New "broken pipe" |},
          {| recorder := {| stream := []; readErr := None |} |}, []).
Proof. reflexivity. Qed.

(** A final [Read] may deliver bytes together with [io.EOF]; if the [Write]
    of those bytes fails, the recorded read error is [io.EOF] and the
    copier-error is a read-error carrying [io.EOF]. *)
Example WriteStreamTo_data_with_EOF :
  WriteStreamTo (newSendStreamCopier [("abc", Some EOF)])
                [(0%Z, Some (New "broken pipe"))]
  = Some (Some {| isReadErr := true; err := EOF |},
          {| recorder := {| stream := []; readErr := Some EOF |} |}, []).
Proof. reflexivity. Qed.

(** ** Results: bind and check *)

Lemma bind_Ok {A B} (m : result A) (f : A -> result B) b :
  m ≫= f = Ok b -> exists a, m = Ok a /\ f a = Ok b.
Proof. destruct m; cbn; intros H; try discriminate; eauto. Qed.

Lemma check_Ok b e : check b e = Ok tt -> b = true.
Proof. destruct b; cbn; congruence. Qed.

Lemma ask_Ok {A} (r : reply A) a : ask r = Ok a -> r = Reply a.
Proof. destruct r; cbn; congruence. Qed.

Lemma deref_Ok {A} (p : option A) a : deref p = Ok a -> p = Some a.
Proof. destruct p; cbn; congruence. Qed.

(** ** Send arguments against the resume token (C1) *)

Lemma validateCorrespondsToResumeToken_sound env a :
  ResumeToken a <> "" ->
  validateCorrespondsToResumeToken env a = Ok tt ->
  exists t tokenFS snap,
    ParseResumeToken env (ResumeToken a) = Reply t
    /\ ToNameSplit env t = Reply (tokenFS, snap)
    /\ tokenCorresponds a t tokenFS.
Proof.
  intros Htok H. unfold validateCorrespondsToResumeToken in H.
  destruct (String.eqb_spec (ResumeToken a) "") as [|_]; [contradiction|].
  apply bind_Ok in H as (t & Ht & H). apply ask_Ok in Ht.
  apply bind_Ok in H as ([tokenFS snap] & Hsplit & H). apply ask_Ok in Hsplit.
  apply bind_Ok in H as ([] & Hfs & H). apply check_Ok in Hfs.
  apply bind_Ok in H as ([] & Hfrom & H).
  apply bind_Ok in H as ([] & Hhasto & H). apply check_Ok in Hhasto.
  apply bind_Ok in H as (to & Hto & H). apply deref_Ok in Hto.
  apply bind_Ok in H as ([] & Htoguid & H). apply check_Ok in Htoguid.
  apply bind_Ok in H as (enc & Henc & H). apply deref_Ok in Henc.
  exists t, tokenFS, snap. split; [exact Ht|]. split; [exact Hsplit|].
  apply String.eqb_eq in Hfs. apply N.eqb_eq in Htoguid.
  assert (Hex : HasFromGUID t = true <-> From a <> None).
  { destruct (Bool.eqb (bool_decide (From a <> None)) (HasFromGUID t)) eqn:E.
    - apply Bool.eqb_prop in E. rewrite <- E. split.
      + apply bool_decide_eq_true_1.
      + apply bool_decide_eq_true_2.
    - cbn in Hfrom. destruct (HasFromGUID t); discriminate Hfrom. }
  repeat split; try tauto; eauto.
  - intros from Hf Hh.
    destruct (Bool.eqb (bool_decide (From a <> None)) (HasFromGUID t)); cbn in Hfrom.
    + rewrite Hh, Hf in Hfrom. cbn in Hfrom. apply check_Ok in Hfrom.
      now apply N.eqb_eq in Hfrom.
    + rewrite Hh in Hfrom. discriminate Hfrom.
  - exists enc. split; [exact Henc|].
    destruct (B enc); apply check_Ok in H.
    + now apply andb_true_iff in H.
    + apply negb_true_iff, orb_false_iff in H. exact H.
Qed.

(** [ZFSGetGUID] and the validation of one version do not panic on a
    non-empty filesystem name. *)
Lemma ZFSGetGUID_no_panic env fs version msg : ZFSGetGUID env fs version <> Panic msg.
Proof.
  unfold ZFSGetGUID, validateZFSFilesystem, check.
  destruct (negb (Nat.ltb (String.length fs) 1)); cbn; [|discriminate].
  destruct (negb (Nat.eqb (String.length version) 0)); cbn; [|discriminate].
  destruct (IndexAny (slice01 version) "@#" =? 0)%Z; cbn; [|discriminate].
  destruct (zfsGetGuid env (fs +:+ version)); cbn; discriminate.
Qed.

Lemma ZFSSendArgVersion_Validate_no_panic env v fs msg :
  fs <> "" -> ZFSSendArgVersion_Validate env v fs <> Panic msg.
Proof.
  intros Hfs. unfold ZFSSendArgVersion_Validate, check.
  destruct (negb (Nat.eqb (String.length (RelName v)) 0)); cbn; [|discriminate].
  destruct (IndexAny (slice01 (RelName v)) "@#" =? 0)%Z; cbn; [|discriminate].
  destruct (String.eqb_spec fs "") as [|_]; [contradiction|]. cbn.
  pose proof (ZFSGetGUID_no_panic env fs (RelName v)) as Hg.
  destruct (ZFSGetGUID env fs (RelName v)) as [g|e|m]; cbn.
  - destruct (N.eqb g (GUID v)); discriminate.
  - destruct e; cbn; try discriminate.
    destruct (GUID v); discriminate.
  - exfalso. eapply Hg. reflexivity.
Qed.


Lemma validateCorrespondsToResumeToken_no_panic env a to enc msg :
  To a = Some to -> Encrypted a = Some enc ->
  validateCorrespondsToResumeToken env a <> Panic msg.
Proof.
  intros Hto Henc. unfold validateCorrespondsToResumeToken.
  destruct (String.eqb (ResumeToken a) ""); [discriminate|].
  destruct (ParseResumeToken env (ResumeToken a)) as [t|e]; cbn; [|discriminate].
  destruct (ToNameSplit env t) as [[tokenFS snap]|e]; cbn; [|discriminate].
  destruct (String.eqb (FS a) (ToString tokenFS)); cbn; [|discriminate].
  rewrite Hto, Henc.
  assert (Hfrom : forall k : result unit,
    (forall m, k <> Panic m) ->
    (if negb (Bool.eqb (bool_decide (From a <> None)) (HasFromGUID t))
     then if HasFromGUID t
          then Err (Errorf "resume token not expected to be incremental, but `fromguid` = %q"
                           [FNum (FromGUID t)])
          else Err (Errorf "resume token expected to be incremental, but `fromguid` not present" [])
     else if HasFromGUID t
          then from ← deref (From a);
               check (N.eqb (FromGUID t) (GUID from))
                 (Errorf "resume token `fromguid` != expected: %q != %q"
                    [FNum (FromGUID t); FNum (GUID from)])
          else Ok tt) ≫= (fun _ => k) <> Panic msg).
  { intros k Hk. destruct (From a) as [from|]; destruct (HasFromGUID t); cbn;
      try discriminate; try apply Hk.
    destruct (N.eqb (FromGUID t) (GUID from)); cbn; [apply Hk | discriminate]. }
  apply Hfrom. intros m.
  destruct (HasToGUID t); cbn; [|discriminate].
  destruct (N.eqb (ToGUID t) (GUID to)); cbn; [|discriminate].
  destruct (B enc); [destruct (RawOK t && CompressOK t) | destruct (negb (RawOK t || CompressOK t))];
    discriminate.
Qed.

(** What a successful validation has checked. *)
Lemma Validate_Ok env a :
  Validate env a = Ok tt ->
  FS a <> ""
  /\ (exists to, To a = Some to)
  /\ (exists enc, Encrypted a = Some enc)
  /\ (ResumeToken a <> "" -> validateCorrespondsToResumeToken env a = Ok tt).
Proof.
  unfold Validate. intros H.
  apply bind_Ok in H as ([] & Hfs & H).
  apply bind_Ok in H as ([] & Hto & H).
  apply bind_Ok in H as ([] & Hfrom & H).
  apply bind_Ok in H as ([] & Hnil & H).
  apply bind_Ok in H as (fsEncrypted & Hfsenc & H).
  apply bind_Ok in H as (enc & Henc & H). apply deref_Ok in Henc.
  apply bind_Ok in H as ([] & Hraw & H).
  repeat split.
  - intros E. rewrite E in Hfs. discriminate Hfs.
  - destruct (To a); [eauto | discriminate Hto].
  - eauto.
  - intros Htok. destruct (String.eqb_spec (ResumeToken a) "") as [|_]; [contradiction|].
    exact H.
Qed.

Lemma Validate_no_panic env a msg : Validate env a <> Panic msg.
Proof.
  unfold Validate.
  destruct (NewDatasetPath (FS a)) as [dp| |] eqn:Hdp; cbn; try discriminate.
  destruct (Nat.eqb (Length dp) 0) eqn:Hlen; cbn; [discriminate|].
  assert (Hfs : FS a <> "").
  { intros E. rewrite E in Hdp. cbn in Hdp. injection Hdp as <-. discriminate Hlen. }
  destruct (To a) as [to|] eqn:Hto; cbn; [|discriminate].
  pose proof (ZFSSendArgVersion_Validate_no_panic env to (FS a)) as Hp1.
  destruct (ZFSSendArgVersion_Validate env to (FS a)) as [[]| |m]; cbn;
    [|discriminate|exfalso; eapply Hp1; eauto].
  assert (Hfrom : forall k : result unit,
    k <> Panic msg ->
    match From a with
    | Some from =>
        match ZFSSendArgVersion_Validate env from (FS a) with
        | Err e => Err (Wrap e "`From` invalid")
        | r => r
        end
    | None => Ok tt
    end ≫= (fun _ => k) <> Panic msg).
  { intros k Hk. destruct (From a) as [from|]; cbn; [|exact Hk].
    pose proof (ZFSSendArgVersion_Validate_no_panic env from (FS a)) as Hp2.
    destruct (ZFSSendArgVersion_Validate env from (FS a)) as [[]| |m]; cbn;
      [exact Hk|discriminate|exfalso; eapply Hp2; eauto]. }
  apply Hfrom.
  destruct (Encrypted a) as [enc|] eqn:Henc; cbn; [|discriminate].
  destruct (ZFSGetEncryptionEnabled env (FS a)) as [fsEncrypted|e]; cbn; [|discriminate].
  destruct (negb (B enc && negb fsEncrypted)); cbn; [|discriminate].
  destruct (negb (String.eqb (ResumeToken a) "")); [|discriminate].
  eapply validateCorrespondsToResumeToken_no_panic; eauto.
Qed.

Lemma ZFSSend_Validate_Err env a e :
  Validate env a = Err e -> ZFSSend env a = Err (Wrap e "cannot validate send args").
Proof. unfold ZFSSend. now intros ->. Qed.

Lemma ZFSSendDry_Validate_Err env a e :
  Validate env a = Err e -> ZFSSendDry env a = Err (Wrap e "cannot validate send args").
Proof. unfold ZFSSendDry. now intros ->. Qed.

Lemma ZFSSend_Ok_Validate env a sc : ZFSSend env a = Ok sc -> Validate env a = Ok tt.
Proof.
  unfold ZFSSend. destruct (Validate env a) as [[]| |]; [reflexivity|discriminate..].
Qed.

Lemma ZFSSendDry_Ok_Validate env a si : ZFSSendDry env a = Ok si -> Validate env a = Ok tt.
Proof.
  unfold ZFSSendDry. destruct (Validate env a) as [[]| |]; [reflexivity|discriminate..].
Qed.

(** A request that the filter or the version names reject is not served. *)
Lemma Send_checkSendReq_fails s env r :
  Endpoint.checkSendReq s r <> Ok tt -> isOk (Endpoint.Send s env r) = false.
Proof.
  unfold Endpoint.Send. destruct (Endpoint.checkSendReq s r) as [[]| |]; cbn; congruence.
Qed.

(** An error of the type [rtValErr] ends [Send]: nothing is sent. *)
Lemma Send_rtValErr s env r e :
  Endpoint.validateResumeToken env r = Endpoint.rtValErr e ->
  isOk (Endpoint.Send s env r) = false
  /\ (Endpoint.checkSendReq s r = Ok tt -> Endpoint.Send s env r = Err e).
Proof.
  intros H. unfold Endpoint.Send. rewrite H.
  destruct (Endpoint.checkSendReq s r) as [[]| |]; cbn; split; congruence.
Qed.

(** C1. Whenever [ZFSSend] or [ZFSSendDry] accepts send arguments that
    carry a resume token, the token parses and describes the operation of
    the arguments: its filesystem (from [ToName]) is the filesystem of the
    arguments, it has a [fromguid] exactly when the arguments have a [From]
    and then the GUIDs are equal, it has a [toguid] equal to the GUID of
    [To], and it allows raw and compressed both for an encrypted send and
    neither otherwise. A parsed token that differs in any of these makes
    both functions return the validation error, so no stream is produced.
    In the endpoint, a request whose token check reports a mismatch is
    refused by [Send] with that error, without response or stream. *)
Theorem C1_resume_token_corresponds :
  (forall env a,
      ResumeToken a <> "" ->
      isOk (ZFSSend env a) = true \/ isOk (ZFSSendDry env a) = true ->
      exists t tokenFS snap,
        ParseResumeToken env (ResumeToken a) = Reply t
        /\ ToNameSplit env t = Reply (tokenFS, snap)
        /\ tokenCorresponds a t tokenFS)
  /\ (forall env a t tokenFS snap,
        ResumeToken a <> "" ->
        ParseResumeToken env (ResumeToken a) = Reply t ->
        ToNameSplit env t = Reply (tokenFS, snap) ->
        ~ tokenCorresponds a t tokenFS ->
        exists e,
          Validate env a = Err e
          /\ ZFSSend env a = Err (Wrap e "cannot validate send args")
          /\ ZFSSendDry env a = Err (Wrap e "cannot validate send args"))
  /\ (forall s env r token expToGUID expHasFromGUID expFromGUID e,
        Endpoint.checkSendReq s r = Ok tt ->
        Pdu.SendReq.ResumeToken r <> "" ->
        Endpoint.ResumeSendSupported env = Reply true ->
        ParseResumeToken (Endpoint.zfsEnv env) (Pdu.SendReq.ResumeToken r) = Reply token ->
        ZFSGetGUID (Endpoint.zfsEnv env) (Pdu.SendReq.Filesystem r) (Pdu.SendReq.To r)
          = Ok expToGUID ->
        (if String.eqb (Pdu.SendReq.From r) ""
         then expHasFromGUID = false /\ expFromGUID = 0%N
         else expHasFromGUID = true
              /\ ZFSGetGUID (Endpoint.zfsEnv env) (Pdu.SendReq.Filesystem r)
                   (Pdu.SendReq.From r) = Ok expFromGUID) ->
        Endpoint.ValidateCorrespondsToSend env token (Pdu.SendReq.Filesystem r)
          expHasFromGUID expFromGUID expToGUID = Some e ->
        Endpoint.Send s env r
        = Err (Wrap e "resume token does not correspond to request send")).
Proof.
  split; [|split].
  - intros env a Htok Hacc.
    assert (Hval : Validate env a = Ok tt).
    { destruct Hacc as [H|H].
      - destruct (ZFSSend env a) as [sc| |] eqn:E; try discriminate H.
        eapply ZFSSend_Ok_Validate; eauto.
      - destruct (ZFSSendDry env a) as [si| |] eqn:E; try discriminate H.
        eapply ZFSSendDry_Ok_Validate; eauto. }
    apply Validate_Ok in Hval as (_ & _ & _ & Hcorr).
    apply validateCorrespondsToResumeToken_sound; auto.
  - intros env a t tokenFS snap Htok Hparse Hsplit Hmis.
    destruct (Validate env a) as [[]|e|m] eqn:Hval.
    + exfalso. apply Hmis.
      apply Validate_Ok in Hval as (_ & _ & _ & Hcorr).
      destruct (validateCorrespondsToResumeToken_sound env a Htok (Hcorr Htok))
        as (t' & fs' & snap' & Hp' & Hs' & Hc').
      rewrite Hparse in Hp'. injection Hp' as <-.
      rewrite Hsplit in Hs'. injection Hs' as <- <-. exact Hc'.
    + exists e. split; [reflexivity|].
      split; [now apply ZFSSend_Validate_Err | now apply ZFSSendDry_Validate_Err].
    + exfalso. eapply Validate_no_panic; eauto.
  - intros s env r token expToGUID expHasFromGUID expFromGUID e
      Hchk Htok Hsup Hparse Hto Hfrom Hval.
    apply Send_rtValErr; [|exact Hchk].
    unfold Endpoint.validateResumeToken.
    destruct (String.eqb_spec (Pdu.SendReq.ResumeToken r) "") as [|_]; [contradiction|].
    rewrite Hsup, Hparse, Hto.
    destruct (String.eqb (Pdu.SendReq.From r) ""); cbn.
    + destruct Hfrom as [-> ->]. now rewrite Hval.
    + destruct Hfrom as [-> ->]. now rewrite Hval.
Qed.

Lemma C1_resume_token_corresponds_witness :
  (exists t tokenFS snap,
      ParseResumeToken Demo.zfsEnv "1-good" = Reply t
      /\ ToNameSplit Demo.zfsEnv t = Reply (tokenFS, snap)
      /\ tokenCorresponds (Demo.sendArgs "1-good") t tokenFS)
  /\ (exists e,
        Validate Demo.zfsEnv (Demo.sendArgs "1-other") = Err e
        /\ ZFSSend Demo.zfsEnv (Demo.sendArgs "1-other")
           = Err (Wrap e "cannot validate send args")
        /\ ZFSSendDry Demo.zfsEnv (Demo.sendArgs "1-other")
           = Err (Wrap e "cannot validate send args"))
  /\ Endpoint.Send Demo.sender (Demo.sendEnv true) (Demo.sendReq "1-other")
     = Err (Wrap (Errorf "filesystem in resume token field `toname` does not match" [])
                 "resume token does not correspond to request send").
Proof.
  destruct C1_resume_token_corresponds as (Hacc & Hmis & Hend).
  split; [|split].
  - apply (Hacc Demo.zfsEnv (Demo.sendArgs "1-good")).
    + discriminate.
    + left. reflexivity.
  - apply (Hmis Demo.zfsEnv (Demo.sendArgs "1-other") Demo.token_other_fs
             {| comps := ["pool"; "b"] |} "s2").
    + discriminate.
    + reflexivity.
    + reflexivity.
    + intros (Hfs & _). discriminate Hfs.
  - apply (Hend Demo.sender (Demo.sendEnv true) (Demo.sendReq "1-other")
             Demo.token_other_fs 22%N true 11%N).
    + reflexivity.
    + discriminate.
    + reflexivity.
    + reflexivity.
    + reflexivity.
    + cbn. split; reflexivity.
    + reflexivity.
Defined.


(** ** The resume token in [Sender.Send] (C4) *)

Lemma sendWith_UsedResumeToken env r tok res sc :
  Endpoint.sendWith env r tok = Ok (res, sc) ->
  Pdu.SendRes.UsedResumeToken res = negb (String.eqb tok "").
Proof.
  unfold Endpoint.sendWith. intros H.
  apply bind_Ok in H as ([] & _ & H).
  apply bind_Ok in H as (si & _ & H).
  destruct (Pdu.SendReq.DryRun r).
  - injection H as <- _. reflexivity.
  - apply bind_Ok in H as (sc' & _ & H). injection H as <- _. reflexivity.
Qed.

Lemma sendWith_withoutResumeToken env r tok :
  Endpoint.sendWith env (withoutResumeToken r) tok = Endpoint.sendWith env r tok.
Proof. reflexivity. Qed.

(** A token that is not supported is dropped: [Send] goes on as for the
    request without token. *)
Lemma Send_rtNotSupported s env r e :
  Endpoint.validateResumeToken env r = Endpoint.rtNotSupported e ->
  Endpoint.Send s env r = Endpoint.Send s env (withoutResumeToken r)
  /\ (Endpoint.checkSendReq s r = Ok tt ->
      Endpoint.Send s env r = Endpoint.sendWith env r "")
  /\ (forall res sc, Endpoint.Send s env r = Ok (res, sc) ->
      Pdu.SendRes.UsedResumeToken res = false).
Proof.
  intros H. unfold Endpoint.Send. rewrite H.
  change (Endpoint.checkSendReq s (withoutResumeToken r)) with (Endpoint.checkSendReq s r).
  change (Endpoint.validateResumeToken env (withoutResumeToken r)) with Endpoint.rtNil.
  cbn [Pdu.SendReq.ResumeToken withoutResumeToken].
  rewrite sendWith_withoutResumeToken.
  split; [reflexivity|]. split.
  - intros ->. reflexivity.
  - intros res sc Hs. apply bind_Ok in Hs as ([] & _ & Hs).
    now apply sendWith_UsedResumeToken in Hs.
Qed.

(** C4. A send request carries a resume token. If the sender does not
    support resumable send, or parsing the token fails with
    decoding-not-supported or with parsing-error, then [Send] does what it
    does for the same request without token (so the token causes no error),
    and every response reports used-resume-token false. If parsing fails
    with the corrupt error, [Send] returns that error: no response and no
    stream. *)
Theorem C4_resume_token_discarded_or_refused
  (s : Endpoint.Sender) (env : Endpoint.SendEnv) (r : Pdu.SendReq.t) :
  Pdu.SendReq.ResumeToken r <> "" ->
  ((Endpoint.ResumeSendSupported env = Reply false
    \/ (Endpoint.ResumeSendSupported env = Reply true
        /\ (ParseResumeToken (Endpoint.zfsEnv env) (Pdu.SendReq.ResumeToken r)
              = Fail ResumeTokenDecodingNotSupported
            \/ ParseResumeToken (Endpoint.zfsEnv env) (Pdu.SendReq.ResumeToken r)
              = Fail ResumeTokenParsingError))) ->
   Endpoint.Send s env r = Endpoint.Send s env (withoutResumeToken r)
   /\ (Endpoint.checkSendReq s r = Ok tt ->
       Endpoint.Send s env r = Endpoint.sendWith env r "")
   /\ (forall res sc, Endpoint.Send s env r = Ok (res, sc) ->
       Pdu.SendRes.UsedResumeToken res = false))
  /\ (Endpoint.ResumeSendSupported env = Reply true ->
      ParseResumeToken (Endpoint.zfsEnv env) (Pdu.SendReq.ResumeToken r)
        = Fail ResumeTokenCorruptError ->
      isOk (Endpoint.Send s env r) = false
      /\ (Endpoint.checkSendReq s r = Ok tt ->
          Endpoint.Send s env r = Err ResumeTokenCorruptError)).
Proof.
  intros Htok. split.
  - intros H.
    assert (exists e, Endpoint.validateResumeToken env r = Endpoint.rtNotSupported e)
      as [e He].
    { unfold Endpoint.validateResumeToken.
      destruct (String.eqb_spec (Pdu.SendReq.ResumeToken r) "") as [|_]; [contradiction|].
      destruct H as [->|[-> [->| ->]]]; eauto. }
    eapply Send_rtNotSupported; eauto.
  - intros Hsup Hparse.
    assert (He : Endpoint.validateResumeToken env r = Endpoint.rtOther ResumeTokenCorruptError).
    { unfold Endpoint.validateResumeToken.
      destruct (String.eqb_spec (Pdu.SendReq.ResumeToken r) "") as [|_]; [contradiction|].
      now rewrite Hsup, Hparse. }
    unfold Endpoint.Send. rewrite He.
    destruct (Endpoint.checkSendReq s r) as [[]| |]; cbn; split; congruence.
Qed.

Lemma C4_resume_token_discarded_or_refused_witness :
  (Endpoint.Send Demo.sender (Demo.sendEnv false) (Demo.sendReq "1-good")
   = Endpoint.Send Demo.sender (Demo.sendEnv false) (withoutResumeToken (Demo.sendReq "1-good")))
  /\ (Endpoint.Send Demo.sender (Demo.sendEnv true) (Demo.sendReq "1-garbage")
      = Endpoint.sendWith (Demo.sendEnv true) (Demo.sendReq "1-garbage") "")
  /\ Endpoint.Send Demo.sender (Demo.sendEnv true) (Demo.sendReq "1-corrupt")
     = Err ResumeTokenCorruptError.
Proof.
  assert (Hne : forall tok, tok <> "" -> Pdu.SendReq.ResumeToken (Demo.sendReq tok) <> "")
    by (intros tok H; exact H).
  split; [|split].
  - destruct (C4_resume_token_discarded_or_refused Demo.sender (Demo.sendEnv false)
                (Demo.sendReq "1-good") (Hne "1-good" ltac:(discriminate))) as [H _].
    destruct H as (H1 & _ & _); [left; reflexivity | exact H1].
  - destruct (C4_resume_token_discarded_or_refused Demo.sender (Demo.sendEnv true)
                (Demo.sendReq "1-garbage") (Hne "1-garbage" ltac:(discriminate))) as [H _].
    destruct H as (_ & H2 & _);
      [right; split; [reflexivity | right; reflexivity] | apply H2; reflexivity].
  - destruct (C4_resume_token_discarded_or_refused Demo.sender (Demo.sendEnv true)
                (Demo.sendReq "1-corrupt") (Hne "1-corrupt" ltac:(discriminate))) as [_ H].
    destruct H as (_ & H2); [reflexivity | reflexivity | apply H2; reflexivity].
Defined.


(** ** Running code in the world *)

Lemma bindM_run {A B} (m : M A) (f : A -> M B) w :
  (m ≫= f) w = match m w with
               | (Ok a, w') => f a w'
               | (Err e, w') => (Err e, w')
               | (Panic msg, w') => (Panic msg, w')
               end.
Proof. reflexivity. Qed.

Lemma versions_record c w : versions (record c w) = versions w.
Proof. reflexivity. Qed.

Lemma filesystems_record c w : filesystems (record c w) = filesystems w.
Proof. reflexivity. Qed.

Lemma call_run flt c w :
  call flt c w = (match flt w c with Some e => Err e | None => Ok tt end, record c w).
Proof. unfold call. destruct (flt w c); reflexivity. Qed.

Lemma ZFSGetCreateTXGAndGuid_run flt path w :
  ZFSGetCreateTXGAndGuid flt path w = (getProps flt path w, record (CallGet path) w).
Proof.
  unfold ZFSGetCreateTXGAndGuid, zfsGetNumberProps, mapErr, zfsGet, getProps.
  rewrite bindM_run, call_run. unfold effect.
  destruct (flt w (CallGet path)) as [e|]; cbn.
  - destruct e; reflexivity.
  - destruct (versions w !! path); reflexivity.
Qed.

Lemma getProps_no_panic flt path w msg : getProps flt path w <> Panic msg.
Proof.
  unfold getProps. destruct (flt w (CallGet path)) as [e|].
  - destruct e; discriminate.
  - destruct (versions w !! path); discriminate.
Qed.

Lemma getProps_Ok flt path w props :
  getProps flt path w = Ok props -> versions w !! path = Some props.
Proof.
  unfold getProps. destruct (flt w _) as [e|]; [destruct e; discriminate|].
  destruct (versions w !! path); congruence.
Qed.

Lemma getProps_no_fault flt path w :
  flt w (CallGet path) = None ->
  getProps flt path w = match versions w !! path with
                        | Some props => Ok props
                        | None => Err (DatasetDoesNotExist path)
                        end.
Proof. unfold getProps. now intros ->. Qed.

(** ** The replication cursor (C5, C2) *)

(** A bookmark that exists is not created again. *)
Lemma ZFSBookmark_exists flt fs snapshot bookmark w props :
  versions w !! zfsBuildBookmarkName fs bookmark = Some props ->
  exists e, ZFSBookmark flt fs snapshot bookmark w
            = (Err e, record (CallBookmark (zfsBuildSnapName fs snapshot)
                                           (zfsBuildBookmarkName fs bookmark)) w).
Proof.
  intros H. unfold ZFSBookmark. rewrite bindM_run, call_run. unfold effect.
  destruct (flt w _); [eauto|]. cbn. rewrite H.
  destruct (versions w !! zfsBuildSnapName fs snapshot); eauto.
Qed.

(** Unfolds [ZFSSetReplicationCursor] up to the query of the snapshot. *)
Ltac cursor_start :=
  unfold ZFSSetReplicationCursor, lift, check;
  rewrite bindM_run;
  destruct (negb (Nat.eqb (Length _) 0)); [|eauto 10];
  rewrite bindM_run;
  destruct (negb (Nat.eqb (String.length _) 0)); [|eauto 10];
  rewrite bindM_run; unfold mapErr at 1; rewrite ZFSGetCreateTXGAndGuid_run;
  match goal with
  | |- context [ToString ?fs +:+ "@" +:+ ?snapname] =>
      fold (zfsBuildSnapName fs snapname);
      fold (zfsBuildBookmarkName fs ReplicationCursorBookmarkName);
      fold (cursorOf fs)
  end.

(** Moving the cursor backward fails, whatever else fails, and changes
    neither versions nor filesystems. *)
Lemma ZFSSetReplicationCursor_backward flt fs snapname expGuid w cursor snap :
  versions w !! cursorOf fs = Some cursor ->
  versions w !! zfsBuildSnapName fs snapname = Some snap ->
  (CreateTXG snap < CreateTXG cursor)%N ->
  exists e w',
    ZFSSetReplicationCursor flt fs snapname expGuid w = (Err e, w')
    /\ versions w' = versions w /\ filesystems w' = filesystems w.
Proof.
  intros Hcur Hsnap Hlt. cursor_start.
  pose proof (getProps_no_panic flt (zfsBuildSnapName fs snapname) w) as Hnp.
  destruct (getProps flt (zfsBuildSnapName fs snapname) w) as [snapProps|e|m] eqn:Hget;
    [|eauto|exfalso; eapply Hnp; eauto].
  apply getProps_Ok in Hget. rewrite Hsnap in Hget. injection Hget as <-.
  rewrite bindM_run.
  destruct (N.eqb expGuid (Guid snap)); [|eauto].
  rewrite bindM_run. unfold try. rewrite ZFSGetCreateTXGAndGuid_run.
  set (w1 := record (CallGet (zfsBuildSnapName fs snapname)) w).
  pose proof (getProps_no_panic flt (cursorOf fs) w1) as Hnp1.
  destruct (getProps flt (cursorOf fs) w1) as [bookmarkProps|e|m] eqn:Hget1;
    [| |exfalso; eapply Hnp1; eauto].
  - apply getProps_Ok in Hget1. subst w1. rewrite versions_record, Hcur in Hget1.
    injection Hget1 as <-.
    apply N.ltb_lt in Hlt. rewrite Hlt. eauto.
  - set (w2 := record _ w1).
    destruct (ZFSBookmark_exists flt fs snapname ReplicationCursorBookmarkName w2 cursor)
      as [e' He']; [exact Hcur|].
    destruct e; unfold mapErr; try rewrite He'; eauto.
Qed.

(** X3. [ZFSSetReplicationCursor] on a snapshot whose GUID is not the
    expected one fails, whatever else fails: the cursor is not touched,
    nothing is destroyed and nothing is bookmarked. *)
Theorem ZFSSetReplicationCursor_guid_mismatch flt fs snapname expGuid w snap :
  versions w !! zfsBuildSnapName fs snapname = Some snap ->
  expGuid <> Guid snap ->
  exists e w',
    ZFSSetReplicationCursor flt fs snapname expGuid w = (Err e, w')
    /\ versions w' = versions w /\ filesystems w' = filesystems w
    /\ (calls w' = calls w \/ calls w' = CallGet (zfsBuildSnapName fs snapname) :: calls w).
Proof.
  intros Hsnap Hne. cursor_start.
  pose proof (getProps_no_panic flt (zfsBuildSnapName fs snapname) w) as Hnp.
  destruct (getProps flt (zfsBuildSnapName fs snapname) w) as [snapProps|e|m] eqn:Hget;
    [|eauto 10|exfalso; eapply Hnp; eauto].
  apply getProps_Ok in Hget. rewrite Hsnap in Hget. injection Hget as <-.
  rewrite bindM_run.
  destruct (N.eqb_spec expGuid (Guid snap)) as [|_]; [contradiction|]. eauto 10.
Qed.

(** Setting the cursor to the snapshot it is at does nothing but the two
    queries. *)
Lemma ZFSSetReplicationCursor_same_guid flt fs snapname w cursor snap :
  versions w !! cursorOf fs = Some cursor ->
  versions w !! zfsBuildSnapName fs snapname = Some snap ->
  Length fs <> 0 -> snapname <> "" ->
  (forall w0 path, flt w0 (CallGet path) = None) ->
  ~ (CreateTXG snap < CreateTXG cursor)%N ->
  Guid snap = Guid cursor ->
  ZFSSetReplicationCursor flt fs snapname (Guid snap) w
  = (Ok tt, record (CallGet (cursorOf fs)) (record (CallGet (zfsBuildSnapName fs snapname)) w)).
Proof.
  intros Hcur Hsnap Hfs Hname Hflt Hge Hguid.
  unfold ZFSSetReplicationCursor, lift, check.
  rewrite bindM_run.
  destruct (Nat.eqb_spec (Length fs) 0) as [|_]; [contradiction|]. cbn [negb].
  rewrite bindM_run.
  destruct (Nat.eqb_spec (String.length snapname) 0) as [E|_].
  { destruct snapname; [contradiction | discriminate E]. }
  cbn [negb].
  rewrite bindM_run. unfold mapErr at 1. rewrite ZFSGetCreateTXGAndGuid_run.
  fold (zfsBuildSnapName fs snapname).
  fold (zfsBuildBookmarkName fs ReplicationCursorBookmarkName). fold (cursorOf fs).
  rewrite getProps_no_fault, Hsnap by apply Hflt.
  rewrite bindM_run, N.eqb_refl.
  rewrite bindM_run. unfold try. rewrite ZFSGetCreateTXGAndGuid_run.
  rewrite getProps_no_fault, versions_record, Hcur by apply Hflt.
  apply N.ltb_nlt in Hge. rewrite Hge, Hguid, N.eqb_refl. reflexivity.
Qed.

(** C5. A filesystem has a cursor bookmark. Setting the cursor to a
    snapshot whose createtxg is lower than that of the bookmark fails, and
    leaves the bookmark and every other version as they were. Setting it to
    a snapshot that is not older and whose GUID is the GUID of the cursor
    succeeds without destroying or creating anything. *)
Theorem C5_cursor_monotone
  (flt : Faults) (fs : DatasetPath) (snapname : string) (expGuid : N)
  (w : World) (cursor snap : ZFSPropCreateTxgAndGuidProps) :
  versions w !! cursorOf fs = Some cursor ->
  versions w !! zfsBuildSnapName fs snapname = Some snap ->
  ((CreateTXG snap < CreateTXG cursor)%N ->
   exists e w',
     ZFSSetReplicationCursor flt fs snapname expGuid w = (Err e, w')
     /\ versions w' = versions w /\ filesystems w' = filesystems w)
  /\ (~ (CreateTXG snap < CreateTXG cursor)%N ->
      Guid snap = Guid cursor ->
      expGuid = Guid snap ->
      Length fs <> 0 -> snapname <> "" ->
      (forall w0 path, flt w0 (CallGet path) = None) ->
      exists w',
        ZFSSetReplicationCursor flt fs snapname expGuid w = (Ok tt, w')
        /\ versions w' = versions w /\ filesystems w' = filesystems w
        /\ calls w' = [CallGet (cursorOf fs); CallGet (zfsBuildSnapName fs snapname)]
                      ++ calls w).
Proof.
  intros Hcur Hsnap. split.
  - intros Hlt. eapply ZFSSetReplicationCursor_backward; eauto.
  - intros Hge Hguid -> Hfs Hname Hflt.
    rewrite (ZFSSetReplicationCursor_same_guid flt fs snapname w cursor snap) by assumption.
    eexists. split; [reflexivity|]. repeat split.
Qed.

Lemma C5_cursor_monotone_witness :
  (exists e w',
      ZFSSetReplicationCursor Demo.noFaults Demo.poolA "s1" 11 (Demo.cursorWorld 11)
      = (Err e, w')
      /\ versions w' = versions (Demo.cursorWorld 11)
      /\ filesystems w' = filesystems (Demo.cursorWorld 11))
  /\ (exists w',
        ZFSSetReplicationCursor Demo.noFaults Demo.poolA "s2" 22 (Demo.cursorWorld 11)
        = (Ok tt, w')
        /\ versions w' = versions (Demo.cursorWorld 11)
        /\ filesystems w' = filesystems (Demo.cursorWorld 11)
        /\ calls w' = [CallGet (cursorOf Demo.poolA);
                       CallGet (zfsBuildSnapName Demo.poolA "s2")]
                      ++ calls (Demo.cursorWorld 11)).
Proof.
  split.
  - apply (C5_cursor_monotone Demo.noFaults Demo.poolA "s1" 11 (Demo.cursorWorld 11)
             {| CreateTXG := 9; Guid := 22 |} {| CreateTXG := 5; Guid := 11 |});
      [vm_compute; reflexivity | vm_compute; reflexivity | cbn; lia].
  - apply (C5_cursor_monotone Demo.noFaults Demo.poolA "s2" 22 (Demo.cursorWorld 11)
             {| CreateTXG := 9; Guid := 22 |} {| CreateTXG := 9; Guid := 22 |});
      [vm_compute; reflexivity | vm_compute; reflexivity | cbn; lia | reflexivity
      | reflexivity | cbn; lia | discriminate | reflexivity].
Defined.


(** C2, at an input where the code departs from it. The cursor of [pool/a]
    is at [s1]. The caller has replicated [s2] when its GUID was 22; since
    then [s2] has been destroyed and taken again, with GUID 99. The function
    of the cursor file, given the GUID 22 that the caller expects, refuses
    and leaves the cursor where it is. The [Set] operation of the endpoint
    has only the name [s2] to pass on: it moves the cursor to the new
    snapshot and answers with its GUID 99. *)
Theorem C2_endpoint_set_without_expected_guid :
  (exists e w',
      ZFSSetReplicationCursor Demo.noFaults Demo.poolA "s2" 22 Demo.recreatedWorld
      = (Err e, w')
      /\ versions w' = versions Demo.recreatedWorld)
  /\ (exists w',
        Endpoint.ReplicationCursor Demo.noFaults Demo.sender (Demo.setCursorReq "s2")
          Demo.recreatedWorld
        = (Ok (Pdu.ReplicationCursorRes.Guid 99), w')
        /\ versions w' !! cursorOf Demo.poolA = Some {| CreateTXG := 14; Guid := 99 |}
        /\ versions Demo.recreatedWorld !! cursorOf Demo.poolA
           = Some {| CreateTXG := 5; Guid := 11 |}).
Proof.
  split.
  - eexists _, _. split; [vm_compute; reflexivity | reflexivity].
  - eexists. split; [vm_compute; reflexivity|]. split; vm_compute; reflexivity.
Qed.


(** ** Dataset paths: prefix, equality, trimming *)

Lemma forallb_seq_shift (f : nat -> bool) n :
  forallb f (seq 1 n) = forallb (fun i => f (S i)) (seq 0 n).
Proof.
  rewrite <- seq_shift. induction (seq 0 n) as [|i l IH]; cbn; [reflexivity|].
  now rewrite IH.
Qed.

Lemma forallb_nth_prefix (l1 : list string) : forall l2 : list string,
  forallb (fun i => String.eqb (nth i l1 "") (nth i l2 "")) (seq 0 (length l1)) = true
  /\ length l1 <= length l2
  <-> exists rest, l2 = l1 ++ rest.
Proof.
  induction l1 as [|a l1 IH]; intros l2.
  - cbn. split; [intros _; exists l2; reflexivity | intros _; split; [reflexivity | lia]].
  - cbn [length seq forallb nth]. rewrite forallb_seq_shift. cbn [nth].
    destruct l2 as [|b l2].
    + cbn. split; [intros [_ H]; lia | intros [rest H]; discriminate H].
    + cbn [length]. rewrite andb_true_iff, String.eqb_eq.
      specialize (IH l2). split.
      * intros [[-> Hall] Hlen]. destruct IH as [IH _].
        destruct IH as [rest ->]; [split; [exact Hall | lia]|].
        exists rest. reflexivity.
      * intros [rest H]. cbn in H. injection H as -> ->.
        destruct IH as [_ IH]. destruct IH as [Hall Hlen]; [eauto|].
        split; [split; [reflexivity | exact Hall] | lia].
Qed.

Lemma HasPrefix_spec p prefix :
  HasPrefix p prefix = true <-> exists rest, comps p = comps prefix ++ rest.
Proof.
  unfold HasPrefix. rewrite <- forallb_nth_prefix.
  destruct (Nat.ltb_spec (length (comps p)) (length (comps prefix))).
  - split; [discriminate | intros [_ H']; lia].
  - split; [intros ?; split; [assumption | lia] | tauto].
Qed.

Lemma Equal_spec p q : Equal p q = true <-> comps p = comps q.
Proof.
  unfold Equal. destruct (Nat.eqb_spec (length (comps p)) (length (comps q))) as [E|E];
    cbn [negb].
  - split.
    + intros H. destruct (proj1 (forallb_nth_prefix (comps p) (comps q))) as [rest Hr].
      { split; [exact H | lia]. }
      rewrite Hr in E. rewrite length_app in E.
      destruct rest; [now rewrite app_nil_r in Hr | cbn in E; lia].
    + intros H. apply (forallb_nth_prefix (comps p) (comps q)). exists []. 
      now rewrite app_nil_r.
  - split; [discriminate | intros H; rewrite H in E; contradiction].
Qed.

Lemma TrimPrefix_app p prefix rest :
  comps p = comps prefix ++ rest -> TrimPrefix p prefix = {| comps := rest |}.
Proof.
  intros H. unfold TrimPrefix.
  assert (Hp : HasPrefix p prefix = true) by (apply HasPrefix_spec; eauto).
  rewrite Hp. cbn [negb]. f_equal. rewrite H, length_app.
  replace (length (comps prefix) + length rest - length (comps prefix)) with (length rest) by lia.
  apply nth_ext with (d := "") (d' := "").
  - now rewrite length_map, length_seq.
  - intros n Hn. rewrite length_map, length_seq in Hn.
    rewrite (nth_indep _ "" (nth (length (comps prefix) + 0) (comps prefix ++ rest) ""))
      by (rewrite length_map, length_seq; exact Hn).
    rewrite (map_nth (fun i => nth (length (comps prefix) + i) (comps prefix ++ rest) "")).
    rewrite seq_nth by exact Hn. cbn.
    rewrite app_nth2 by lia.
    f_equal. lia.
Qed.

Lemma strictlyBelow_spec p root :
  strictlyBelow p root <-> HasPrefix p root = true /\ Equal p root = false.
Proof.
  unfold strictlyBelow. rewrite HasPrefix_spec. split.
  - intros (c & rest & H). split; [eauto|].
    destruct (Equal p root) eqn:E; [|reflexivity].
    apply Equal_spec in E. rewrite E in H.
    apply (f_equal (@length string)) in H. rewrite length_app in H. cbn in H. lia.
  - intros [[rest H] E]. destruct rest as [|c rest]; [|eauto].
    rewrite app_nil_r in H. apply Equal_spec in H. congruence.
Qed.


(** ** Listing the filesystems of a client (C10) *)

Lemma ZFSGetFilesystemPlaceholderState_run flt p w :
  ZFSGetFilesystemPlaceholderState flt p w
  = (match flt w (CallGetPlaceholder (ToString p)) with
     | Some e => Err e
     | None =>
         match filesystems w !! ToString p with
         | Some fs => Ok {| FSExists := true; IsPlaceholder := placeholder fs |}
         | None => Ok {| FSExists := false; IsPlaceholder := false |}
         end
     end, record (CallGetPlaceholder (ToString p)) w).
Proof.
  unfold ZFSGetFilesystemPlaceholderState. rewrite bindM_run, call_run. unfold effect.
  destruct (flt w _); [reflexivity|]. cbn.
  destruct (filesystems w !! ToString p); reflexivity.
Qed.

Lemma ZFSGetReceiveResumeToken_run flt p w :
  ZFSGetReceiveResumeTokenOrEmptyStringIfNotSupported flt p w
  = (match flt w (CallGetResumeToken (ToString p)) with
     | Some e => Err e
     | None =>
         match filesystems w !! ToString p with
         | Some fs => Ok (if resumable w then receive_resume_token fs else "")
         | None => Err (DatasetDoesNotExist (ToString p))
         end
     end, record (CallGetResumeToken (ToString p)) w).
Proof.
  unfold ZFSGetReceiveResumeTokenOrEmptyStringIfNotSupported.
  rewrite bindM_run, call_run. unfold effect.
  destruct (flt w _); [reflexivity|]. cbn.
  destruct (filesystems w !! ToString p); reflexivity.
Qed.

Lemma ZFSListMapping_run flt filter w :
  ZFSListMapping flt filter w
  = (match flt w CallList with
     | Some e => Err e
     | None => listMappingLoop filter (map fst (map_to_list (filesystems w)))
     end, record CallList w).
Proof.
  unfold ZFSListMapping. rewrite bindM_run, call_run. unfold effect.
  destruct (flt w _); reflexivity.
Qed.

(** The listing keeps the paths that pass the filter, and only names of
    filesystems. *)
Lemma listMappingLoop_Ok filter names : forall datasets,
  listMappingLoop filter names = Ok datasets ->
  Forall (fun a => filter a = Ok true
                   /\ exists name, In name names /\ NewDatasetPath name = Ok a) datasets.
Proof.
  induction names as [|name names IH]; intros datasets H; cbn in H.
  - injection H as <-. constructor.
  - apply bind_Ok in H as (path & Hpath & H).
    apply bind_Ok in H as (pass & Hpass & H).
    apply bind_Ok in H as (tl & Htl & H). injection H as <-.
    specialize (IH tl Htl).
    assert (Htl' : Forall (fun a => filter a = Ok true
                     /\ exists name0, In name0 (name :: names) /\ NewDatasetPath name0 = Ok a) tl).
    { eapply Forall_impl; [exact IH|]. cbn. intros a (Hf & n & Hn & Hp). split; eauto 6. }
    destruct pass; [|exact Htl'].
    constructor; [|exact Htl']. split.
    + destruct (filter path) as [[]| |]; cbn in Hpass; congruence.
    + exists name. split; [now left | exact Hpath].
Qed.

(** Closes a run of the loop that stopped on an error. *)
Ltac loop_stopped Hprobe :=
  split; [reflexivity|]; split; [reflexivity|]; split; [reflexivity|];
  split; [exact Hprobe | intros ? Hr; discriminate Hr].

Lemma listFilesystemsLoop_spec flt root filtered : forall w r w',
  Endpoint.listFilesystemsLoop flt root filtered w = (r, w') ->
  exists newcalls,
    calls w' = newcalls ++ calls w
    /\ filesystems w' = filesystems w /\ versions w' = versions w
    /\ (forall fs, In (CallGetPlaceholder fs) newcalls ->
          exists a, In a filtered /\ fs = ToString a)
    /\ (forall res, r = Ok res -> Forall2 (entryOf root w) filtered res).
Proof.
  induction filtered as [|a rest IH]; intros w r w' H.
  - cbn in H. injection H as <- <-. exists [].
    split; [reflexivity|]. split; [reflexivity|]. split; [reflexivity|]. split.
    + intros fs [].
    + intros res [= <-]. constructor.
  - cbn [Endpoint.listFilesystemsLoop] in H.
    rewrite bindM_run in H. unfold mapErr in H.
    rewrite ZFSGetFilesystemPlaceholderState_run in H.
    set (c1 := CallGetPlaceholder (ToString a)) in *.
    assert (Hc1 : forall fs, In (CallGetPlaceholder fs) [c1] ->
                    exists a0, In a0 (a :: rest) /\ fs = ToString a0).
    { intros fs [E|[]]. injection E as <-. exists a. split; [now left | reflexivity]. }
    destruct (flt w c1) as [e|].
    { injection H as <- <-. exists [c1]. loop_stopped Hc1. }
    destruct (filesystems w !! ToString a) as [fsp|] eqn:Hfs.
    2:{ rewrite bindM_run in H. cbn in H. injection H as <- <-.
        exists [c1]. loop_stopped Hc1. }
    rewrite bindM_run in H. cbn [FSExists negb] in H.
    change ((mret tt : M unit) (record c1 w)) with (Ok tt, record c1 w) in H.
    cbn iota beta in H.
    rewrite bindM_run, ZFSGetReceiveResumeToken_run in H.
    set (c2 := CallGetResumeToken (ToString a)) in *.
    assert (Hc2 : forall fs, In (CallGetPlaceholder fs) [c2; c1] ->
                    exists a0, In a0 (a :: rest) /\ fs = ToString a0).
    { intros fs [E|H']; [discriminate E | now apply Hc1]. }
    destruct (flt (record c1 w) c2) as [e|].
    { injection H as <- <-. exists [c2; c1]. loop_stopped Hc2. }
    rewrite filesystems_record, Hfs in H.
    rewrite bindM_run in H.
    destruct (Endpoint.listFilesystemsLoop flt root rest (record c2 (record c1 w)))
      as [r1 w1] eqn:Hrest.
    destruct (IH _ _ _ Hrest) as (nc & Hcalls & Hf & Hv & Hprobe & Hres).
    assert (Hnc : forall fs, In (CallGetPlaceholder fs) (nc ++ [c2; c1]) ->
                    exists a0, In a0 (a :: rest) /\ fs = ToString a0).
    { intros fs Hin. apply in_app_or in Hin as [Hin|Hin]; [|now apply Hc2].
      destruct (Hprobe fs Hin) as (a0 & Ha0 & ->). exists a0. split; [now right | reflexivity]. }
    assert (Hcalls' : calls w1 = (nc ++ [c2; c1]) ++ calls w).
    { rewrite Hcalls. cbn. now rewrite <- app_assoc. }
    destruct r1 as [fss|e|m]; injection H as <- <-; exists (nc ++ [c2; c1]);
      (split; [exact Hcalls'|]); (split; [exact Hf|]); (split; [exact Hv|]);
      (split; [exact Hnc|]); intros res Hr; try discriminate Hr.
    injection Hr as <-. constructor.
    + split; [reflexivity|]. exists fsp. split; [exact Hfs | reflexivity].
    + specialize (Hres fss eq_refl). eapply Forall2_impl; [exact Hres|].
      intros x y (Hp & fs' & Hl & Hi). split; [exact Hp|]. exists fs'. split; [|exact Hi].
      now rewrite !filesystems_record in Hl.
Qed.


Lemma append_String c s1 s2 : String c s1 +:+ s2 = String c (s1 +:+ s2).
Proof. reflexivity. Qed.

Lemma String_length_append s1 s2 :
  String.length (s1 +:+ s2) = String.length s1 + String.length s2.
Proof.
  induction s1 as [|c s1 IH]; [reflexivity|].
  rewrite append_String. cbn [String.length]. now rewrite IH.
Qed.

Lemma String_append_assoc s1 s2 s3 : (s1 +:+ s2) +:+ s3 = s1 +:+ (s2 +:+ s3).
Proof.
  induction s1 as [|c s1 IH]; [reflexivity|]. now rewrite !append_String, IH.
Qed.

Lemma Join_app_cons l c rest sep :
  l <> [] -> Join (l ++ c :: rest) sep = Join l sep +:+ sep +:+ Join (c :: rest) sep.
Proof.
  induction l as [|x l IH]; [congruence|]. intros _.
  destruct l as [|y l].
  - reflexivity.
  - change ((x :: y :: l) ++ c :: rest) with (x :: (y :: l) ++ c :: rest).
    change ((y :: l) ++ c :: rest) with (y :: l ++ c :: rest) at 1.
    rewrite Join_cons_cons.
    change (y :: l ++ c :: rest) with ((y :: l) ++ c :: rest).
    rewrite IH by discriminate. rewrite Join_cons_cons.
    rewrite !String_append_assoc. reflexivity.
Qed.

(** A path strictly below a non-empty root is printed differently. *)
Lemma strictlyBelow_ToString_ne a root :
  strictlyBelow a root -> Length root <> 0 -> ToString a <> ToString root.
Proof.
  intros (c & rest & H) Hlen E. unfold ToString in E. rewrite H in E.
  rewrite Join_app_cons in E by (intros E'; apply Hlen; unfold Length; now rewrite E').
  apply (f_equal String.length) in E. rewrite !String_length_append in E. cbn in E. lia.
Qed.

Lemma Filter_spec root p :
  Endpoint.Filter {| Endpoint.localRoot := root |} p = Ok true <-> strictlyBelow p root.
Proof.
  unfold Endpoint.Filter. cbn. rewrite strictlyBelow_spec. split.
  - intros [= H]. apply andb_true_iff in H as [H1 H2].
    apply negb_true_iff in H2. tauto.
  - intros [-> ->]. reflexivity.
Qed.

(** C10. The filter of the receiver passes a path exactly if the client
    root is a prefix of it and it is not the client root. So
    [ListFilesystems] looks only at paths strictly below the client root:
    it asks for the placeholder state of those only (never of the root),
    and each entry of its answer is the non-empty remainder of such a path
    after the root. *)
Theorem C10_subroot_strict_descendants :
  (forall root p,
      exists pass,
        Endpoint.Filter {| Endpoint.localRoot := root |} p = Ok pass
        /\ (pass = true <->
            (exists rest, comps p = comps root ++ rest) /\ comps p <> comps root))
  /\ (forall flt s ctx root w r w',
        Endpoint.clientRootFromCtx s ctx = Ok root ->
        Endpoint.ListFilesystems flt s ctx w = (r, w') ->
        exists listed newcalls,
          Forall (fun a => strictlyBelow a root) listed
          /\ calls w' = newcalls ++ calls w
          /\ (forall fs, In (CallGetPlaceholder fs) newcalls ->
                exists a, In a listed /\ fs = ToString a
                          /\ (Length root <> 0 -> fs <> ToString root))
          /\ (forall res, r = Ok res ->
                Forall2 (fun a e =>
                           entryOf root w a e
                           /\ exists c rest,
                                comps a = comps root ++ c :: rest
                                /\ Pdu.Filesystem.Path e = ToString {| comps := c :: rest |})
                        listed res)).
Proof.
  split.
  - intros root p. eexists. split; [reflexivity|]. cbn [Endpoint.localRoot].
    rewrite <- HasPrefix_spec, <- Equal_spec.
    rewrite andb_true_iff, negb_true_iff.
    destruct (Equal p root); intuition congruence.
  - intros flt s ctx root w r w' Hroot H.
    unfold Endpoint.ListFilesystems in H. rewrite bindM_run in H.
    unfold lift in H. rewrite Hroot in H.
    rewrite bindM_run, ZFSListMapping_run in H.
    destruct (flt w CallList) as [e|].
    { injection H as <- <-. exists [], [CallList].
      split; [constructor|]. split; [reflexivity|]. split.
      - intros fs [E|[]]. discriminate E.
      - intros res Hr. discriminate Hr. }
    destruct (listMappingLoop _ _) as [filtered|e|m] eqn:Hlist.
    2,3: injection H as <- <-; exists [], [CallList];
         (split; [constructor|]); (split; [reflexivity|]); split;
         [intros fs [E|[]]; discriminate E | intros res Hr; discriminate Hr].
    apply listMappingLoop_Ok in Hlist.
    assert (Hbelow : Forall (fun a => strictlyBelow a root) filtered).
    { eapply Forall_impl; [exact Hlist|]. cbn. intros a [Hf _]. now apply Filter_spec. }
    destruct (listFilesystemsLoop_spec _ _ _ _ _ _ H) as (nc & Hcalls & _ & _ & Hprobe & Hres).
    exists filtered, (nc ++ [CallList]).
    split; [exact Hbelow|]. split; [rewrite Hcalls; cbn; now rewrite <- app_assoc|]. split.
    + intros fs Hin. apply in_app_or in Hin as [Hin|[E|[]]]; [|discriminate E].
      destruct (Hprobe fs Hin) as (a & Ha & ->). exists a. split; [exact Ha|].
      split; [reflexivity|]. intros Hlen.
      apply strictlyBelow_ToString_ne; [|exact Hlen].
      rewrite Forall_forall in Hbelow. apply Hbelow. now apply list_elem_of_In.
    + intros res Hr. specialize (Hres res Hr).
      clear - Hres Hbelow. induction Hres as [|a e l k Hae Hrest IH]; [constructor|].
      apply Forall_cons in Hbelow as [Ha Hl]. constructor; [|now apply IH].
      split; [exact Hae|]. destruct Ha as (c & rest & Hc). exists c, rest.
      split; [exact Hc|]. destruct Hae as [-> _].
      now rewrite (TrimPrefix_app a root (c :: rest)).
Qed.


(** ** Receiving into a placeholder (C6) *)


Lemma ZFSRecvClearResumeToken_keeps flt fs w r w' b :
  ZFSRecvClearResumeToken flt fs w = (r, w') ->
  keepsPlaceholder fs b w w'
  /\ exists later, calls w' = later ++ calls w
                   /\ forall fs' opts, ~ In (CallRecv fs' opts) later.
Proof.
  unfold ZFSRecvClearResumeToken, lift, mapErr. rewrite bindM_run.
  destruct (validateZFSFilesystem fs) as [[]|e|m].
  2,3: intros [= <- <-]; split; [intros H; exact H | exists []; split; [reflexivity | intros ? ? []]].
  rewrite bindM_run, call_run. unfold effect.
  assert (Hlater : forall fs' opts, ~ In (CallRecv fs' opts) [CallRecvAbort fs]).
  { intros fs' opts [E|[]]. discriminate E. }
  destruct (flt w _).
  { intros [= <- <-]. split; [intros H; exact H | exists [CallRecvAbort fs]; eauto]. }
  rewrite filesystems_record.
  destruct (filesystems w !! fs) as [p|] eqn:Hp; intros [= <- <-].
  - split; [|exists [CallRecvAbort fs]; eauto].
    intros (p' & Hp' & Hb). rewrite Hp in Hp'. injection Hp' as <-.
    eexists. cbn. rewrite lookup_insert_eq. split; [reflexivity | exact Hb].
  - split; [intros H; exact H | exists [CallRecvAbort fs]; eauto].
Qed.

(** ** The rollback of a forced receive *)

Lemma substring_0_length s : String.substring 0 (String.length s) s = s.
Proof. induction s as [|c s IH]; [reflexivity|]. cbn. now rewrite IH. Qed.

Lemma afterPrefix_Some p : forall s name, afterPrefix p s = Some name -> s = p +:+ name.
Proof.
  unfold afterPrefix. induction p as [|c p IH]; intros s name.
  - cbn [String.prefix String.length]. rewrite Nat.sub_0_r.
    destruct s; cbn [String.prefix]; intros [= <-].
    + reflexivity.
    + symmetry. apply (substring_0_length (String a s)).
  - destruct s as [|c' s]; cbn [String.prefix]; [discriminate|].
    destruct (ascii_dec c c') as [<-|]; [|discriminate].
    cbn [String.length Nat.sub String.substring].
    destruct (String.prefix p s) eqn:Hp; [|discriminate].
    intros [= <-]. rewrite append_String. f_equal.
    apply IH. now rewrite Hp.
Qed.

Lemma versionOf_abs fs k props v :
  versionOf fs (k, props) = Some v ->
  ToAbsPath v fs = k /\ FilesystemVersion.CreateTXG v = CreateTXG props.
Proof.
  unfold versionOf, ToAbsPath, zfsBuildSnapName, zfsBuildBookmarkName. cbn [fst snd].
  destruct (afterPrefix (ToString fs +:+ "@") k) as [name|] eqn:Hs.
  - intros [= <-]. cbn. apply afterPrefix_Some in Hs. subst k.
    now rewrite String_append_assoc.
  - destruct (afterPrefix (ToString fs +:+ "#") k) as [name|] eqn:Hb; [|discriminate].
    intros [= <-]. cbn. apply afterPrefix_Some in Hb. subst k.
    now rewrite String_append_assoc.
Qed.

Lemma In_insertSorted {A} (less : A -> A -> bool) x y l :
  In y (insertSorted less x l) <-> y = x \/ In y l.
Proof.
  induction l as [|z l IH]; cbn [insertSorted].
  - cbn. intuition.
  - destruct (less x z); cbn [In]; [intuition|]. rewrite IH. intuition.
Qed.

Lemma In_sortSlice {A} (less : A -> A -> bool) y l :
  In y (sortSlice less l) <-> In y l.
Proof.
  unfold sortSlice.
  assert (H : forall acc, In y (fold_left (fun acc x => insertSorted less x acc) l acc)
                          <-> In y acc \/ In y l).
  { induction l as [|x l IH]; intros acc; cbn [fold_left In]; [intuition|].
    rewrite IH, In_insertSorted. intuition. }
  rewrite H. cbn. intuition.
Qed.

Lemma ZFSListFilesystemVersions_run flt fs w :
  ZFSListFilesystemVersions flt fs w
  = (match flt w CallList with
     | Some e => Err e
     | None => Ok (omap (versionOf fs) (map_to_list (versions w)))
     end, record CallList w).
Proof.
  unfold ZFSListFilesystemVersions. rewrite bindM_run, call_run. unfold effect.
  destruct (flt w CallList); reflexivity.
Qed.

Lemma ZFSDestroy_run flt arg w :
  ZFSDestroy flt arg w
  = match flt w (CallDestroy arg) with
    | Some e => (Err e, record (CallDestroy arg) w)
    | None =>
        if bool_decide (is_Some (versions w !! arg))
        then (Ok tt, setVersions (delete arg (versions w)) (record (CallDestroy arg) w))
        else if bool_decide (is_Some (filesystems w !! arg))
        then (Ok tt, setFilesystems (delete arg (filesystems w)) (record (CallDestroy arg) w))
        else (Err (ZFSError "could not find any snapshots to destroy"),
              record (CallDestroy arg) w)
    end.
Proof.
  unfold ZFSDestroy. rewrite bindM_run, call_run. unfold effect.
  destruct (flt w (CallDestroy arg)); reflexivity.
Qed.

(** The earliest snapshot of the listing is a snapshot that the filesystem
    has. *)
Lemma rollbackTarget_listed fs (vers : gmap string ZFSPropCreateTxgAndGuidProps)
  rollbackTarget rest :
  sortSlice (fun a b => (FilesystemVersion.CreateTXG a <? FilesystemVersion.CreateTXG b)%N)
            (List.filter (fun v => match FilesystemVersion.Type_ v with
                                   | FilesystemVersion.Snapshot => true
                                   | _ => false
                                   end)
                         (omap (versionOf fs) (map_to_list vers)))
  = rollbackTarget :: rest ->
  FilesystemVersion.Type_ rollbackTarget = FilesystemVersion.Snapshot
  /\ exists props, vers !! ToAbsPath rollbackTarget fs = Some props.
Proof.
  intros Hs.
  assert (Hin : In rollbackTarget (rollbackTarget :: rest)) by now left.
  rewrite <- Hs in Hin. apply In_sortSlice, filter_In in Hin as (Hin & Hty).
  split; [now destruct (FilesystemVersion.Type_ rollbackTarget)|].
  apply list_elem_of_In, list_elem_of_omap in Hin as ([k props] & Hk & Hv).
  apply elem_of_map_to_list in Hk. apply versionOf_abs in Hv as (-> & _).
  now exists props.
Qed.

(** What the rollback of a forced receive does: it lists, rolls back and
    destroys, leaves the filesystems as they are, and does not fail unless
    one of its calls does. *)
Lemma rollbackForForcedRecv_spec flt fsdp w r w' :
  rollbackForForcedRecv flt fsdp w = (r, w') ->
  filesystems w' !! ToString fsdp = filesystems w !! ToString fsdp
  /\ resumable w' = resumable w
  /\ (exists later, calls w' = later ++ calls w
        /\ forall c, In c later ->
             c = CallList \/ (exists a s, c = CallRollback a s) \/ (exists a, c = CallDestroy a))
  /\ ((forall w0 c, flt w0 c = None) -> r = Ok tt).
Proof.
  unfold rollbackForForcedRecv. rewrite bindM_run. unfold mapErr at 1.
  rewrite ZFSListFilesystemVersions_run.
  assert (L1 : forall c, In c [CallList] ->
             c = CallList \/ (exists a s, c = CallRollback a s) \/ (exists a, c = CallDestroy a)).
  { intros c [<-|[]]. now left. }
  destruct (flt w CallList) as [e|] eqn:F1.
  { intros [= <- <-]. split; [reflexivity|]. split; [reflexivity|].
    split; [exists [CallList]; split; [reflexivity|exact L1]|].
    intros Hno. rewrite Hno in F1. discriminate. }
  cbv zeta.
  destruct (sortSlice _ _) as [|rollbackTarget rest] eqn:Hs.
  { intros [= <- <-]. split; [reflexivity|]. split; [reflexivity|].
    split; [exists [CallList]; split; [reflexivity|exact L1]|]. reflexivity. }
  destruct (rollbackTarget_listed _ _ _ _ Hs) as (Hty & props & Hprops).
  set (abs := ToAbsPath rollbackTarget fsdp) in *.
  rewrite bindM_run. unfold mapErr at 1, ZFSRollback. rewrite Hty. fold abs.
  rewrite bindM_run, call_run. unfold effect.
  set (c2 := CallRollback ["-r"] abs).
  assert (L2 : forall c, In c [c2; CallList] ->
             c = CallList \/ (exists a s, c = CallRollback a s) \/ (exists a, c = CallDestroy a)).
  { intros c [<-|[<-|[]]]; [right; left; eauto|now left]. }
  destruct (flt (record CallList w) c2) as [e|] eqn:F2.
  { intros [= <- <-]. split; [reflexivity|]. split; [reflexivity|].
    split; [exists [c2; CallList]; split; [reflexivity|exact L2]|].
    intros Hno. rewrite Hno in F2. discriminate. }
  rewrite !versions_record, Hprops.
  set (w3 := setVersions _ _).
  unfold mapErr. rewrite ZFSDestroy_run.
  set (c3 := CallDestroy abs).
  assert (L3 : forall c, In c [c3; c2; CallList] ->
             c = CallList \/ (exists a s, c = CallRollback a s) \/ (exists a, c = CallDestroy a)).
  { intros c [<-|H]; [right; right; eauto|now apply L2]. }
  assert (Hv3 : versions w3 !! abs = Some props).
  { subst w3. cbn [versions setVersions]. apply map_lookup_filter_Some. split; [exact Hprops|].
    cbn [snd]. rewrite N.ltb_irrefl, andb_false_r. reflexivity. }
  destruct (flt w3 c3) as [e|] eqn:F3.
  { intros [= <- <-]. split; [reflexivity|]. split; [reflexivity|].
    split; [exists [c3; c2; CallList]; split; [reflexivity|exact L3]|].
    intros Hno. rewrite Hno in F3. discriminate. }
  rewrite Hv3. rewrite bool_decide_eq_true_2 by eauto.
  intros [= <- <-]. split; [reflexivity|]. split; [reflexivity|].
  split; [exists [c3; c2; CallList]; split; [reflexivity|exact L3]|]. reflexivity.
Qed.

(** A receive without rollback-and-force goes straight to [zfs recv]. *)
Lemma ZFSRecv_unforced flt fs sc savePartialRecvState :
  ZFSRecv flt fs sc {| RollbackAndForceRecv := false;
                       SavePartialRecvState := savePartialRecvState |}
  = (lift (validateZFSFilesystem fs);;
     lift (NewDatasetPath fs);;
     call flt (CallRecv fs {| RollbackAndForceRecv := false;
                              SavePartialRecvState := savePartialRecvState |});;
     effect (fun w =>
       let ph := match filesystems w !! fs with
                 | Some p => placeholder p
                 | None => false
                 end in
       (Ok tt, setFilesystems
                 (<[fs := {| placeholder := ph; receive_resume_token := "" |}]>
                    (filesystems w)) w))).
Proof. reflexivity. Qed.

Lemma ZFSRecv_keeps flt fs sc opts w r w' b :
  ZFSRecv flt fs sc opts w = (r, w') ->
  keepsPlaceholder fs b w w'
  /\ exists later, calls w' = later ++ calls w
                   /\ (forall fs' opts', In (CallRecv fs' opts') later -> fs' = fs /\ opts' = opts)
                   /\ (r = Ok tt -> In (CallRecv fs opts) later).
Proof.
  unfold ZFSRecv, lift. rewrite bindM_run.
  destruct (validateZFSFilesystem fs) as [[]|e|m].
  2,3: intros [= <- <-]; split; [intros H; exact H | exists []; split; [reflexivity |
         split; [intros ? ? [] | intros E; discriminate E]]].
  rewrite bindM_run.
  destruct (NewDatasetPath fs) as [dp|e|m] eqn:Hdp.
  2,3: intros [= <- <-]; split; [intros H; exact H | exists []; split; [reflexivity |
         split; [intros ? ? [] | intros E; discriminate E]]].
  apply NewDatasetPath_Ok_ToString in Hdp.
  rewrite bindM_run.
  destruct ((if RollbackAndForceRecv opts then rollbackForForcedRecv flt dp else mret tt) w)
    as [r1 w1] eqn:H1.
  assert (K1 : filesystems w1 !! fs = filesystems w !! fs
               /\ exists l1, calls w1 = l1 ++ calls w
                    /\ forall fs' opts', ~ In (CallRecv fs' opts') l1).
  { destruct (RollbackAndForceRecv opts).
    - apply rollbackForForcedRecv_spec in H1 as (Hf & _ & (l1 & Hl1 & Hc) & _).
      rewrite Hdp in Hf. split; [exact Hf|]. exists l1. split; [exact Hl1|].
      intros fs' opts' Hin. destruct (Hc _ Hin) as [E|[(a & s & E)|(a & E)]]; discriminate E.
    - injection H1 as <- <-. split; [reflexivity|]. exists []. split; [reflexivity|intros ? ? []]. }
  destruct K1 as (Hf1 & l1 & Hl1 & Hn1).
  assert (Hstop : forall r0 : result unit, r0 <> Ok tt -> (r0, w1) = (r, w') ->
    keepsPlaceholder fs b w w'
    /\ exists later, calls w' = later ++ calls w
         /\ (forall fs' opts', In (CallRecv fs' opts') later -> fs' = fs /\ opts' = opts)
         /\ (r = Ok tt -> In (CallRecv fs opts) later)).
  { intros r0 Hr0 [= <- <-]. split; [unfold keepsPlaceholder; now rewrite Hf1|].
    exists l1. split; [exact Hl1|]. split; [|intros E; contradiction].
    intros fs' opts' Hin. exfalso. eapply Hn1; eauto. }
  destruct r1 as [[]|e|m]; [|apply Hstop; discriminate..].
  rewrite bindM_run, call_run. unfold effect.
  assert (Hlater : forall fs' opts', In (CallRecv fs' opts') (CallRecv fs opts :: l1) ->
                     fs' = fs /\ opts' = opts).
  { intros fs' opts' [E|Hin]; [injection E as <- <-; split; reflexivity|].
    exfalso. eapply Hn1; eauto. }
  destruct (flt w1 _).
  { intros [= <- <-]. split; [unfold keepsPlaceholder; rewrite filesystems_record; now rewrite Hf1|].
    exists (CallRecv fs opts :: l1).
    split; [cbn; now rewrite Hl1|]. split; [exact Hlater | intros E; discriminate E]. }
  rewrite filesystems_record. intros [= <- <-]. split.
  - intros (p & Hp & Hb). rewrite Hf1, Hp. eexists. cbn. rewrite lookup_insert_eq.
    split; [reflexivity | exact Hb].
  - exists (CallRecv fs opts :: l1). split; [cbn; now rewrite Hl1|].
    split; [exact Hlater | intros _; now left].
Qed.








(** A forced receive into a filesystem with the snapshots [a] (createtxg 3)
    and [b] (createtxg 7) and a bookmark: the rollback goes to [a], the
    earliest snapshot, which is destroyed next, and [zfs recv -F] comes
    last; the versions of another filesystem stay. *)
Example ZFSRecv_forced_rolls_back :
  let w := {| filesystems := {[ "tank" := Demo.plainFS; "tank/p" := Demo.plainFS ]};
              versions := {[ "tank/p@b" := {| CreateTXG := 7; Guid := 70 |};
                             "tank/p@a" := {| CreateTXG := 3; Guid := 30 |};
                             "tank/p#m" := {| CreateTXG := 5; Guid := 50 |};
                             "tank/q@z" := {| CreateTXG := 9; Guid := 90 |} ]};
              resumable := true;
              calls := [] |} in
  let out := ZFSRecv Demo.noFaults "tank/p" Demo.someStream
               {| RollbackAndForceRecv := true; SavePartialRecvState := false |} w in
  fst out = Ok tt
  /\ calls (snd out)
     = [CallRecv "tank/p" {| RollbackAndForceRecv := true; SavePartialRecvState := false |};
        CallDestroy "tank/p@a"; CallRollback ["-r"] "tank/p@a"; CallList]
  /\ map fst (map_to_list (versions (snd out))) = ["tank/q@z"].
Proof. vm_compute. repeat split. Qed.


(** ** The walk that creates placeholder parents (C3) *)

Lemma ZFSCreatePlaceholderFilesystem_run flt p w :
  ZFSCreatePlaceholderFilesystem flt p w
  = match flt w (CallCreatePlaceholder (ToString p)) with
    | Some e => (Err e, record (CallCreatePlaceholder (ToString p)) w)
    | None =>
        match filesystems w !! ToString p with
        | Some _ => (Err (ZFSError "dataset already exists"),
                     record (CallCreatePlaceholder (ToString p)) w)
        | None =>
            (Ok tt, setFilesystems
                      (<[ToString p := {| placeholder := true; receive_resume_token := "" |}]>
                         (filesystems w))
                      (record (CallCreatePlaceholder (ToString p)) w))
        end
    end.
Proof.
  unfold ZFSCreatePlaceholderFilesystem. rewrite bindM_run, call_run. unfold effect.
  destruct (flt w _); [reflexivity|]. cbn.
  destruct (filesystems w !! ToString p); reflexivity.
Qed.

Lemma walked_refl root vs w : walked root vs w w.
Proof.
  split; [exists []; split; [reflexivity | intros fs []]|].
  split; [reflexivity | intros fs; now left].
Qed.

Lemma walked_probe root vs w c :
  (forall fs, c <> CallCreatePlaceholder fs) -> walked root vs w (record c w).
Proof.
  intros Hc. split; [exists [c]; split; [reflexivity|]|].
  - intros fs [E|[]]. exfalso. eapply Hc; eauto.
  - split; [reflexivity | intros fs; now left].
Qed.

Lemma walked_trans root v vs w w1 w' :
  walked root [v] w w1 -> walked root vs w1 w' -> walked root (v :: vs) w w'.
Proof.
  intros ((nc1 & Hc1 & Hn1) & Hv1 & Hf1) ((nc2 & Hc2 & Hn2) & Hv2 & Hf2).
  split; [|split].
  - exists (nc2 ++ nc1). split; [rewrite Hc2, Hc1; now rewrite app_assoc|].
    intros fs Hin. apply in_app_or in Hin as [Hin|Hin].
    + destruct (Hn2 fs Hin) as (p & Hp & H). exists p. split; [now right | exact H].
    + destruct (Hn1 fs Hin) as (p & [<-|[]] & H). exists v. split; [now left | exact H].
  - congruence.
  - intros fs. destruct (Hf1 fs) as [E1|(N1 & S1 & p1 & [<-|[]] & H1)];
      destruct (Hf2 fs) as [E2|(N2 & S2 & p2 & Hp2 & H2)].
    + left. congruence.
    + right. split; [congruence|]. split; [exact S2|]. exists p2. split; [now right | exact H2].
    + right. split; [exact N1|]. split; [congruence|]. exists v. split; [now left | exact H1].
    + congruence.
Qed.

Lemma visitor_step flt s lp v w :
  exists visitChildTree r w1,
    Endpoint.visitor flt s lp v (Ok tt, w) = (visitChildTree, (r, w1))
    /\ walked (Endpoint.rootWithoutClientComponent s) [v] w w1
    /\ (visitChildTree = true -> r = Ok tt).
Proof.
  unfold Endpoint.visitor.
  destruct (Equal v lp).
  { eexists _, _, _. split; [reflexivity|]. split; [apply walked_refl | discriminate]. }
  rewrite ZFSGetFilesystemPlaceholderState_run.
  set (probe := CallGetPlaceholder (ToString v)).
  assert (Hprobe : walked (Endpoint.rootWithoutClientComponent s) [v] w (record probe w)).
  { apply walked_probe. intros fs E. discriminate E. }
  destruct (flt w probe).
  { eexists _, _, _. split; [reflexivity|]. split; [exact Hprobe | discriminate]. }
  destruct (filesystems w !! ToString v) as [fsp|] eqn:Hfs; cbn [FSExists negb].
  { eexists _, _, _. split; [reflexivity|]. split; [exact Hprobe | reflexivity]. }
  destruct (HasPrefix (Endpoint.rootWithoutClientComponent s) v) eqn:Hroot.
  { eexists _, _, _. split; [reflexivity|]. split; [exact Hprobe | discriminate]. }
  rewrite ZFSCreatePlaceholderFilesystem_run.
  set (create := CallCreatePlaceholder (ToString v)).
  assert (Hcreate : walked (Endpoint.rootWithoutClientComponent s) [v] w
                      (record create (record probe w))).
  { split; [exists [create; probe]; split; [reflexivity|]|].
    - intros fs [E|[E|[]]]; [|discriminate E]. injection E as <-.
      exists v. split; [now left|]. split; [reflexivity | exact Hroot].
    - split; [reflexivity | intros fs; now left]. }
  destruct (flt (record probe w) create).
  { eexists _, _, _. split; [reflexivity|]. split; [exact Hcreate | discriminate]. }
  rewrite filesystems_record, Hfs.
  eexists _, _, _. split; [reflexivity|]. split; [|reflexivity].
  split; [exists [create; probe]; split; [reflexivity|]|].
  - intros fs [E|[E|[]]]; [|discriminate E]. injection E as <-.
    exists v. split; [now left|]. split; [reflexivity | exact Hroot].
  - split; [reflexivity|]. intros fs. cbn.
    destruct (decide (ToString v = fs)) as [<-|Hne].
    + right. rewrite lookup_insert_eq. split; [exact Hfs|]. split; [reflexivity|].
      exists v. split; [now left|]. split; [reflexivity | exact Hroot].
    + left. now rewrite lookup_insert_ne.
Qed.

Lemma WalkTopDown_walked flt s lp vs : forall w r w',
  WalkTopDown vs (Endpoint.visitor flt s lp) (Ok tt, w) = (r, w') ->
  walked (Endpoint.rootWithoutClientComponent s) vs w w'.
Proof.
  induction vs as [|v vs IH]; intros w r w' H.
  - cbn in H. injection H as <- <-. apply walked_refl.
  - cbn [WalkTopDown] in H.
    destruct (visitor_step flt s lp v w) as (b & r1 & w1 & Hstep & Hw & Hr).
    rewrite Hstep in H. destruct b.
    + rewrite (Hr eq_refl) in H. eapply walked_trans; [exact Hw | eapply IH; eauto].
    + injection H as <- <-. eapply walked_trans; [exact Hw | apply walked_refl].
Qed.

Lemma forestOf_In lp p :
  In p (forestOf lp) ->
  exists n, 1 <= n <= length (comps lp) /\ comps p = firstn n (comps lp).
Proof.
  unfold forestOf. rewrite in_map_iff. intros (n & <- & Hn).
  apply in_seq in Hn. exists n. split; [lia | reflexivity].
Qed.

(** A prefix of a path below the root is an ancestor of the root or lies
    strictly below it. *)
Lemma prefix_below_root lp root p n c rest :
  comps lp = comps root ++ c :: rest ->
  comps p = firstn n (comps lp) ->
  HasPrefix root p = false ->
  strictlyBelow p root.
Proof.
  intros Hlp Hp Hnot. rewrite Hlp in Hp.
  destruct (Nat.le_gt_cases n (length (comps root))) as [Hle|Hgt].
  - exfalso. rewrite firstn_app in Hp.
    replace (n - length (comps root)) with 0 in Hp by lia.
    cbn in Hp. rewrite app_nil_r in Hp.
    assert (HasPrefix root p = true); [|congruence].
    apply HasPrefix_spec. exists (skipn n (comps root)).
    now rewrite Hp, firstn_skipn.
  - rewrite firstn_app in Hp. rewrite firstn_all2 in Hp by lia.
    destruct (n - length (comps root)) as [|k] eqn:E; [lia|].
    cbn in Hp. exists c, (firstn k rest). exact Hp.
Qed.

Lemma MapToLocal_below croot fs lp :
  Endpoint.MapToLocal {| Endpoint.localRoot := croot |} fs = Ok lp ->
  exists c rest, comps lp = comps croot ++ c :: rest.
Proof.
  unfold Endpoint.MapToLocal. intros H.
  apply bind_Ok in H as (p & Hp & H).
  apply bind_Ok in H as ([] & Hlen & H). apply check_Ok in Hlen.
  injection H as <-. cbn. unfold Length in Hlen.
  destruct (comps p) as [|c rest]; [discriminate Hlen | eauto].
Qed.

(** X1. The walk of [Receive], for a target below the root: whatever
    fails, every filesystem that the walk creates lies strictly below the
    root, did not exist before and is a placeholder, and no creation is
    asked for anywhere else. *)
Theorem createPlaceholderParents_below_root flt s lp w r w' :
  strictlyBelow lp (Endpoint.rootWithoutClientComponent s) ->
  Endpoint.createPlaceholderParents flt s lp w = (r, w') ->
  (exists newcalls,
      calls w' = newcalls ++ calls w
      /\ forall fs, In (CallCreatePlaceholder fs) newcalls ->
           exists p, fs = ToString p
                     /\ strictlyBelow p (Endpoint.rootWithoutClientComponent s))
  /\ forall fs,
       filesystems w' !! fs <> filesystems w !! fs ->
       filesystems w !! fs = None
       /\ filesystems w' !! fs = Some {| placeholder := true; receive_resume_token := "" |}
       /\ exists p, fs = ToString p
                    /\ strictlyBelow p (Endpoint.rootWithoutClientComponent s).
Proof.
  intros (c & rest & Hlp) H. unfold Endpoint.createPlaceholderParents in H.
  apply WalkTopDown_walked in H as ((nc & Hc & Hn) & _ & Hf).
  assert (Hbelow : forall p, In p (forestOf lp) ->
            HasPrefix (Endpoint.rootWithoutClientComponent s) p = false ->
            strictlyBelow p (Endpoint.rootWithoutClientComponent s)).
  { intros p Hp Hnot. apply forestOf_In in Hp as (n & _ & Hp).
    eapply prefix_below_root; eauto. }
  split.
  - exists nc. split; [exact Hc|]. intros fs Hin.
    destruct (Hn fs Hin) as (p & Hp & -> & Hnot). eauto.
  - intros fs Hne. destruct (Hf fs) as [E|(N & S & p & Hp & -> & Hnot)]; [contradiction|].
    split; [exact N|]. split; [exact S|]. eauto.
Qed.

(** The first missing ancestor is the root or above it: nothing is created
    and the walk fails, with "pool not imported" for a path of one
    component and "root_fs does not exist" otherwise. *)
Lemma WalkTopDown_missing_root flt s lp vs1 v vs2 : forall w,
  (forall w0 fs, flt w0 (CallGetPlaceholder fs) = None) ->
  Forall (fun p => Equal p lp = false /\ filesystems w !! ToString p <> None) vs1 ->
  Equal v lp = false ->
  filesystems w !! ToString v = None ->
  HasPrefix (Endpoint.rootWithoutClientComponent s) v = true ->
  exists w',
    WalkTopDown (vs1 ++ v :: vs2) (Endpoint.visitor flt s lp) (Ok tt, w)
    = (if Nat.eqb (Length v) 1
       then Err (Errorf "pool %q not imported" [FStr (ToString v)])
       else Err (Errorf "root_fs %q does not exist"
                        [FStr (ToString (Endpoint.rootWithoutClientComponent s))]), w')
    /\ filesystems w' = filesystems w /\ versions w' = versions w
    /\ calls w' = CallGetPlaceholder (ToString v)
                  :: rev (map (fun p => CallGetPlaceholder (ToString p)) vs1) ++ calls w.
Proof.
  induction vs1 as [|p vs1 IH]; intros w Hflt Hvs1 Hv Hmiss Hroot.
  - cbn [app WalkTopDown]. unfold Endpoint.visitor. rewrite Hv.
    rewrite ZFSGetFilesystemPlaceholderState_run, Hflt, Hmiss. cbn [FSExists negb].
    rewrite Hroot. eexists. split; [reflexivity|]. repeat split.
  - apply Forall_cons in Hvs1 as [[Hp Hex] Hvs1].
    cbn [app WalkTopDown]. unfold Endpoint.visitor at 1. rewrite Hp.
    rewrite ZFSGetFilesystemPlaceholderState_run, Hflt.
    destruct (filesystems w !! ToString p) as [fsp|] eqn:Hfs; [|congruence].
    cbn [FSExists negb].
    destruct (IH (record (CallGetPlaceholder (ToString p)) w)) as (w' & Hw & Hf & Hvv & Hc);
      auto.
    exists w'. split; [exact Hw|]. split; [exact Hf|]. split; [exact Hvv|].
    rewrite Hc. cbn. rewrite <- app_assoc. reflexivity.
Qed.

(** C3, at an input where the code departs from it. The root is
    [tank/backups] and client identities are appended. The identity
    [../other/x] passes the test of the endpoint, because [path.Join] cleans
    [tank/backups/../other/x] to [tank/other/x], which has one component
    more than the root. A receive of that client into [fs], when only the
    pool [tank] exists, creates the placeholder [tank/other], which is not
    below the root [tank/backups]. *)
Theorem C3_placeholder_created_outside_root :
  Endpoint.TestClientIdentity (Endpoint.rootWithoutClientComponent Demo.receiver) "../other/x"
  = Ok tt
  /\ exists w',
       Endpoint.Receive Demo.noFaults Demo.receiver (Some "../other/x")
         (Demo.receiveReq "fs") Demo.someStream Demo.emptyPool
       = (Ok tt, w')
       /\ In (CallCreatePlaceholder "tank/other") (calls w')
       /\ filesystems Demo.emptyPool !! "tank/other" = None
       /\ filesystems w' !! "tank/other" = Some Demo.placeholderFS
       /\ ~ strictlyBelow {| comps := ["tank"; "other"] |}
                          (Endpoint.rootWithoutClientComponent Demo.receiver).
Proof.
  split; [vm_compute; reflexivity|].
  eexists. split; [vm_compute; reflexivity|].
  split; [cbn; tauto|]. split; [vm_compute; reflexivity|]. split; [vm_compute; reflexivity|].
  intros (c & rest & H). cbn in H. discriminate H.
Qed.


(** ** More on the walk, the cursor and the dry send *)

Lemma forestOf_split lp k :
  S k <= length (comps lp) ->
  forestOf lp
  = map (prefixOf lp) (seq 1 k) ++ prefixOf lp (S k)
      :: map (prefixOf lp) (seq (S (S k)) (length (comps lp) - S k)).
Proof.
  intros Hk. unfold forestOf. fold (prefixOf lp).
  replace (length (comps lp)) with (k + S (length (comps lp) - S k)) at 1 by lia.
  rewrite seq_app, map_app. reflexivity.
Qed.

Lemma Equal_prefixOf_false lp n : n < length (comps lp) -> Equal (prefixOf lp n) lp = false.
Proof.
  intros Hn. destruct (Equal (prefixOf lp n) lp) eqn:E; [|reflexivity].
  apply Equal_spec in E. cbn in E. apply (f_equal (@length string)) in E.
  rewrite length_firstn in E. lia.
Qed.

(** X2. The target is below the root, the ancestors of the root with at
    most [k] components exist, and the next one is missing. Then the walk of
    [Receive] only asks for the placeholder state of these ancestors,
    creates nothing, and fails with "pool not imported" if the missing path
    has one component, and with "root_fs does not exist" otherwise. *)
Theorem createPlaceholderParents_missing_root
  (flt : Faults) (s : Endpoint.Receiver) (lp : DatasetPath) (k : nat) (w : World) :
  strictlyBelow lp (Endpoint.rootWithoutClientComponent s) ->
  S k <= length (comps (Endpoint.rootWithoutClientComponent s)) ->
  (forall w0 fs, flt w0 (CallGetPlaceholder fs) = None) ->
  (forall n, 1 <= n <= k -> filesystems w !! ToString (prefixOf lp n) <> None) ->
  filesystems w !! ToString (prefixOf lp (S k)) = None ->
  exists w',
    Endpoint.createPlaceholderParents flt s lp w
    = (if Nat.eqb k 0
       then Err (Errorf "pool %q not imported" [FStr (ToString (prefixOf lp (S k)))])
       else Err (Errorf "root_fs %q does not exist"
                        [FStr (ToString (Endpoint.rootWithoutClientComponent s))]), w')
    /\ filesystems w' = filesystems w
    /\ calls w'
       = rev (map (fun n => CallGetPlaceholder (ToString (prefixOf lp n))) (seq 1 (S k)))
         ++ calls w.
Proof.
  intros (c & rest & Hlp) Hk Hflt Hex Hmiss.
  assert (Hlen : S k < length (comps lp)).
  { rewrite Hlp, length_app. cbn. lia. }
  unfold Endpoint.createPlaceholderParents.
  rewrite (forestOf_split lp k) by lia.
  destruct (WalkTopDown_missing_root flt s lp (map (prefixOf lp) (seq 1 k)) (prefixOf lp (S k))
              (map (prefixOf lp) (seq (S (S k)) (length (comps lp) - S k))) w)
    as (w' & Hw & Hf & _ & Hc).
  - exact Hflt.
  - apply Forall_forall. intros p Hp. apply list_elem_of_In, in_map_iff in Hp as (n & <- & Hn).
    apply in_seq in Hn. split; [apply Equal_prefixOf_false; lia | apply Hex; lia].
  - apply Equal_prefixOf_false. lia.
  - exact Hmiss.
  - apply HasPrefix_spec. cbn. exists (skipn (S k) (comps (Endpoint.rootWithoutClientComponent s))).
    rewrite Hlp, firstn_app.
    replace (S k - length (comps (Endpoint.rootWithoutClientComponent s))) with 0 by lia.
    cbn [firstn]. rewrite app_nil_r. now rewrite firstn_skipn.
  - exists w'. split.
    + rewrite Hw. unfold Length. cbn [comps prefixOf]. rewrite length_firstn.
      replace (Nat.min (S k) (length (comps lp))) with (S k) by lia.
      destruct k; reflexivity.
    + split; [exact Hf|]. rewrite Hc.
      rewrite seq_S, map_app, rev_app_distr, map_map. reflexivity.
Qed.

Lemma createPlaceholderParents_below_root_witness :
  (exists newcalls,
      calls (snd (Endpoint.createPlaceholderParents Demo.noFaults Demo.receiver
                    Demo.deepTarget Demo.sinkWorld))
      = newcalls ++ calls Demo.sinkWorld
      /\ forall fs, In (CallCreatePlaceholder fs) newcalls ->
           exists p, fs = ToString p
                     /\ strictlyBelow p (Endpoint.rootWithoutClientComponent Demo.receiver))
  /\ forall fs,
       filesystems (snd (Endpoint.createPlaceholderParents Demo.noFaults Demo.receiver
                           Demo.deepTarget Demo.sinkWorld)) !! fs
       <> filesystems Demo.sinkWorld !! fs ->
       filesystems Demo.sinkWorld !! fs = None
       /\ filesystems (snd (Endpoint.createPlaceholderParents Demo.noFaults Demo.receiver
                              Demo.deepTarget Demo.sinkWorld)) !! fs
          = Some {| placeholder := true; receive_resume_token := "" |}
       /\ exists p, fs = ToString p
                    /\ strictlyBelow p (Endpoint.rootWithoutClientComponent Demo.receiver).
Proof.
  apply (createPlaceholderParents_below_root Demo.noFaults Demo.receiver Demo.deepTarget
           Demo.sinkWorld
           (fst (Endpoint.createPlaceholderParents Demo.noFaults Demo.receiver
                   Demo.deepTarget Demo.sinkWorld))).
  - exists "alice", ["proj"; "x"; "y"]. reflexivity.
  - apply surjective_pairing.
Defined.

Example createPlaceholderParents_deepTarget :
  exists w',
    Endpoint.createPlaceholderParents Demo.noFaults Demo.receiver Demo.deepTarget
      Demo.sinkWorld = (Ok tt, w')
    /\ filesystems w' !! "tank/backups/alice/proj/x" = Some Demo.placeholderFS
    /\ filesystems Demo.sinkWorld !! "tank/backups/alice/proj/x" = None.
Proof.
  eexists. split; [vm_compute; reflexivity|]. split; vm_compute; reflexivity.
Qed.

Lemma createPlaceholderParents_missing_root_witness :
  exists w',
    Endpoint.createPlaceholderParents Demo.noFaults Demo.receiver Demo.deepTarget
      Demo.emptyPool
    = (Err (Errorf "root_fs %q does not exist" [FStr "tank/backups"]), w')
    /\ filesystems w' = filesystems Demo.emptyPool
    /\ calls w' = [CallGetPlaceholder "tank/backups"; CallGetPlaceholder "tank"].
Proof.
  apply (createPlaceholderParents_missing_root Demo.noFaults Demo.receiver Demo.deepTarget
           1 Demo.emptyPool).
  - exists "alice", ["proj"; "x"; "y"]. reflexivity.
  - cbn. lia.
  - reflexivity.
  - intros n Hn. assert (n = 1) as -> by lia. vm_compute. discriminate.
  - vm_compute. reflexivity.
Defined.

Lemma ZFSSetReplicationCursor_guid_mismatch_witness :
  exists e w',
    ZFSSetReplicationCursor Demo.noFaults Demo.poolA "s2" 22 Demo.recreatedWorld = (Err e, w')
    /\ versions w' = versions Demo.recreatedWorld
    /\ filesystems w' = filesystems Demo.recreatedWorld
    /\ (calls w' = calls Demo.recreatedWorld
        \/ calls w' = CallGet (zfsBuildSnapName Demo.poolA "s2") :: calls Demo.recreatedWorld).
Proof.
  apply (ZFSSetReplicationCursor_guid_mismatch Demo.noFaults Demo.poolA "s2" 22
           Demo.recreatedWorld {| CreateTXG := 14; Guid := 99 |}).
  - vm_compute. reflexivity.
  - discriminate.
Defined.

Lemma Validate_withDryProcess f env a : Validate (withDryProcess f env) a = Validate env a.
Proof. reflexivity. Qed.

(** X4. A dry send whose [From] is a bookmark gives the size estimate [-1],
    and gives it without running [zfs send -n]: the answer does not depend
    on what that run would return. *)
Theorem ZFSSendDry_bookmark_no_estimate
  (env : ZfsEnv) (a : ZFSSendArgs) (from : ZFSSendArgVersion) (si : DrySendInfo) :
  From a = Some from ->
  ContainsByte (RelName from) "#" = true ->
  ZFSSendDry env a = Ok si ->
  SizeEstimate si = (-1)%Z
  /\ forall f, ZFSSendDry (withDryProcess f env) a = Ok si.
Proof.
  intros Hfrom Hbm H.
  assert (Hall : forall f, ZFSSendDry (withDryProcess f env) a = ZFSSendDry env a).
  { intros f. unfold ZFSSendDry. rewrite Validate_withDryProcess.
    destruct (Validate env a); [|reflexivity..]. now rewrite Hfrom, Hbm. }
  split; [|intros f; now rewrite Hall].
  unfold ZFSSendDry in H. destruct (Validate env a); try discriminate H.
  rewrite Hfrom, Hbm in H.
  apply bind_Ok in H as (fromAbs & _ & H).
  apply bind_Ok in H as (to & _ & H).
  apply bind_Ok in H as (toAbs & _ & H).
  injection H as <-. reflexivity.
Qed.

Lemma ZFSSendDry_bookmark_no_estimate_witness :
  SizeEstimate {| Type_ := DrySendTypeIncremental; Filesystem := "pool/a";
                  DryFrom := "pool/a#b1"; DryTo := "pool/a@s2"; SizeEstimate := (-1) |}
  = (-1)%Z
  /\ forall f,
       ZFSSendDry (withDryProcess f Demo.zfsEnv) Demo.sendArgsFromBookmark
       = Ok {| Type_ := DrySendTypeIncremental; Filesystem := "pool/a";
               DryFrom := "pool/a#b1"; DryTo := "pool/a@s2"; SizeEstimate := (-1) |}.
Proof.
  apply (ZFSSendDry_bookmark_no_estimate Demo.zfsEnv Demo.sendArgsFromBookmark
           {| RelName := "#b1"; GUID := 11 |}); reflexivity.
Defined.

(** ** Dataset paths: prefixes, extension and trimming *)

Lemma DatasetPath_eta p : {| comps := comps p |} = p.
Proof. now destruct p. Qed.

(** X5. [TrimPrefix] undoes [Extend]: a path that was built by extending
    [prefix] with [rest] is trimmed back to [rest], a path that has the
    prefix is rebuilt by extending the prefix with what trimming leaves, and
    a path that does not have the prefix is left as it is. Trimming a prefix
    is trimming as many components as the prefix has. *)
Theorem TrimPrefix_Extend_roundtrip :
  (forall prefix rest, TrimPrefix (Extend (Copy prefix) rest) prefix = rest)
  /\ (forall p prefix, HasPrefix p prefix = true ->
        Extend (Copy prefix) (TrimPrefix p prefix) = p)
  /\ (forall p prefix, HasPrefix p prefix = false -> TrimPrefix p prefix = p)
  /\ (forall p prefix, HasPrefix p prefix = true ->
        TrimPrefix p prefix = TrimNPrefixComps p (Length prefix)).
Proof.
  split; [|split; [|split]].
  - intros prefix rest.
    rewrite (TrimPrefix_app _ prefix (comps rest)) by reflexivity.
    apply DatasetPath_eta.
  - intros p prefix H. apply HasPrefix_spec in H as [rest H].
    rewrite (TrimPrefix_app p prefix rest H). unfold Extend, Copy. cbn [comps].
    rewrite <- H. apply DatasetPath_eta.
  - intros p prefix H. unfold TrimPrefix. now rewrite H.
  - intros p prefix H. apply HasPrefix_spec in H as [rest H].
    rewrite (TrimPrefix_app p prefix rest H). unfold TrimNPrefixComps, Length.
    rewrite H, length_app.
    destruct (Nat.ltb_spec (length (comps prefix) + length rest) (length (comps prefix)));
      [lia|].
    destruct (Nat.eqb_spec (length (comps prefix)) 0) as [E|E].
    + destruct (comps prefix); [|discriminate E]. cbn in H. rewrite <- H.
      apply DatasetPath_eta.
    + f_equal. now rewrite skipn_app, skipn_all, Nat.sub_diag.
Qed.

(** X6. [HasPrefix] is a partial order on dataset paths, with [Equal] as its
    equality: every path has itself and the empty path as a prefix, a prefix
    of a prefix is a prefix, and two paths that are prefixes of each other
    are equal. *)
Theorem HasPrefix_partial_order :
  (forall p, HasPrefix p p = true)
  /\ (forall p, HasPrefix p {| comps := [] |} = true)
  /\ (forall p q r, HasPrefix p q = true -> HasPrefix q r = true -> HasPrefix p r = true)
  /\ (forall p q, HasPrefix p q = true -> HasPrefix q p = true -> Equal p q = true)
  /\ (forall p q, Equal p q = true -> HasPrefix p q = true /\ Equal q p = true).
Proof.
  split; [|split; [|split; [|split]]].
  - intros p. apply HasPrefix_spec. exists []. now rewrite app_nil_r.
  - intros p. apply HasPrefix_spec. now exists (comps p).
  - intros p q r [x Hx]%HasPrefix_spec [y Hy]%HasPrefix_spec.
    apply HasPrefix_spec. exists (y ++ x). now rewrite Hx, Hy, <- app_assoc.
  - intros p q [x Hx]%HasPrefix_spec [y Hy]%HasPrefix_spec.
    apply Equal_spec. rewrite Hy in Hx.
    assert (E : length (comps p) = length ((comps p ++ y) ++ x)) by now rewrite <- Hx.
    rewrite !length_app in E. destruct y; [|cbn in E; lia].
    now rewrite app_nil_r in Hy.
  - intros p q E%Equal_spec. split.
    + apply HasPrefix_spec. exists []. now rewrite app_nil_r.
    + now apply Equal_spec.
Qed.
(** ** The receiver's mapping of client names *)

(** X7. What [MapToLocal] maps a client's filesystem name to passes the filter
    of [ListFilesystems] for the same root, and trimming the root from it,
    as [ListFilesystems] does, gives the client's name back. *)
Theorem MapToLocal_listed_under_same_name (root : DatasetPath) (fs : string) (lp : DatasetPath) :
  Endpoint.MapToLocal {| Endpoint.localRoot := root |} fs = Ok lp ->
  Endpoint.Filter {| Endpoint.localRoot := root |} lp = Ok true
  /\ ToString (TrimPrefix lp root) = fs
  /\ fs <> "".
Proof.
  unfold Endpoint.MapToLocal. cbn [Endpoint.localRoot].
  intros H. apply bind_Ok in H as (p & Hp & H).
  apply bind_Ok in H as ([] & Hlen & H). injection H as <-.
  apply check_Ok, negb_true_iff, Nat.eqb_neq in Hlen. unfold Length in Hlen.
  pose proof (NewDatasetPath_Ok_ToString _ _ Hp) as Hs.
  split; [|split].
  - apply Filter_spec. destruct (comps p) as [|c rest] eqn:E; [contradiction|].
    exists c, rest. unfold Extend, Copy. cbn [comps]. now rewrite E.
  - rewrite (TrimPrefix_app _ root (comps p)) by reflexivity.
    now rewrite DatasetPath_eta.
  - intros ->. unfold NewDatasetPath in Hp. cbn in Hp. injection Hp as <-.
    now apply Hlen.
Qed.

Lemma MapToLocal_listed_under_same_name_witness :
  Endpoint.Filter {| Endpoint.localRoot := {| comps := ["tank"; "backups"; "alice"] |} |}
                  {| comps := ["tank"; "backups"; "alice"; "var"; "log"] |} = Ok true
  /\ ToString (TrimPrefix {| comps := ["tank"; "backups"; "alice"; "var"; "log"] |}
                          {| comps := ["tank"; "backups"; "alice"] |}) = "var/log"
  /\ "var/log" <> "".
Proof.
  apply (MapToLocal_listed_under_same_name
           {| comps := ["tank"; "backups"; "alice"] |} "var/log").
  reflexivity.
Defined.

(** ** Send arguments: versions that do not exist, and encryption *)

(** X8. A version whose GUID cannot be read is rejected, whatever the error is
    and whatever GUID the arguments expect: [ZFSGetGUID] reformats every
    error, so the case of [ZFSSendArgVersion.Validate] that lets a dataset
    that does not exist pass as GUID 0 is never taken. Nothing is sent to or
    from such a version. *)
Theorem Validate_rejects_unreadable_version (env : ZfsEnv) (a : ZFSSendArgVersion)
  (fs : string) (e : error) :
  zfsGetGuid env (fs +:+ RelName a) = Fail e ->
  isOk (ZFSSendArgVersion_Validate env a fs) = false
  /\ (forall args, FS args = fs -> To args = Some a \/ From args = Some a ->
        isOk (Validate env args) = false
        /\ isOk (ZFSSend env args) = false
        /\ isOk (ZFSSendDry env args) = false).
Proof.
  intros Hguid.
  assert (Hv : isOk (ZFSSendArgVersion_Validate env a fs) = false).
  { unfold ZFSSendArgVersion_Validate.
    destruct (check (negb (Nat.eqb (String.length (RelName a)) 0)) _) as [[]| |];
      [|reflexivity..]. cbn -[ZFSGetGUID].
    destruct (check (IndexAny (slice01 (RelName a)) "@#" =? 0)%Z _) as [[]| |] eqn:Hc;
      [|reflexivity..]. cbn -[ZFSGetGUID].
    destruct (String.eqb fs ""); [reflexivity|]. cbn -[ZFSGetGUID].
    unfold ZFSGetGUID.
    destruct (validateZFSFilesystem fs) as [[]| |]; [|reflexivity..]. cbn.
    destruct (Nat.eqb (String.length (RelName a)) 0); [reflexivity|]. cbn.
    destruct (IndexAny (slice01 (RelName a)) "@#" =? 0)%Z; [|reflexivity]. cbn.
    rewrite Hguid. reflexivity. }
  split; [exact Hv|].
  intros args Hfs Hver.
  assert (Hval : isOk (Validate env args) = false).
  { unfold Validate. rewrite Hfs.
    destruct (match NewDatasetPath fs with Ok dp => _ | _ => _ end) as [[]| |];
      [|reflexivity..]. cbn -[ZFSSendArgVersion_Validate validateCorrespondsToResumeToken].
    destruct (To args) as [to|] eqn:Hto; [|reflexivity].
    destruct Hver as [[= ->]|Hfrom].
    - destruct (ZFSSendArgVersion_Validate env a fs) as [[]| |]; [discriminate Hv|reflexivity..].
    - destruct (ZFSSendArgVersion_Validate env to fs) as [[]| |]; [|reflexivity..].
      cbn -[ZFSSendArgVersion_Validate validateCorrespondsToResumeToken].
      rewrite Hfrom.
      destruct (ZFSSendArgVersion_Validate env a fs) as [[]| |]; [discriminate Hv|reflexivity..]. }
  split; [exact Hval|].
  unfold ZFSSend, ZFSSendDry.
  destruct (Validate env args) as [[]| |]; [discriminate Hval|split; reflexivity..].
Qed.
Lemma Validate_rejects_unreadable_version_witness :
  isOk (ZFSSendArgVersion_Validate Demo.zfsEnv {| RelName := "@gone"; GUID := 0 |} "pool/a")
  = false
  /\ (forall args, FS args = "pool/a" ->
        To args = Some {| RelName := "@gone"; GUID := 0 |}
        \/ From args = Some {| RelName := "@gone"; GUID := 0 |} ->
        isOk (Validate Demo.zfsEnv args) = false
        /\ isOk (ZFSSend Demo.zfsEnv args) = false
        /\ isOk (ZFSSendDry Demo.zfsEnv args) = false).
Proof.
  apply (Validate_rejects_unreadable_version Demo.zfsEnv {| RelName := "@gone"; GUID := 0 |}
           "pool/a" (DatasetDoesNotExist "pool/a@gone")).
  reflexivity.
Defined.

Lemma absVersion_Ok fs v s : absVersion fs v = Ok s -> s = fs +:+ RelName v.
Proof.
  unfold absVersion. destruct (validateZFSFilesystem fs) as [[]| |]; cbn; congruence.
Qed.

(** X9. Whenever [ZFSSend] starts [zfs send], the stream it asks for is raw
    exactly if the arguments ask for an encrypted send, and an encrypted
    send is only started on a filesystem that is encrypted. Without a resume
    token the command line is [send [-w] [-i from] to], with [-w] exactly
    for an encrypted send; with a resume token it is [send -t token], and
    the token has [rawok] and [compressok] both set for an encrypted send
    and both unset otherwise. *)
Theorem ZFSSend_raw_iff_encrypted (env : ZfsEnv) (a : ZFSSendArgs) (sc : sendStreamCopier) :
  ZFSSend env a = Ok sc ->
  exists enc to sargs stdout,
    Encrypted a = Some enc /\ To a = Some to
    /\ zfsSendProcess env ("send" :: sargs) = Reply stdout
    /\ sc = newSendStreamCopier stdout
    /\ (B enc = true -> ZFSGetEncryptionEnabled env (FS a) = Reply true)
    /\ if String.eqb (ResumeToken a) ""
       then sargs = (if B enc then ["-w"] else [])
                    ++ match From a with
                       | Some from => ["-i"; FS a +:+ RelName from; FS a +:+ RelName to]
                       | None => [FS a +:+ RelName to]
                       end
       else sargs = ["-t"; ResumeToken a]
            /\ exists t, ParseResumeToken env (ResumeToken a) = Reply t
                         /\ RawOK t = B enc /\ CompressOK t = B enc.
Proof.
  intros H. pose proof (ZFSSend_Ok_Validate _ _ _ H) as Hval.
  destruct (Validate_Ok _ _ Hval) as (Hfs & [to Hto] & [enc Henc] & Htok).
  unfold ZFSSend in H. rewrite Hval in H.
  apply bind_Ok in H as (sargs & Hargs & H).
  apply bind_Ok in H as (stdout & Hproc & H). injection H as <-.
  apply ask_Ok in Hproc.
  exists enc, to, sargs, stdout.
  split; [exact Henc|]. split; [exact Hto|]. split; [exact Hproc|]. split; [reflexivity|].
  split.
  - (* the check of [Validate] that an encrypted send needs an encrypted
       filesystem *)
    intros HB. clear Hargs Htok.
    unfold Validate in Hval.
    do 4 (apply bind_Ok in Hval as (? & _ & Hval)).
    apply bind_Ok in Hval as (fsEncrypted & Hq & Hval).
    rewrite Henc in Hval. cbn [deref] in Hval.
    apply bind_Ok in Hval as (? & [= <-] & Hval).
    apply bind_Ok in Hval as ([] & Hc & _).
    apply check_Ok in Hc. rewrite HB in Hc. cbn in Hc.
    apply negb_true_iff, negb_false_iff in Hc. subst fsEncrypted.
    destruct (ZFSGetEncryptionEnabled env (FS a)) as [b|e]; cbn in Hq; congruence.
  - unfold buildCommonSendArgs in Hargs.
    destruct (String.eqb_spec (ResumeToken a) "") as [E|E]; cbn [negb] in Hargs.
    + rewrite Henc, Hto in Hargs. cbn [deref] in Hargs.
      apply bind_Ok in Hargs as (? & [= <-] & Hargs).
      apply bind_Ok in Hargs as (? & [= <-] & Hargs).
      apply bind_Ok in Hargs as (toV & HtoV & Hargs).
      apply absVersion_Ok in HtoV. subst toV.
      apply bind_Ok in Hargs as (fromV & HfromV & Hargs).
      destruct (From a) as [from|].
      * apply absVersion_Ok in HfromV. subst fromV.
        destruct (String.eqb_spec (FS a +:+ RelName from) "") as [E'|E'].
        -- exfalso. apply Hfs. destruct (FS a); [reflexivity|discriminate E'].
        -- now injection Hargs as <-.
      * injection HfromV as <-. cbn in Hargs. now injection Hargs as <-.
    + injection Hargs as <-. split; [reflexivity|].
      destruct (validateCorrespondsToResumeToken_sound env a E (Htok E))
        as (t & tokenFS & snap & Hparse & _ & Hcorr).
      exists t. split; [exact Hparse|].
      destruct Hcorr as (_ & _ & _ & _ & _ & (enc' & Henc' & Hflags)).
      rewrite Henc in Henc'. injection Henc' as <-.
      destruct (B enc); destruct Hflags as [-> ->]; split; reflexivity.
Qed.

Lemma ZFSSend_raw_iff_encrypted_witness :
  exists enc to sargs stdout,
    Encrypted (Demo.sendArgs "1-good") = Some enc /\ To (Demo.sendArgs "1-good") = Some to
    /\ zfsSendProcess Demo.zfsEnv ("send" :: sargs) = Reply stdout
    /\ newSendStreamCopier [("stream", Some EOF)] = newSendStreamCopier stdout
    /\ (B enc = true -> ZFSGetEncryptionEnabled Demo.zfsEnv "pool/a" = Reply true)
    /\ sargs = ["-t"; "1-good"]
       /\ exists t, ParseResumeToken Demo.zfsEnv "1-good" = Reply t
                    /\ RawOK t = B enc /\ CompressOK t = B enc.
Proof.
  apply (ZFSSend_raw_iff_encrypted Demo.zfsEnv (Demo.sendArgs "1-good")
           (newSendStreamCopier [("stream", Some EOF)])).
  reflexivity.
Defined.

(** ** The replication cursor: what a successful move leaves behind *)

Lemma mapErr_Ok {A} (f : error -> error) (m : M A) w a w' :
  mapErr f m w = (Ok a, w') -> m w = (Ok a, w').
Proof. unfold mapErr. destruct (m w) as [[x|e|msg] w0]; congruence. Qed.

Lemma ZFSBookmark_Ok flt fs snapshot bookmark w w' :
  ZFSBookmark flt fs snapshot bookmark w = (Ok tt, w') ->
  exists props,
    versions w !! zfsBuildSnapName fs snapshot = Some props
    /\ versions w' = <[zfsBuildBookmarkName fs bookmark := props]> (versions w)
    /\ filesystems w' = filesystems w.
Proof.
  unfold ZFSBookmark. rewrite bindM_run, call_run. unfold effect.
  destruct (flt w _); [discriminate|]. rewrite versions_record.
  destruct (versions w !! zfsBuildSnapName fs snapshot) as [props|]; [|discriminate].
  destruct (versions w !! zfsBuildBookmarkName fs bookmark); [discriminate|].
  intros [= <-]. exists props. repeat split.
Qed.

Lemma ZFSDestroy_Ok_version flt arg w w' props :
  versions w !! arg = Some props ->
  ZFSDestroy flt arg w = (Ok tt, w') ->
  versions w' = delete arg (versions w) /\ filesystems w' = filesystems w.
Proof.
  intros Hv. unfold ZFSDestroy. rewrite bindM_run, call_run. unfold effect.
  destruct (flt w _); [discriminate|]. rewrite versions_record, Hv.
  rewrite bool_decide_eq_true_2 by eauto.
  intros [= <-]. split; reflexivity.
Qed.

Lemma append_inj_l (x a b : string) : x +:+ a = x +:+ b -> a = b.
Proof.
  induction x as [|c x IH]; [exact id|].
  rewrite !append_String. intros [= H]. now apply IH.
Qed.

Lemma zfsBuildSnapName_ne_BookmarkName fs s b :
  zfsBuildSnapName fs s <> zfsBuildBookmarkName fs b.
Proof.
  unfold zfsBuildSnapName, zfsBuildBookmarkName. intros H.
  apply append_inj_l in H. discriminate H.
Qed.

(** X10. After [ZFSSetReplicationCursor] has returned without error, the
    filesystem has a cursor, its GUID is the expected one, and
    [ZFSGetReplicationCursor] returns it. The move touched nothing but the
    cursor: every other snapshot and bookmark, and every filesystem, is as
    before. *)
Theorem ZFSSetReplicationCursor_then_get (flt : Faults) (fs : DatasetPath)
  (snapname : string) (expGuid : N) (w w' : World) :
  ZFSSetReplicationCursor flt fs snapname expGuid w = (Ok tt, w') ->
  exists c,
    versions w' !! cursorOf fs = Some c
    /\ Guid c = expGuid
    /\ (exists snap, versions w' !! zfsBuildSnapName fs snapname = Some snap
                     /\ Guid snap = expGuid)
    /\ (forall flt', flt' w' CallList = None ->
          Endpoint.ZFSGetReplicationCursor flt' fs w' = (Ok (Some c), record CallList w'))
    /\ (forall path, path <> cursorOf fs -> versions w' !! path = versions w !! path)
    /\ filesystems w' = filesystems w.
Proof.
  intros H.
  assert (Hget : forall c, versions w' !! cursorOf fs = Some c ->
            forall flt', flt' w' CallList = None ->
              Endpoint.ZFSGetReplicationCursor flt' fs w' = (Ok (Some c), record CallList w')).
  { intros c Hc flt' Hflt. unfold Endpoint.ZFSGetReplicationCursor.
    rewrite bindM_run, call_run, Hflt. unfold effect. rewrite versions_record.
    fold (cursorOf fs). now rewrite Hc. }
  revert H. unfold ZFSSetReplicationCursor, lift, check.
  rewrite bindM_run. destruct (negb (Nat.eqb (Length fs) 0)); [|discriminate].
  rewrite bindM_run. destruct (negb (Nat.eqb (String.length snapname) 0)); [|discriminate].
  rewrite bindM_run. unfold mapErr at 1. rewrite ZFSGetCreateTXGAndGuid_run.
  fold (zfsBuildSnapName fs snapname).
  fold (zfsBuildBookmarkName fs ReplicationCursorBookmarkName). fold (cursorOf fs).
  destruct (getProps flt (zfsBuildSnapName fs snapname) w) as [snap|e|m] eqn:Hsnap;
    [|discriminate..].
  apply getProps_Ok in Hsnap.
  rewrite bindM_run. destruct (N.eqb_spec expGuid (Guid snap)) as [->|]; [|discriminate].
  rewrite bindM_run. unfold try. rewrite ZFSGetCreateTXGAndGuid_run.
  set (w1 := record (CallGet (zfsBuildSnapName fs snapname)) w).
  set (w2 := record (CallGet (cursorOf fs)) w1).
  assert (Hbookmark : forall w3,
            versions w3 !! zfsBuildSnapName fs snapname = Some snap ->
            mapErr (fun e => Wrap e "cannot create bookmark")
                   (ZFSBookmark flt fs snapname ReplicationCursorBookmarkName) w3 = (Ok tt, w') ->
            versions w' = <[cursorOf fs := snap]> (versions w3)
            /\ filesystems w' = filesystems w3).
  { intros w3 Hs3 Hb. apply mapErr_Ok, ZFSBookmark_Ok in Hb as (props & Hp & Hv & Hf).
    rewrite Hs3 in Hp. injection Hp as <-. split; assumption. }
  assert (Hne := zfsBuildSnapName_ne_BookmarkName fs snapname ReplicationCursorBookmarkName).
  fold (cursorOf fs) in Hne.
  destruct (getProps flt (cursorOf fs) w1) as [cursor|e|m] eqn:Hcur.
  - (* the bookmark does exist *)
    apply getProps_Ok in Hcur. subst w1. rewrite versions_record in Hcur.
    destruct (CreateTXG snap <? CreateTXG cursor)%N; [discriminate|].
    destruct (N.eqb_spec (Guid cursor) (Guid snap)) as [E|E].
    + (* no action required *)
      intros [= <-]. exists cursor. subst w2. rewrite !versions_record.
      split; [exact Hcur|]. split; [exact E|]. split; [eauto|].
      split; [apply Hget; now rewrite !versions_record|]. split; reflexivity.
    + rewrite bindM_run.
      destruct (mapErr _ (ZFSDestroy flt (cursorOf fs)) w2) as [[[]|e|m] w3] eqn:Hd;
        [|discriminate..].
      apply mapErr_Ok in Hd.
      apply (ZFSDestroy_Ok_version _ _ _ _ cursor) in Hd as [Hv3 Hf3];
        [|subst w2; now rewrite versions_record].
      subst w2. rewrite versions_record in Hv3. cbn in Hf3.
      intros Hb. apply Hbookmark in Hb as [Hv Hf].
      2: { rewrite Hv3, lookup_delete_ne by congruence. exact Hsnap. }
      exists snap. rewrite Hv, Hv3.
      split; [apply lookup_insert_eq|]. split; [reflexivity|].
      split.
      { exists snap. split; [|reflexivity].
        rewrite lookup_insert_ne, lookup_delete_ne by congruence. exact Hsnap. }
      split; [apply Hget; rewrite Hv, Hv3; apply lookup_insert_eq|].
      split; [|congruence].
      intros path Hp. now rewrite lookup_insert_ne, lookup_delete_ne by congruence.
  - (* the query of the bookmark failed *)
    destruct e; try discriminate.
    intros Hb. apply Hbookmark in Hb as [Hv Hf].
    2: { subst w2 w1. now rewrite !versions_record. }
    subst w2 w1. rewrite !versions_record in Hv. cbn in Hf.
    exists snap. rewrite Hv.
    split; [apply lookup_insert_eq|]. split; [reflexivity|].
    split.
    { exists snap. split; [|reflexivity]. now rewrite lookup_insert_ne by congruence. }
    split; [apply Hget; rewrite Hv; apply lookup_insert_eq|].
    split; [|exact Hf].
    intros path Hp. now rewrite lookup_insert_ne by congruence.
  - discriminate.
Qed.
Lemma ZFSSetReplicationCursor_then_get_witness :
  exists c,
    versions (snd (ZFSSetReplicationCursor Demo.noFaults Demo.poolA "s2" 99
                     Demo.recreatedWorld)) !! cursorOf Demo.poolA = Some c
    /\ Guid c = 99%N.
Proof.
  destruct (ZFSSetReplicationCursor_then_get Demo.noFaults Demo.poolA "s2" 99
              Demo.recreatedWorld
              (snd (ZFSSetReplicationCursor Demo.noFaults Demo.poolA "s2" 99
                      Demo.recreatedWorld)))
    as (c & H1 & H2 & _).
  - vm_compute. reflexivity.
  - exists c. split; assumption.
Defined.

(** ** Reading what [zfs get] prints *)

Section ReadingZfsGet.
Import ZfsCmd SpecCmd.

Lemma ContainsByte_String c s x :
  ContainsByte (String c s) x = Ascii.eqb x c || ContainsByte s x.
Proof. reflexivity. Qed.

Lemma ContainsByte_append a b x :
  ContainsByte (a +:+ b) x = ContainsByte a x || ContainsByte b x.
Proof.
  induction a as [|c a IH]; [reflexivity|].
  rewrite append_String, !ContainsByte_String, IH. now rewrite orb_assoc.
Qed.

(** Splitting cuts at the first separator. *)
Lemma Split_append_sep a sep rest :
  ContainsByte a sep = false ->
  Split (a +:+ String sep rest) sep = a :: Split rest sep.
Proof.
  induction a as [|c a IH]; intros H.
  - change ("" +:+ String sep rest) with (String sep rest).
    cbn [Split]. now rewrite Ascii.eqb_refl.
  - rewrite ContainsByte_String in H. apply orb_false_iff in H as [Hc Ha].
    rewrite append_String. cbn [Split].
    rewrite Ascii.eqb_sym, Hc. now rewrite IH.
Qed.

Lemma FieldsFunc_plain a x :
  a <> "" -> ContainsByte a x = false -> Strings.FieldsFunc a (Ascii.eqb x) = [a].
Proof.
  induction a as [|c a IH]; [congruence|]. intros _ H.
  rewrite ContainsByte_String in H. apply orb_false_iff in H as [Hc Ha].
  cbn [Strings.FieldsFunc]. rewrite Hc.
  destruct a as [|c' a]; [reflexivity|].
  pose proof Ha as Ha'. rewrite ContainsByte_String in Ha'.
  apply orb_false_iff in Ha' as [Hc' _]. rewrite Hc'.
  now rewrite IH.
Qed.

Lemma FieldsFunc_append_sep a x rest :
  a <> "" -> ContainsByte a x = false ->
  Strings.FieldsFunc (a +:+ String x rest) (Ascii.eqb x)
  = a :: Strings.FieldsFunc rest (Ascii.eqb x).
Proof.
  induction a as [|c a IH]; [congruence|]. intros _ H.
  rewrite ContainsByte_String in H. apply orb_false_iff in H as [Hc Ha].
  rewrite append_String. cbn [Strings.FieldsFunc]. rewrite Hc.
  destruct a as [|c' a].
  - change ("" +:+ String x rest) with (String x rest). cbv beta iota.
    rewrite Ascii.eqb_refl. cbn [Strings.FieldsFunc]. now rewrite Ascii.eqb_refl.
  - rewrite append_String.
    pose proof Ha as Ha'. rewrite ContainsByte_String in Ha'.
    apply orb_false_iff in Ha' as [Hc' _]. rewrite Hc'.
    rewrite <- append_String, IH by (discriminate || assumption). reflexivity.
Qed.

Lemma FieldsFunc_getLine name value source :
  plainField name -> plainField value -> plainField source ->
  Strings.FieldsFunc (name +:+ String tab (value +:+ String tab source)) (Ascii.eqb tab)
  = [name; value; source].
Proof.
  intros (Hn & Hnt & _) (Hv & Hvt & _) (Hs & Hst & _).
  rewrite FieldsFunc_append_sep, FieldsFunc_append_sep, FieldsFunc_plain by assumption.
  reflexivity.
Qed.

Lemma Split_getOutput_append entries rest :
  Forall (fun e => plainField e.1.1 /\ plainField e.1.2 /\ plainField e.2) entries ->
  Split (getOutput entries +:+ rest) newline
  = map (fun e => e.1.1 +:+ String tab (e.1.2 +:+ String tab e.2)) entries
    ++ Split rest newline.
Proof.
  induction 1 as [|[[name value] source] entries (Hn & Hv & Hs) _ IH]; [reflexivity|].
  cbn [getOutput getLine map fst snd app] in *.
  replace (((name +:+ String tab (value +:+ String tab (source +:+ String newline "")))
            +:+ getOutput entries) +:+ rest)
    with ((name +:+ String tab (value +:+ String tab source))
          +:+ String newline (getOutput entries +:+ rest)).
  2: { repeat (rewrite ?String_append_assoc, ?append_String).
       change ("" +:+ (getOutput entries +:+ rest)) with (getOutput entries +:+ rest).
       reflexivity. }
  rewrite Split_append_sep, IH; [reflexivity|].
  destruct Hn as (_ & _ & Hn), Hv as (_ & _ & Hv), Hs as (_ & _ & Hs).
  rewrite ContainsByte_append, ContainsByte_String, ContainsByte_append, ContainsByte_String.
  now rewrite Hn, Hv, Hs.
Qed.

Lemma append_empty_r s : s +:+ "" = s.
Proof. induction s as [|c s IH]; [reflexivity|]. now rewrite append_String, IH. Qed.

Lemma Split_getOutput entries :
  Forall (fun e => plainField e.1.1 /\ plainField e.1.2 /\ plainField e.2) entries ->
  Split (getOutput entries) newline
  = map (fun e => e.1.1 +:+ String tab (e.1.2 +:+ String tab e.2)) entries ++ [""].
Proof.
  intros H. rewrite <- (append_empty_r (getOutput entries)).
  now rewrite Split_getOutput_append.
Qed.

Lemma zfsGetSourceFieldPrefixes_sourceAny :
  zfsGetSourceFieldPrefixes sourceAny
  = ["local"; "default"; "inherited"; "-"; "temporary"; "received"; ""].
Proof. reflexivity. Qed.

Lemma zfsGetLines_entries prefixes entries res :
  In "" prefixes ->
  Forall (fun e => plainField e.1.1 /\ plainField e.1.2 /\ plainField e.2) entries ->
  zfsGetLines prefixes
    (map (fun e => e.1.1 +:+ String tab (e.1.2 +:+ String tab e.2)) entries) res
  = Ok {| m := fold_left (fun acc e => <[e.1.1 := e.1.2]> acc) entries (m res) |}.
Proof.
  intros Hany H. revert res.
  induction H as [|[[name value] source] entries (Hn & Hv & Hs) _ IH]; intros res.
  - now destruct res.
  - cbn [map zfsGetLines fst snd fold_left].
    rewrite FieldsFunc_getLine by assumption. cbn [length Nat.eqb negb nth].
    replace (existsb _ prefixes) with true.
    2: { symmetry. apply existsb_exists. exists "". split; [exact Hany|].
         unfold Strings.HasPrefix. now destruct source. }
    now rewrite IH.
Qed.

(** What [zfsGet] returns for lines of three fields each: the map of the
    names to the values, a later line overriding an earlier one. *)
Lemma zfsGet_entries (run : Output) (path : string) (props : list string)
  (entries : list (string * string * string)) :
  length props = length entries ->
  Forall (fun e => plainField e.1.1 /\ plainField e.1.2 /\ plainField e.2) entries ->
  run ["get"; "-Hp"; "-o"; "property,value,source"; Join props ","; path]
  = (getOutput entries, None) ->
  exists res,
    zfsGet run path props sourceAny = Ok res
    /\ m res = list_to_map (rev (map (fun e => (e.1.1, e.1.2)) entries)).
Proof.
  intros Hlen Hplain Hrun. unfold zfsGet. rewrite Hrun.
  rewrite Split_getOutput by exact Hplain.
  rewrite length_app, length_map. cbn [length].
  replace (length entries + 1 - 1) with (length entries) by lia.
  destruct (Nat.ltb_spec (length entries + 1) 1) as [|_]; [lia|].
  rewrite Hlen, Nat.eqb_refl. cbn [negb orb].
  rewrite firstn_app, length_map, Nat.sub_diag, firstn_all2 by (rewrite length_map; lia).
  cbn [firstn]. rewrite app_nil_r.
  rewrite zfsGetLines_entries;
    [|rewrite zfsGetSourceFieldPrefixes_sourceAny; cbn; tauto|exact Hplain].
  eexists. split; [reflexivity|].
  cbn [m NewZFSProperties].
  unfold list_to_map. rewrite <- fold_left_rev_right, <- map_rev.
  induction (rev entries) as [|e l IH]; [reflexivity|]. cbn. now rewrite IH.
Qed.

(** X11. [zfsGet] reads what [zfs get -Hp -o property,value,source] printed:
    when the binary printed one line per requested property, each with
    three fields, the properties returned are those of the lines, whatever
    their source is, and the last line of a property counts. *)
Theorem zfsGet_reads_every_line (run : Output) (path : string) (props : list string)
  (entries : list (string * string * string)) :
  length props = length entries ->
  Forall (fun e => plainField e.1.1 /\ plainField e.1.2 /\ plainField e.2) entries ->
  run ["get"; "-Hp"; "-o"; "property,value,source"; Join props ","; path]
  = (getOutput entries, None) ->
  exists res,
    zfsGet run path props sourceAny = Ok res
    /\ m res = list_to_map (rev (map (fun e => (e.1.1, e.1.2)) entries))
    /\ (forall name value source,
          last entries = Some (name, value, source) -> Get res name = value).
Proof.
  intros Hlen Hplain Hrun.
  destruct (zfsGet_entries run path props entries Hlen Hplain Hrun) as (res & Hres & E).
  exists res. split; [exact Hres|]. split; [exact E|].
  intros name value source Hlast. unfold Get. rewrite E.
  apply last_Some in Hlast as [l' ->].
  rewrite map_app, rev_app_distr. cbn. now rewrite lookup_insert_eq.
Qed.

Lemma zfsGet_reads_every_line_witness :
  exists res,
    zfsGet (fun _ => (getOutput [("guid", "42", "-")], None)) "pool/a@s1" ["guid"] sourceAny
    = Ok res
    /\ m res = list_to_map (rev (map (fun e => (e.1.1, e.1.2)) [("guid", "42", "-")]))
    /\ (forall name value source,
          last [("guid", "42", "-")] = Some (name, value, source) -> Get res name = value).
Proof.
  apply (zfsGet_reads_every_line (fun _ => (getOutput [("guid", "42", "-")], None))
           "pool/a@s1" ["guid"] [("guid", "42", "-")]).
  - reflexivity.
  - repeat constructor; discriminate.
  - reflexivity.
Defined.

(** X12. A property whose value is the empty string makes [zfsGet] fail, for
    the property and for every other one asked with it: the fields of a
    line are the runs between tabs, so that a line with an empty value has
    two fields. *)
Theorem zfsGet_empty_value_fails (run : Output) (path : string) (props : list string)
  (before after : list (string * string * string)) (name source : string) :
  length props = length before + 1 + length after ->
  Forall (fun e => plainField e.1.1 /\ plainField e.1.2 /\ plainField e.2) before ->
  Forall (fun e => plainField e.1.1 /\ plainField e.1.2 /\ plainField e.2) after ->
  plainField name -> plainField source ->
  run ["get"; "-Hp"; "-o"; "property,value,source"; Join props ","; path]
  = (getOutput before
     +:+ (name +:+ String tab (String tab (source +:+ String newline "")))
     +:+ getOutput after, None) ->
  forall allowedSources,
    zfsGet run path props allowedSources
    = Err (Errorf "zfs get did not return property,value,source tuples" []).
Proof.
  intros Hlen Hbefore Hafter Hn Hs Hrun allowedSources. unfold zfsGet. rewrite Hrun.
  rewrite Split_getOutput_append by exact Hbefore.
  replace ((name +:+ String tab (String tab (source +:+ String newline "")))
           +:+ getOutput after)
    with ((name +:+ String tab (String tab source)) +:+ String newline (getOutput after)).
  2: { repeat (rewrite ?String_append_assoc, ?append_String).
       change ("" +:+ getOutput after) with (getOutput after). reflexivity. }
  rewrite Split_append_sep.
  2: { destruct Hn as (_ & _ & Hn), Hs as (_ & _ & Hs).
       rewrite ContainsByte_append, !ContainsByte_String. now rewrite Hn, Hs. }
  rewrite Split_getOutput by exact Hafter.
  set (bad := name +:+ String tab (String tab source)).
  set (line := fun e : string * string * string =>
                 e.1.1 +:+ String tab (e.1.2 +:+ String tab e.2)).
  rewrite length_app. cbn [length]. rewrite length_app, !length_map. cbn [length].
  destruct (Nat.ltb_spec (length before + S (length after + 1)) 1) as [|_]; [lia|].
  replace (length before + S (length after + 1) - 1) with (length props) by lia.
  rewrite Nat.eqb_refl. cbn [orb negb].
  replace (map line before ++ bad :: map line after ++ [""])
    with ((map line before ++ bad :: map line after) ++ [""])
    by (now rewrite <- app_assoc).
  rewrite firstn_app.
  replace (length props) with (length (map line before ++ bad :: map line after))
    by (rewrite length_app; cbn [length]; rewrite !length_map; lia).
  rewrite firstn_all, Nat.sub_diag. cbn [firstn]. rewrite app_nil_r.
  generalize NewZFSProperties.
  clear Hlen Hrun. induction Hbefore as [|[[n v] s] before (Hn' & Hv' & Hs') _ IH];
    intros res.
  - cbn [map app zfsGetLines]. unfold bad.
    destruct Hn as (Hn1 & Hn2 & _), Hs as (Hs1 & Hs2 & _).
    rewrite FieldsFunc_append_sep by assumption.
    cbn [Strings.FieldsFunc]. rewrite Ascii.eqb_refl.
    rewrite FieldsFunc_plain by assumption. reflexivity.
  - cbn [map app zfsGetLines]. unfold line at 1. cbn [fst snd].
    rewrite FieldsFunc_getLine by assumption. cbn [length Nat.eqb negb].
    apply IH.
Qed.

Lemma zfsGet_empty_value_fails_witness :
  zfsGet (fun _ => (getOutput []
                    +:+ ("user:note" +:+ String tab (String tab ("local" +:+ String newline "")))
                    +:+ getOutput [("guid", "42", "-")], None))
         "pool/a" ["user:note"; "guid"] sourceAny
  = Err (Errorf "zfs get did not return property,value,source tuples" []).
Proof.
  refine (zfsGet_empty_value_fails _ "pool/a" ["user:note"; "guid"] [] [("guid", "42", "-")]
            "user:note" "local" _ _ _ _ _ _ sourceAny).
  - reflexivity.
  - constructor.
  - repeat constructor; discriminate.
  - repeat constructor; discriminate.
  - repeat constructor; discriminate.
  - reflexivity.
Defined.

Lemma substring_append_skip a b :
  String.substring (String.length a) (String.length b) (a +:+ b) = b.
Proof.
  induction a as [|c a IH].
  - change ("" +:+ b) with b. cbn [String.length].
    induction b as [|c b IHb]; [reflexivity|]. cbn. now rewrite IHb.
  - rewrite append_String. cbn [String.length String.substring]. exact IH.
Qed.

Lemma prefix_append a b : String.prefix a (a +:+ b) = true.
Proof.
  induction a as [|c a IH]; [now destruct b|].
  rewrite append_String. cbn [String.prefix].
  destruct (ascii_dec c c); [exact IH|contradiction].
Qed.

Lemma doesNotExistGroup_path path tail :
  path <> "" -> ContainsByte path ")" = false ->
  doesNotExistGroup tail = None -> doesNotExistTail tail = true ->
  doesNotExistGroup (path +:+ tail) = Some path.
Proof.
  intros Hne Hfree Hnone Htail.
  induction path as [|c p IH]; [congruence|].
  rewrite ContainsByte_String in Hfree. apply orb_false_iff in Hfree as [Hc Hp].
  rewrite append_String. cbn [doesNotExistGroup].
  rewrite Ascii.eqb_sym, Hc.
  destruct p as [|c' p].
  - change ("" +:+ tail) with tail. now rewrite Hnone, Htail.
  - now rewrite IH by (discriminate || assumption).
Qed.

(** X13. [zfsGet] recognises the message of the binary for a dataset that does
    not exist, in both of its forms, and returns [*DatasetDoesNotExist] for
    the path it was asked; the same message from a process that a signal
    ended is a [*ZFSError]. *)
Theorem zfsGet_dataset_does_not_exist (run : Output) (path reason : string)
  (props : list string) (allowedSources : N) (stdout state : string) (exited : bool) :
  path <> "" -> ContainsByte path ")" = false ->
  reason = "dataset does not exist" \/ reason = "no such pool or dataset" ->
  run ["get"; "-Hp"; "-o"; "property,value,source"; Join props ","; path]
  = (stdout, Some (ExitError exited
                     ("cannot open '" +:+ path +:+ "': " +:+ reason +:+ String newline "")
                     state)) ->
  zfsGet run path props allowedSources
  = if exited then Err (DatasetDoesNotExist path)
    else Err (ZFSError ("cannot open '" +:+ path +:+ "': " +:+ reason +:+ String newline "")).
Proof.
  intros Hne Hfree Hreason Hrun. unfold zfsGet. rewrite Hrun.
  destruct exited; [|reflexivity]. cbn [andb].
  unfold zfsGetDatasetDoesNotExistRegexp.
  rewrite prefix_append.
  set (rest := path +:+ "': " +:+ reason +:+ String newline "").
  rewrite String_length_append, Nat.add_comm, Nat.add_sub, substring_append_skip.
  subst rest.
  rewrite doesNotExistGroup_path; [now rewrite String.eqb_refl|assumption..| |];
    destruct Hreason as [-> | ->]; reflexivity.
Qed.

Lemma zfsGet_dataset_does_not_exist_witness :
  zfsGet (fun _ => ("", Some (ExitError true
                     ("cannot open '" +:+ "pool/a@gone" +:+ "': " +:+ "dataset does not exist"
                      +:+ String newline "") "exit status 1")))
         "pool/a@gone" ["guid"] sourceAny
  = Err (DatasetDoesNotExist "pool/a@gone").
Proof.
  apply (zfsGet_dataset_does_not_exist _ "pool/a@gone" "dataset does not exist" ["guid"]
           sourceAny "" "exit status 1" true).
  - discriminate.
  - reflexivity.
  - now left.
  - reflexivity.
Defined.

(** ** Numbers in the output of [zfs get] *)

Lemma digit_Some c : (48 <= N_of_ascii c <= 57)%N -> Strconv.digit c = Some (N_of_ascii c - 48)%N.
Proof.
  intros [H1 H2]. unfold Strconv.digit.
  apply N.leb_le in H1, H2. now rewrite H1, H2.
Qed.

Lemma decimalValue_ge s : forall n, (n <= decimalValue s n)%N.
Proof.
  induction s as [|c s IH]; intros n; cbn [decimalValue]; [lia|].
  specialize (IH (n * 10 + (N_of_ascii c - 48))%N). lia.
Qed.

Lemma parseUintLoop_decimalValue s0 s : forall n,
  allDigits s -> (decimalValue s n <= Strconv.maxUint64)%N ->
  Strconv.parseUintLoop s0 s n = Ok (decimalValue s n).
Proof.
  induction s as [|c s IH]; intros n Hd Hmax; [reflexivity|].
  unfold allDigits in Hd. cbn [list_ascii_of_string] in Hd.
  apply Forall_cons in Hd as [Hc Hs].
  cbn [Strconv.parseUintLoop decimalValue] in *. rewrite (digit_Some c Hc).
  pose proof (decimalValue_ge s (n * 10 + (N_of_ascii c - 48))%N) as Hge.
  destruct (N.ltb_spec Strconv.maxUint64 (n * 10 + (N_of_ascii c - 48))) as [Hlt|_]; [lia|].
  now apply IH.
Qed.

Lemma N_of_ascii_digit d : (d < 10)%N -> N_of_ascii (ascii_of_N (48 + d)) = (48 + d)%N.
Proof. intros H. apply N_ascii_embedding. lia. Qed.

Lemma digitsOf_allDigits fuel : forall n acc, allDigits acc -> allDigits (digitsOf fuel n acc).
Proof.
  induction fuel as [|fuel IH]; intros n acc Hacc; [exact Hacc|].
  cbn [digitsOf].
  assert (Hd : allDigits (String (ascii_of_N (48 + n mod 10)) acc)).
  { unfold allDigits. cbn [list_ascii_of_string]. constructor; [|exact Hacc].
    rewrite N_of_ascii_digit by (apply N.mod_lt; lia).
    pose proof (N.mod_lt n 10 ltac:(lia)) as Hlt. cbv beta.
    generalize dependent (n mod 10)%N. intros r Hlt. lia. }
  destruct (n / 10 =? 0)%N; [exact Hd|]. now apply IH.
Qed.

Lemma digitsOf_value fuel : forall n acc,
  (n < 10 ^ N.of_nat fuel)%N ->
  decimalValue (digitsOf fuel n acc) 0 = decimalValue acc n.
Proof.
  induction fuel as [|fuel IH]; intros n acc Hn.
  - cbn in Hn. replace n with 0%N by lia. reflexivity.
  - cbn [digitsOf].
    assert (Hstep : forall k, decimalValue (String (ascii_of_N (48 + n mod 10)) acc) k
                              = decimalValue acc (k * 10 + n mod 10)).
    { intros k. cbn [decimalValue].
      rewrite N_of_ascii_digit by (apply N.mod_lt; lia). f_equal.
      generalize (n mod 10)%N. intros r. lia. }
    pose proof (N.div_mod n 10 ltac:(lia)) as Hdm.
    rewrite Nat2N.inj_succ, N.pow_succ_r' in Hn.
    revert Hstep Hdm. generalize (n mod 10)%N (n / 10)%N. intros r q Hstep Hdm.
    destruct (N.eqb_spec q 0) as [E|E].
    + rewrite Hstep. f_equal. lia.
    + rewrite IH, Hstep; [f_equal; lia|]. lia.
Qed.

Lemma digitsOf_nonempty fuel : forall n acc, acc <> "" -> digitsOf fuel n acc <> "".
Proof.
  induction fuel as [|fuel IH]; intros n acc Hacc; [exact Hacc|].
  cbn [digitsOf]. destruct (n / 10 =? 0)%N; [discriminate|]. now apply IH.
Qed.

Lemma digitsOf_S_nonempty fuel n acc : digitsOf (S fuel) n acc <> "".
Proof.
  cbn [digitsOf]. destruct (n / 10 =? 0)%N; [discriminate|].
  now apply digitsOf_nonempty.
Qed.

Lemma ContainsByte_allDigits s x :
  allDigits s -> (N_of_ascii x < 48)%N -> ContainsByte s x = false.
Proof.
  intros Hd Hx. induction s as [|c s IH]; [reflexivity|].
  unfold allDigits in Hd. cbn [list_ascii_of_string] in Hd.
  apply Forall_cons in Hd as [Hc Hs].
  rewrite ContainsByte_String, IH by exact Hs.
  destruct (Ascii.eqb_spec x c) as [->|]; [lia|reflexivity].
Qed.

Lemma decimal_plainField n : plainField (decimal n).
Proof.
  assert (Hd : allDigits (decimal n)) by (apply digitsOf_allDigits; constructor).
  split; [|split].
  - apply (digitsOf_S_nonempty 19).
  - apply ContainsByte_allDigits; [exact Hd|]. vm_compute. reflexivity.
  - apply ContainsByte_allDigits; [exact Hd|]. vm_compute. reflexivity.
Qed.

(** Parsing the decimal form of a number of 64 bits gives the number. *)
Lemma ParseUint_decimal n :
  (n <= Strconv.maxUint64)%N -> Strconv.ParseUint (decimal n) = Ok n.
Proof.
  intros Hn. unfold Strconv.ParseUint.
  destruct (String.eqb_spec (decimal n) "") as [E|_].
  { now destruct (decimal_plainField n) as [H _]. }
  assert (Hv : decimalValue (decimal n) 0 = n).
  { unfold decimal. rewrite digitsOf_value; [reflexivity|].
    eapply N.le_lt_trans; [exact Hn|]. vm_compute. reflexivity. }
  rewrite parseUintLoop_decimalValue; [now rewrite Hv| |now rewrite Hv].
  apply digitsOf_allDigits. constructor.
Qed.

(** X14. [ZFSGetCreateTXGAndGuid] gives the two numbers that the binary
    printed, whatever their sources are and in whichever order the two
    lines come. *)
Theorem ZFSGetCreateTXGAndGuid_reads_numbers (run : Output) (ds : string)
  (txg guid : N) (s1 s2 : string) (guidFirst : bool) :
  (txg <= Strconv.maxUint64)%N -> (guid <= Strconv.maxUint64)%N ->
  plainField s1 -> plainField s2 ->
  run ["get"; "-Hp"; "-o"; "property,value,source"; "createtxg,guid"; ds]
  = (getOutput (if guidFirst
                then [("guid", decimal guid, s2); ("createtxg", decimal txg, s1)]
                else [("createtxg", decimal txg, s1); ("guid", decimal guid, s2)]), None) ->
  ZFSGetCreateTXGAndGuid run ds = Ok {| CreateTXG := txg; Guid := guid |}.
Proof.
  intros Htxg Hguid Hs1 Hs2 Hrun.
  assert (Hname : forall s, s = "guid" \/ s = "createtxg" -> plainField s).
  { intros s [-> | ->]; repeat split; discriminate. }
  assert (Hplain : Forall (fun e : string * string * string =>
                             plainField e.1.1 /\ plainField e.1.2 /\ plainField e.2)
                          (if guidFirst
                           then [("guid", decimal guid, s2); ("createtxg", decimal txg, s1)]
                           else [("createtxg", decimal txg, s1); ("guid", decimal guid, s2)])).
  { destruct guidFirst;
      (constructor; [|constructor; [|constructor]]);
      cbn [fst snd]; (split; [|split]);
      first [apply Hname; tauto | apply decimal_plainField | assumption]. }
  destruct (zfsGet_entries run ds ["createtxg"; "guid"]
              (if guidFirst
               then [("guid", decimal guid, s2); ("createtxg", decimal txg, s1)]
               else [("createtxg", decimal txg, s1); ("guid", decimal guid, s2)])
              ltac:(destruct guidFirst; reflexivity) Hplain Hrun)
    as (res & Hres & Hm).
  assert (Hget : Get res "createtxg" = decimal txg /\ Get res "guid" = decimal guid).
  { unfold Get. rewrite Hm. destruct guidFirst; cbn [map rev app fst snd list_to_map foldr];
      split; repeat first [rewrite lookup_insert_eq | rewrite lookup_insert_ne by discriminate];
      reflexivity. }
  destruct Hget as [Ht Hg].
  unfold ZFSGetCreateTXGAndGuid, zfsGetNumberProps. rewrite Hres.
  cbn [parseNumberProps]. rewrite Ht, Hg, !ParseUint_decimal by assumption.
  cbn. rewrite lookup_insert_eq, lookup_insert_ne, lookup_insert_eq by discriminate.
  reflexivity.
Qed.

Lemma ZFSGetCreateTXGAndGuid_reads_numbers_witness :
  ZFSGetCreateTXGAndGuid
    (fun _ => (getOutput [("createtxg", decimal 5, "-"); ("guid", decimal 11, "-")], None))
    "pool/a@s1"
  = Ok {| CreateTXG := 5; Guid := 11 |}.
Proof.
  apply (ZFSGetCreateTXGAndGuid_reads_numbers _ "pool/a@s1" 5 11 "-" "-" false).
  - vm_compute. discriminate.
  - vm_compute. discriminate.
  - repeat split; discriminate.
  - repeat split; discriminate.
  - reflexivity.
Defined.

End ReadingZfsGet.

(** ** The stream of a running [zfs send] *)

Section SendStream.
Import ZfsCmd.

Lemma killAndWait_Some s pre : exists e, fst (killAndWait s pre) = Some e.
Proof.
  unfold killAndWait. cbn [opErr stdoutReader waits closes nWait nClose stderrBuf].
  destruct (opErr s) as [e|]; [eauto|].
  destruct (waits s (nWait s)) as [| |e]; [| |eauto].
  - destruct (stdoutReader s) as [r|].
    + destruct (closes s (nClose s)) as [ce|]; [eauto|].
      cbn. destruct pre as [[]|]; cbn; eauto.
    + cbn. destruct pre as [[]|]; cbn; eauto.
  - destruct (stdoutReader s) as [r|].
    + destruct (closes s (nClose s)) as [ce|]; [eauto|]. cbn. eauto.
    + cbn. eauto.
Qed.

(** X15. [sendStream.Close] always returns an error, also when the stream was
    read to its end and [zfs send] exited with status 0. [Read] returns
    without error only what the pipe delivered without error: when the pipe
    fails to read, for end of file or another reason, [Read] returns an
    error. *)
Theorem sendStream_Close_always_error :
  (forall s, exists e, fst (sendStream_Close s) = Some e)
  /\ (forall s p s', sendStream_Read s = ((p, None), s') ->
        opErr s = None
        /\ exists r r', stdoutReader s = Some r /\ readerRead r = ((p, None), r')
                        /\ stdoutReader s' = Some r' /\ opErr s' = None
                        /\ nWait s' = nWait s /\ nClose s' = nClose s
                        /\ kills s' = kills s).
Proof.
  split.
  - intros s. apply killAndWait_Some.
  - intros s p s'. unfold sendStream_Read.
    destruct (opErr s) as [e|] eqn:Hop; [discriminate|].
    destruct (stdoutReader s) as [r|] eqn:Hr.
    + destruct (readerRead r) as [[p0 [e|]] r'] eqn:Hread.
      * destruct (killAndWait_Some
                    {| opErr := None; stdoutReader := Some r'; stderrBuf := stderrBuf s;
                       waits := waits s; closes := closes s; nWait := nWait s;
                       nClose := nClose s; closed := closed s; kills := kills s |}
                    (Some e)) as [e' He'].
        destruct (killAndWait _ _) as [kwerr s1]. cbn in He'. subst kwerr. discriminate.
      * intros [= <- <-]. split; [reflexivity|]. exists r, r'. cbn.
        repeat split; assumption.
    + destruct (killAndWait_Some
                  {| opErr := None; stdoutReader := None; stderrBuf := stderrBuf s;
                     waits := waits s; closes := closes s; nWait := nWait s;
                     nClose := nClose s; closed := closed s; kills := kills s |}
                  (Some ErrInvalid)) as [e' He'].
      destruct (killAndWait _ _) as [kwerr s1]. cbn in He'. subst kwerr. discriminate.
Qed.

(** X16. Reading a stream that has not failed ends with [io.EOF] only after the
    pipe was read to its end, [zfs send] was waited for and had exited with
    status 0, and the pipe was closed; the stream then keeps the error [zfs
    send exited with status code 0]. [cmd.Wait] and closing the pipe are
    taken not to return [io.EOF] themselves. *)
Theorem sendStream_Read_EOF_after_clean_exit (s s' : sendStream) (p : string) :
  opErr s = None ->
  (forall n, waits s n <> WaitOther EOF) ->
  (forall n, closes s n <> Some EOF) ->
  sendStream_Read s = ((p, Some EOF), s') ->
  (exists r r', stdoutReader s = Some r /\ readerRead r = ((p, Some EOF), r'))
  /\ waits s (nWait s) = WaitNil
  /\ nWait s' = S (nWait s)
  /\ opErr s' = Some (Errorf "zfs send exited with status code 0" [])
  /\ stdoutReader s' = None
  /\ kills s' = KillAfter200ms :: kills s.
Proof.
  intros Hop Hw Hc. unfold sendStream_Read. rewrite Hop.
  assert (Hkw : forall reader e kwerr s1,
            killAndWait {| opErr := None; stdoutReader := reader; stderrBuf := stderrBuf s;
                           waits := waits s; closes := closes s; nWait := nWait s;
                           nClose := nClose s; closed := closed s; kills := kills s |}
                        (Some e) = (kwerr, s1) ->
            kwerr = Some EOF ->
            e = EOF /\ waits s (nWait s) = WaitNil /\ nWait s1 = S (nWait s)
            /\ opErr s1 = Some (Errorf "zfs send exited with status code 0" [])
            /\ stdoutReader s1 = None /\ kills s1 = KillAfter200ms :: kills s).
  { intros reader e kwerr s1. unfold killAndWait.
    cbn [opErr stdoutReader waits closes nWait nClose stderrBuf closed kills].
    specialize (Hw (nWait s)). specialize (Hc (nClose s)).
    destruct (waits s (nWait s)) as [| |we].
    - destruct reader as [r|].
      + destruct (closes s (nClose s)) as [ce|].
        * intros [= <- <-] [= ->]. contradiction.
        * destruct e; cbn; intros [= <- <-] [= ]; repeat split.
      + destruct e; cbn; intros [= <- <-] [= ]; repeat split.
    - destruct reader as [r|].
      + destruct (closes s (nClose s)) as [ce|].
        * intros [= <- <-] [= ->]. contradiction.
        * cbn. intros [= <- <-] [= ].
      + cbn. intros [= <- <-] [= ].
    - intros [= <- <-] [= ->]. contradiction. }
  destruct (stdoutReader s) as [r|] eqn:Hr.
  - destruct (readerRead r) as [[p0 [e|]] r'] eqn:Hread; [|discriminate].
    destruct (killAndWait _ _) as [kwerr s1] eqn:Hk.
    intros [= <- -> <-].
    destruct (Hkw _ _ _ _ Hk eq_refl) as (-> & H1 & H2 & H3 & H4 & H5).
    split; [eauto|]. repeat split; assumption.
  - destruct (killAndWait _ _) as [kwerr s1] eqn:Hk.
    intros [= <- -> <-].
    destruct (Hkw _ _ _ _ Hk eq_refl) as (E & _). discriminate E.
Qed.

Lemma sendStream_Read_EOF_after_clean_exit_witness :
  (exists r r', Some ([] : ReadCloser) = Some r /\ readerRead r = (("", Some EOF), r'))
  /\ WaitNil = WaitNil
  /\ nWait (snd (sendStream_Read (newSendStream [] "" (fun _ => WaitNil) (fun _ => None))))
     = 1
  /\ opErr (snd (sendStream_Read (newSendStream [] "" (fun _ => WaitNil) (fun _ => None))))
     = Some (Errorf "zfs send exited with status code 0" [])
  /\ stdoutReader (snd (sendStream_Read (newSendStream [] "" (fun _ => WaitNil)
                                           (fun _ => None)))) = None
  /\ kills (snd (sendStream_Read (newSendStream [] "" (fun _ => WaitNil) (fun _ => None))))
     = [KillAfter200ms].
Proof.
  apply (sendStream_Read_EOF_after_clean_exit
           (newSendStream [] "" (fun _ => WaitNil) (fun _ => None)) _ "").
  - reflexivity.
  - discriminate.
  - discriminate.
  - reflexivity.
Defined.

(** X17. The state of a stream after any calls of [Read] and [Close], starting
    from the stream that [ZFSSend] returns. As long as the stream has no
    error of its own, the pipe is open and was never closed. Once it has
    one, the pipe has been closed, exactly once, and the stream is final:
    [Read] returns this error without reading, and [Close] returns it
    without waiting for the process or closing the pipe again. *)
Theorem sendStream_torn_down_once (stdout : ReadCloser) (stderr : string)
  (waitResults : nat -> waitResult) (closeResults : nat -> option error)
  (ops : list streamOp) :
  let s := fold_left streamStep ops (newSendStream stdout stderr waitResults closeResults) in
  match opErr s with
  | None => stdoutReader s <> None /\ closed s = 0
  | Some e =>
      stdoutReader s = None /\ closed s = 1
      /\ sendStream_Read s = (("", Some e), s)
      /\ fst (sendStream_Close s) = Some e
      /\ opErr (snd (sendStream_Close s)) = Some e
      /\ nWait (snd (sendStream_Close s)) = nWait s
      /\ nClose (snd (sendStream_Close s)) = nClose s
      /\ closed (snd (sendStream_Close s)) = 1
  end.
Proof.
  cbn zeta.
  set (inv := fun s : sendStream =>
                match opErr s with
                | None => stdoutReader s <> None /\ closed s = 0
                | Some _ => stdoutReader s = None /\ closed s = 1
                end).
  assert (Hkw : forall s pre, inv s -> inv (snd (killAndWait s pre))).
  { intros s pre. unfold inv, killAndWait.
    cbn [opErr stdoutReader waits closes nWait nClose stderrBuf closed kills].
    destruct (opErr s) as [e|]; [exact id|].
    intros [Hr Hc0].
    destruct (waits s (nWait s)) as [| |we]; [| |cbn; tauto];
      (destruct (stdoutReader s) as [r|]; [|contradiction]);
      (destruct (closes s (nClose s)) as [ce|]; [cbn; split; [discriminate|assumption]|]);
      cbn; try (destruct (isEOF pre)); cbn; (split; [reflexivity|now rewrite Hc0]). }
  assert (Hstep : forall s op, inv s -> inv (streamStep s op)).
  { intros s [|] Hs; [|now apply Hkw]. unfold streamStep, sendStream_Read.
    pose proof Hs as Hs'. unfold inv in Hs'.
    destruct (opErr s) as [e|] eqn:Hop.
    { cbn. unfold inv. now rewrite Hop. }
    destruct Hs' as [Hr Hc0].
    destruct (stdoutReader s) as [r|]; [|contradiction].
    destruct (readerRead r) as [[p [e|]] r'].
    - match goal with |- context [killAndWait ?s0 ?pre] =>
        pose proof (Hkw s0 pre) as H; destruct (killAndWait s0 pre) as [kwerr s1] end.
      cbn in *. apply H. unfold inv. cbn. split; [discriminate|assumption].
    - cbn. unfold inv. cbn. split; [discriminate|assumption]. }
  assert (Hall : forall ops s, inv s -> inv (fold_left streamStep ops s)).
  { clear ops. induction ops as [|op ops IH]; intros s Hs; [exact Hs|].
    cbn [fold_left]. apply IH, Hstep, Hs. }
  specialize (Hall ops (newSendStream stdout stderr waitResults closeResults)).
  assert (H0 : inv (newSendStream stdout stderr waitResults closeResults)).
  { unfold inv. cbn. split; [discriminate|reflexivity]. }
  specialize (Hall H0). clear H0.
  revert Hall. generalize (fold_left streamStep ops
                             (newSendStream stdout stderr waitResults closeResults)).
  intros s. unfold inv.
  destruct (opErr s) as [e|] eqn:Hop; [|exact id].
  intros [Hr Hc1]. split; [exact Hr|]. split; [exact Hc1|].
  unfold sendStream_Read, sendStream_Close, killAndWait.
  cbn [opErr stdoutReader waits closes nWait nClose stderrBuf closed kills].
  rewrite Hop. cbn. repeat split; assumption.
Qed.

End SendStream.
(** ** Setting properties, listing, destroying *)

Section CommandArguments.
Import ZfsCmd SpecCmd.

Lemma SplitN2_append_sep a sep rest :
  ContainsByte a sep = false ->
  SplitN2 (a +:+ String sep rest) sep = [a; rest].
Proof.
  induction a as [|c a IH]; intros H.
  - change ("" +:+ String sep rest) with (String sep rest).
    cbn [SplitN2]. now rewrite Ascii.eqb_refl.
  - rewrite ContainsByte_String in H. apply orb_false_iff in H as [Hc Ha].
    rewrite append_String. cbn [SplitN2].
    rewrite Ascii.eqb_sym, Hc. now rewrite IH.
Qed.

Lemma appendArgs_spec range : forall args,
  appendArgs range args
  = if existsb (fun kv => ContainsByte kv.1 "=") range
    then Err (New "prop contains rune '=' which is the delimiter between property name and value")
    else Ok (args ++ map (fun kv => kv.1 +:+ "=" +:+ kv.2) range).
Proof.
  induction range as [|[prop val] range IH]; intros args; cbn [appendArgs existsb map fst snd].
  - now rewrite app_nil_r.
  - destruct (ContainsByte prop "="); [reflexivity|]. cbn [orb].
    rewrite IH. destruct (existsb _ range); [reflexivity|].
    now rewrite <- app_assoc.
Qed.

(** X18. [zfsSet] runs [zfs set] only if no property name contains [=]. It then
    passes one argument [name=value] for each property of the map and the
    path after them, and each argument, cut at its first [=], gives the
    name and the value back. If a name contains [=], nothing is run. *)
Theorem zfsSet_arguments (run : list string -> startWait)
  (rangeOrder : gmap string string -> list (string * string))
  (path : string) (props : ZFSProperties) :
  rangeOrder (m props) ≡ₚ map_to_list (m props) ->
  (forall k v, m props !! k = Some v -> ContainsByte k "=" = true ->
     zfsSet run rangeOrder path props
     = Err (New "prop contains rune '=' which is the delimiter between property name and value"))
  /\ ((forall k v, m props !! k = Some v -> ContainsByte k "=" = false) ->
      exists args,
        zfsSet run rangeOrder path props
        = match run ("set" :: args ++ [path]) with
          | StartErr e => Err e
          | Waited stderr (Some _) => Err (ZFSError stderr)
          | Waited _ None => Ok tt
          end
        /\ length args = size (m props)
        /\ (forall k v, m props !! k = Some v -> In (k +:+ "=" +:+ v) args)
        /\ (forall a, In a args ->
              exists k v, m props !! k = Some v /\ a = k +:+ "=" +:+ v
                          /\ SplitN2 a "=" = [k; v])).
Proof.
  intros Hperm.
  assert (Hin : forall k v, In (k, v) (rangeOrder (m props)) <-> m props !! k = Some v).
  { intros k v. rewrite <- list_elem_of_In, Hperm. apply elem_of_map_to_list. }
  unfold zfsSet. rewrite appendArgs_spec. split.
  - intros k v Hkv Heq.
    replace (existsb _ _) with true; [reflexivity|].
    symmetry. apply existsb_exists. exists (k, v). split; [now apply Hin|exact Heq].
  - intros Hfree.
    replace (existsb _ _) with false.
    2: { symmetry. apply not_true_is_false. intros H.
         apply existsb_exists in H as ([k v] & Hk & Heq). apply Hin in Hk.
         cbn [fst] in Heq. rewrite (Hfree k v Hk) in Heq. discriminate. }
    exists (map (fun kv => kv.1 +:+ "=" +:+ kv.2) (rangeOrder (m props))).
    split; [reflexivity|]. split; [|split].
    + rewrite length_map, Hperm. apply length_map_to_list.
    + intros k v Hkv. apply in_map_iff. exists (k, v). split; [reflexivity|now apply Hin].
    + intros a Ha. apply in_map_iff in Ha as ([k v] & <- & Hk). apply Hin in Hk.
      exists k, v. split; [exact Hk|]. split; [reflexivity|].
      cbn [fst snd]. apply SplitN2_append_sep. eapply Hfree, Hk.
Qed.

Lemma zfsSet_arguments_witness :
  exists args,
    zfsSet (fun _ => Waited "" None) map_to_list "pool/a"
           (Set_ NewZFSProperties "zrepl:placeholder" "on")
    = match (fun _ : list string => Waited "" None) ("set" :: args ++ ["pool/a"]) with
      | StartErr e => Err e
      | Waited stderr (Some _) => Err (ZFSError stderr)
      | Waited _ None => Ok tt
      end
    /\ In ("zrepl:placeholder" +:+ "=" +:+ "on") args.
Proof.
  destruct (zfsSet_arguments (fun _ => Waited "" None) map_to_list "pool/a"
              (Set_ NewZFSProperties "zrepl:placeholder" "on") (reflexivity _))
    as [_ H].
  destruct H as (args & H1 & _ & H3 & _).
  - intros k v. cbn. intros Hkv.
    apply lookup_insert_Some in Hkv as [[<- _]|[_ Hkv]]; [reflexivity|].
    rewrite lookup_empty in Hkv. discriminate.
  - exists args. split; [exact H1|]. apply H3. cbn. apply lookup_insert_eq.
Defined.

Lemma splitCuts_nonempty s sep cuts : Strings.splitCuts s sep cuts <> [].
Proof.
  revert cuts. induction s as [|c s IH]; intros [|k]; cbn; try discriminate.
  destruct (Ascii.eqb c sep); [discriminate|].
  destruct (Strings.splitCuts s sep (S k)); discriminate.
Qed.

(** Joining the pieces gives the string back, however many cuts are made. *)
Lemma Join_splitCuts s (sep : ascii) : forall cuts,
  Join (Strings.splitCuts s sep cuts) (String sep EmptyString) = s.
Proof.
  induction s as [|c s IH]; intros [|k]; try reflexivity.
  cbn [Strings.splitCuts].
  destruct (Ascii.eqb_spec c sep) as [->|Hne].
  - pose proof (splitCuts_nonempty s sep k) as Hn.
    destruct (Strings.splitCuts s sep k) as [|hd tl] eqn:E; [congruence|].
    rewrite Join_cons_cons, <- E, IH. reflexivity.
  - pose proof (splitCuts_nonempty s sep (S k)) as Hn.
    destruct (Strings.splitCuts s sep (S k)) as [|hd tl] eqn:E; [congruence|].
    rewrite Join_String_head, <- E, IH. reflexivity.
Qed.

Lemma listLines_spec properties lines : forall res res',
  properties <> [] ->
  listLines properties lines res = (res', None) ->
  exists rows,
    res' = res ++ rows
    /\ Forall2 (fun line row =>
                  length row = length properties
                  /\ Join row (String tab EmptyString) = line) lines rows.
Proof.
  induction lines as [|line lines IH]; intros res res' Hne H; cbn [listLines] in H.
  - injection H as <-. exists []. split; [now rewrite app_nil_r|constructor].
  - destruct (Nat.eqb_spec
                (length (Strings.SplitN line tab (Z.of_nat (length properties))))
                (length properties)) as [E|E]; cbn [negb] in H; [|discriminate].
    apply IH in H as (rows & -> & Hrows); [|exact Hne].
    exists (Strings.SplitN line tab (Z.of_nat (length properties)) :: rows).
    split; [now rewrite <- app_assoc|]. constructor; [|exact Hrows].
    split; [exact E|]. unfold Strings.SplitN.
    destruct properties as [|p ps]; [congruence|].
    destruct (Z.eqb_spec (Z.of_nat (length (p :: ps))) 0) as [E0|_]; [cbn in E0; lia|].
    destruct (Z.ltb_spec (Z.of_nat (length (p :: ps))) 0) as [E0|_]; [lia|].
    apply Join_splitCuts.
Qed.

(** X19. When [ZFSList] returns without error, it returns one row for each line
    that the scanner delivered, in their order; each row has as many fields
    as there are properties, and joining its fields with tabs gives the
    line back: the last field keeps the tabs of a line that has more of
    them. The process was then started and waited for without error. *)
Theorem ZFSList_rows (run : list string -> listRun) (scan : string -> list string)
  (properties zfsArgs : list string) (res : list (list string)) :
  properties <> [] ->
  ZFSList run scan properties zfsArgs = (res, None) ->
  exists stdout stderr,
    run (["list"; "-H"; "-p"; "-o"; Join properties ","] ++ zfsArgs)
    = ListRan stdout stderr None
    /\ Forall2 (fun line row =>
                  length row = length properties
                  /\ Join row (String tab EmptyString) = line) (scan stdout) res.
Proof.
  intros Hne. unfold ZFSList.
  destruct (run _) as [e|e|stdout stderr waitErr]; [discriminate..|].
  destruct (listLines properties (scan stdout) []) as [rows [e|]] eqn:Hl; [discriminate|].
  destruct waitErr as [we|]; [discriminate|]. intros [= <-].
  exists stdout, stderr. split; [reflexivity|].
  apply listLines_spec in Hl as (rows' & -> & H); [exact H|exact Hne].
Qed.

Lemma ZFSList_rows_witness :
  exists stdout stderr,
    (fun _ : list string => ListRan ("pool/a" +:+ String tab "on" +:+ String tab "x") "" None)
      (["list"; "-H"; "-p"; "-o"; Join ["name"; "zrepl:placeholder"] ","] ++ [])
    = ListRan stdout stderr None
    /\ Forall2 (fun line row =>
                  length row = length ["name"; "zrepl:placeholder"]
                  /\ Join row (String tab EmptyString) = line)
               ((fun s : string => [s]) stdout)
               [["pool/a"; "on" +:+ String tab "x"]].
Proof.
  apply (ZFSList_rows
           (fun _ => ListRan ("pool/a" +:+ String tab "on" +:+ String tab "x") "" None)
           (fun s => [s]) ["name"; "zrepl:placeholder"] []).
  - discriminate.
  - reflexivity.
Defined.

Lemma SplitN2_two s sep a b :
  SplitN2 s sep = [a; b] -> s = a +:+ String sep b /\ ContainsByte a sep = false.
Proof.
  revert a. induction s as [|c s IH]; intros a; cbn [SplitN2]; [discriminate|].
  destruct (Ascii.eqb_spec c sep) as [->|Hne].
  - intros [= <- <-]. split; reflexivity.
  - destruct (SplitN2 s sep) as [|hd tl] eqn:E; [discriminate|].
    intros [= <- ->]. destruct (IH hd eq_refl) as [-> Hhd].
    split; [reflexivity|]. rewrite ContainsByte_String, Hhd.
    destruct (Ascii.eqb_spec sep c); [congruence|reflexivity].
Qed.

Lemma SplitN2_no_sep s sep : ContainsByte s sep = false -> SplitN2 s sep = [s].
Proof.
  induction s as [|c s IH]; [reflexivity|]. rewrite ContainsByte_String.
  intros [Hc Hs]%orb_false_iff. cbn [SplitN2]. rewrite Ascii.eqb_sym, Hc.
  now rewrite IH.
Qed.

Lemma parseDestroyLines_spec filesystem lines : forall und reason raw e,
  parseDestroyLines filesystem lines und reason raw = Some e ->
  Filesystem e = filesystem
  /\ RawLines e = raw ++ lines
  /\ Undestroyable e <> []
  /\ exists found,
       Undestroyable e = und ++ map fst found
       /\ Reason e = reason ++ map snd found
       /\ Forall2 (fun line ur =>
                     destroySnapshotsErrorRegexp line = Some (filesystem, ur.1, ur.2))
                  lines found.
Proof.
  induction lines as [|line lines IH]; intros und reason raw e; cbn [parseDestroyLines].
  - destruct (Nat.eqb_spec (length und) 0) as [|Hn]; [discriminate|].
    intros [= <-]. cbn. split; [reflexivity|]. split; [now rewrite app_nil_r|].
    split; [now destruct und|]. exists []. cbn. rewrite !app_nil_r. repeat split. constructor.
  - destruct (destroySnapshotsErrorRegexp line) as [[[m1 m2] m3]|] eqn:Hm; [|discriminate].
    destruct (String.eqb_spec m1 filesystem) as [->|]; cbn [negb]; [|discriminate].
    intros H. apply IH in H as (Hfs & Hraw & Hne & found & Hu & Hr & Hall).
    split; [exact Hfs|]. split; [now rewrite Hraw, <- app_assoc|]. split; [exact Hne|].
    exists ((m2, m3) :: found). cbn [map fst snd].
    split; [now rewrite Hu, <- app_assoc|]. split; [now rewrite Hr, <- app_assoc|].
    constructor; [exact Hm|exact Hall].
Qed.

(** X20. Whenever [tryParseDestroySnapshotsError] returns an error, the error
    has as many reasons as snapshot names, one of each for every line of
    the output, and at least one: its method [Error] does not panic. Its
    filesystem is what comes before the first [@] of the argument, and every
    line was about a snapshot of that filesystem. So destroying something
    whose name has no [@], a filesystem or a bookmark, never gives a
    [*DestroySnapshotsError]. *)
Theorem tryParseDestroySnapshotsError_wellformed :
  (forall scan arg stderr e,
      tryParseDestroySnapshotsError scan arg stderr = Some e ->
      length (Undestroyable e) = length (Reason e)
      /\ length (Undestroyable e) = length (scan stderr)
      /\ 1 <= length (Undestroyable e)
      /\ RawLines e = scan stderr
      /\ (exists snaps, arg = Filesystem e +:+ String "@" snaps
                        /\ ContainsByte (Filesystem e) "@" = false)
      /\ Forall2 (fun line ur =>
                    destroySnapshotsErrorRegexp line = Some (Filesystem e, ur.1, ur.2))
                 (scan stderr) (combine (Undestroyable e) (Reason e))
      /\ exists msg, DestroySnapshotsError_Error e = Ok msg)
  /\ (forall run scan arg e,
        ContainsByte arg "@" = false -> ZFSDestroy run scan arg <> Some (DestroySnaps e)).
Proof.
  split.
  - intros scan arg stderr e. unfold tryParseDestroySnapshotsError.
    destruct (SplitN2 arg "@") as [|a [|b [|c l]]] eqn:Hs; cbn [length Nat.eqb negb];
      try discriminate.
    cbn [nth]. intros H.
    apply parseDestroyLines_spec in H as (Hfs & Hraw & Hne & found & Hu & Hr & Hall).
    cbn [app] in Hu, Hr, Hraw.
    assert (Hlen : length found = length (scan stderr))
      by (symmetry; eapply Forall2_length; exact Hall).
    assert (Hlu : length (Undestroyable e) = length (Reason e))
      by now rewrite Hu, Hr, !length_map.
    split; [exact Hlu|]. split; [now rewrite Hu, length_map|].
    split; [destruct (Undestroyable e); [contradiction|cbn; lia]|].
    split; [exact Hraw|]. split.
    { apply SplitN2_two in Hs as [-> Ha]. exists b. now rewrite Hfs. }
    split.
    { rewrite Hu, Hr, Hfs.
      replace (combine (map fst found) (map snd found)) with found; [exact Hall|].
      clear. induction found as [|[u r] found IH]; [reflexivity|]. cbn. now rewrite <- IH. }
    unfold DestroySnapshotsError_Error. rewrite <- Hlu, Nat.eqb_refl. cbn [negb].
    destruct (Nat.eqb_spec (length (Undestroyable e)) 0) as [E|_].
    { destruct (Undestroyable e); [contradiction|discriminate E]. }
    destruct (Nat.eqb (length (Undestroyable e)) 1); eauto.
  - intros run scan arg e Harg. unfold ZFSDestroy.
    destruct (run _) as [e0|stderr [we|]]; try discriminate.
    unfold tryParseDestroySnapshotsError. rewrite (SplitN2_no_sep _ _ Harg).
    cbn. discriminate.
Qed.

Lemma stripPrefix_append p s : stripPrefix p (p +:+ s) = Some s.
Proof.
  unfold stripPrefix. rewrite prefix_append, String_length_append.
  now rewrite Nat.add_comm, Nat.add_sub, substring_append_skip.
Qed.

Lemma splitLastColonSpace_Some s r : splitLastColonSpace s = Some r -> hasColonSpace s = true.
Proof.
  revert r. induction s as [|c s IH]; intros r; cbn [splitLastColonSpace hasColonSpace];
    [discriminate|].
  destruct (splitLastColonSpace s) as [[g2 g3]|].
  - intros _. rewrite (IH _ eq_refl). apply orb_true_r.
  - unfold stripPrefix. destruct (String.prefix ": " s) eqn:Hp; [|discriminate].
    intros _. destruct s as [|c1 s]; [discriminate|]. cbn [hasColonSpace String.prefix] in *.
    destruct (ascii_dec ":" c1) as [<-|]; [|discriminate].
    rewrite Ascii.eqb_refl, Hp. cbn. apply orb_true_r.
Qed.

Lemma splitLastColonSpace_String c rest :
  splitLastColonSpace (String c rest)
  = match splitLastColonSpace rest with
    | Some (g2, g3) => Some (String c g2, g3)
    | None => match stripPrefix ": " rest with
              | Some g3 => Some (String c EmptyString, g3)
              | None => None
              end
    end.
Proof. reflexivity. Qed.

Lemma splitLastColonSpace_line name reason :
  name <> "" -> hasColonSpace reason = false ->
  splitLastColonSpace (name +:+ ": " +:+ reason) = Some (name, reason).
Proof.
  intros Hne Hr. induction name as [|c name IH]; [congruence|].
  rewrite append_String, splitLastColonSpace_String.
  destruct name as [|c' name].
  - change ("" +:+ ": " +:+ reason) with (": " +:+ reason).
    replace (splitLastColonSpace (": " +:+ reason)) with (@None (string * string)).
    + now rewrite stripPrefix_append.
    + symmetry. change (": " +:+ reason) with (String ":" (String " " reason)).
      rewrite splitLastColonSpace_String.
      destruct (splitLastColonSpace (String " " reason)) as [r|] eqn:E.
      * apply splitLastColonSpace_Some in E. cbn [hasColonSpace] in E.
        rewrite Hr in E. discriminate E.
      * reflexivity.
  - now rewrite IH by discriminate.
Qed.

Lemma destroySnapshotsErrorRegexp_line fs name reason :
  fs <> "" -> ContainsByte fs "@" = false ->
  name <> "" -> ContainsByte name newline = false ->
  ContainsByte reason newline = false -> hasColonSpace reason = false ->
  destroySnapshotsErrorRegexp (cannotDestroyLine fs (name, reason)) = Some (fs, name, reason).
Proof.
  intros Hfs Hat Hname Hnn Hrn Hcs. unfold destroySnapshotsErrorRegexp, cannotDestroyLine.
  cbn [fst snd]. rewrite stripPrefix_append, SplitN2_append_sep by exact Hat.
  destruct (String.eqb_spec fs "") as [|_]; [contradiction|].
  rewrite !ContainsByte_append, Hnn, Hrn. cbn [orb ContainsByte].
  replace (ContainsByte ": " newline) with false by reflexivity. cbn [orb].
  now rewrite splitLastColonSpace_line.
Qed.

(** X21. [ZFSDestroy] of snapshots of a filesystem, when [zfs destroy] fails
    and its error output consists of lines [cannot destroy snapshot
    fs@name: reason] about that filesystem: the error is a
    [*DestroySnapshotsError] that lists the names and the reasons of the
    lines, in their order. The reasons are taken not to contain a colon
    followed by a space, since a line is cut at the last of them. *)
Theorem ZFSDestroy_reports_undestroyable (run : list string -> startWait)
  (scan : string -> list string) (fs snaps stderr : string) (werr : cmdErr)
  (entries : list (string * string)) :
  fs <> "" -> ContainsByte fs "@" = false -> entries <> [] ->
  Forall (fun nr => nr.1 <> "" /\ ContainsByte nr.1 newline = false
                    /\ ContainsByte nr.2 newline = false
                    /\ hasColonSpace nr.2 = false) entries ->
  scan stderr = map (cannotDestroyLine fs) entries ->
  run ["destroy"; fs +:+ String "@" snaps] = Waited stderr (Some werr) ->
  ZFSDestroy run scan (fs +:+ String "@" snaps)
  = Some (DestroySnaps {| RawLines := map (cannotDestroyLine fs) entries;
                          Filesystem := fs;
                          Undestroyable := map fst entries;
                          Reason := map snd entries |}).
Proof.
  intros Hfs Hat Hne Hall Hscan Hrun. unfold ZFSDestroy. rewrite Hrun.
  unfold tryParseDestroySnapshotsError.
  rewrite SplitN2_append_sep by exact Hat. cbn [length Nat.eqb negb nth]. rewrite Hscan.
  assert (H : forall und reason raw,
             und ++ map fst entries <> [] ->
             parseDestroyLines fs (map (cannotDestroyLine fs) entries) und reason raw
             = Some {| RawLines := raw ++ map (cannotDestroyLine fs) entries;
                       Filesystem := fs;
                       Undestroyable := und ++ map fst entries;
                       Reason := reason ++ map snd entries |}).
  { clear Hne Hscan Hrun. induction Hall as [|[name reason] entries (H1 & H2 & H3 & H4) _ IH];
      intros und rsn raw Hn.
    - cbn. rewrite !app_nil_r in *.
      destruct (Nat.eqb_spec (length und) 0) as [E|_]; [|reflexivity].
      destruct und; [contradiction|discriminate E].
    - cbn [map parseDestroyLines fst snd] in *.
      rewrite destroySnapshotsErrorRegexp_line by assumption.
      rewrite String.eqb_refl. cbn [negb].
      rewrite IH by (rewrite <- app_assoc; exact Hn).
      now rewrite <- !app_assoc. }
  rewrite H; [reflexivity|]. destruct entries; [contradiction|discriminate].
Qed.

Lemma ZFSDestroy_reports_undestroyable_witness :
  ZFSDestroy (fun _ => Waited "stderr" (Some (ExitError true "" "exit status 1")))
             (fun _ => map (cannotDestroyLine "pool/a")
                           [("s1", "snapshot has dependent clones"); ("s2", "dataset is busy")])
             ("pool/a" +:+ String "@" "s1,s2")
  = Some (DestroySnaps
            {| RawLines := map (cannotDestroyLine "pool/a")
                               [("s1", "snapshot has dependent clones");
                                ("s2", "dataset is busy")];
               Filesystem := "pool/a";
               Undestroyable := map fst [("s1", "snapshot has dependent clones");
                                         ("s2", "dataset is busy")];
               Reason := map snd [("s1", "snapshot has dependent clones");
                                  ("s2", "dataset is busy")] |}).
Proof.
  apply (ZFSDestroy_reports_undestroyable _ _ "pool/a" "s1,s2" "stderr"
           (ExitError true "" "exit status 1")).
  - discriminate.
  - reflexivity.
  - discriminate.
  - repeat constructor; discriminate.
  - reflexivity.
  - reflexivity.
Defined.

(** A reason that contains a colon followed by a space is cut there: what
    comes before goes to the name of the snapshot. *)
Example destroySnapshotsErrorRegexp_cut_at_last_colon :
  destroySnapshotsErrorRegexp "cannot destroy snapshot pool/a@s1: busy: held by zrepl"
  = Some ("pool/a", "s1: busy", "held by zrepl").
Proof. reflexivity. Qed.

End CommandArguments.
(** ** Native encryption *)

Section Encryption.
Import ZfsCmd SpecCmd.

(** X22. [ZFSGetEncryptionEnabled], when the command line of the binary
    supports encryption and [zfs get] prints one line: the answer is read
    off the value of the line, [off] meaning no, [-] being an error and
    every other value meaning yes. If the line is about another property
    than [encryption], the function panics. When the command line does not
    support encryption the answer is no, whatever the filesystem is, its
    name being empty included, and [zfs get] is not run. *)
Theorem ZFSGetEncryptionEnabled_decision :
  (forall envBool loadKey run fs st st' name val source,
      EncryptionCLISupported envBool loadKey st = ((true, None), st') ->
      fs <> "" ->
      plainField name -> plainField val -> plainField source ->
      run ["get"; "-Hp"; "-o"; "property,value,source"; "encryption"; fs]
      = (getOutput [(name, val, source)], None) ->
      ZFSGetEncryptionEnabled envBool loadKey run fs st
      = (if negb (String.eqb name "encryption")
         then Panic "zfs get should return a value for `encryption`"
         else if String.eqb val "-"
         then Err (Errorf "zfs get encryption enabled fs=%q: %s"
                     [FStr fs;
                      FErr (Errorf "`encryption` property should never be %q" [FStr "-"])])
         else if String.eqb val "off" then Ok false
         else Ok true, st'))
  /\ (forall envBool loadKey run fs st st',
        EncryptionCLISupported envBool loadKey st = ((false, None), st') ->
        ZFSGetEncryptionEnabled envBool loadKey run fs st = (Ok false, st')).
Proof.
  split.
  - intros envBool loadKey run fs st st' name val source Hsupp Hfs Hn Hv Hs Hrun.
    unfold ZFSGetEncryptionEnabled. rewrite Hsupp. cbn [negb].
    f_equal.
    assert (Hval : validateZFSFilesystem fs = Ok tt)
      by (destruct fs; [contradiction|reflexivity]).
    rewrite Hval.
    destruct (zfsGet_entries run fs ["encryption"] [(name, val, source)]
                eq_refl ltac:(constructor; [cbn [fst snd]; tauto | constructor]) Hrun)
      as (res & Hres & Hm).
    rewrite Hres.
    cbn [mbind result_bind]. unfold Get. rewrite Hm. cbn [map rev app fst snd list_to_map foldr].
    destruct (String.eqb_spec name "encryption") as [->|Hne]; cbn [negb].
    + rewrite lookup_insert_eq. cbn [default from_option]. unfold id.
      destruct Hv as (Hv & _).
      destruct (String.eqb_spec val "") as [|_]; [contradiction|].
      destruct (String.eqb val "-"); [reflexivity|].
      destruct (String.eqb val "off"); reflexivity.
    + rewrite lookup_insert_ne by exact Hne. rewrite lookup_empty. reflexivity.
  - intros envBool loadKey run fs st st' Hsupp.
    unfold ZFSGetEncryptionEnabled. now rewrite Hsupp.
Qed.

Lemma ZFSGetEncryptionEnabled_decision_witness :
  ZFSGetEncryptionEnabled (fun _ def => def)
    (fun _ => ("usage: load-key [-nr] [-L <keylocation>] <-a | filesystem|volume>",
               Some (ExitError true "" "exit status 2")))
    (fun _ => (getOutput [("encryption", "aes-256-gcm", "-")], None)) "pool/a"
    {| onceDone := false; supported := false; err := None |}
  = (Ok true, {| onceDone := true; supported := true; err := None |}).
Proof.
  apply (proj1 ZFSGetEncryptionEnabled_decision (fun _ def => def) _ _ "pool/a" _ _
           "encryption" "aes-256-gcm" "-").
  - reflexivity.
  - discriminate.
  - repeat split; discriminate.
  - repeat split; discriminate.
  - repeat split; discriminate.
  - reflexivity.
Defined.

End Encryption.

(** ** Receiving into a filesystem that exists and is not a placeholder *)

Lemma visitor_calls flt s lp v w :
  exists visitChildTree r w1,
    Endpoint.visitor flt s lp v (Ok tt, w) = (visitChildTree, (r, w1))
    /\ (visitChildTree = true -> r = Ok tt)
    /\ exists nc, calls w1 = nc ++ calls w /\ Forall (gentleCall (ToString lp)) nc.
Proof.
  unfold Endpoint.visitor.
  destruct (Equal v lp).
  { eexists _, _, _. split; [reflexivity|]. split; [discriminate|]. exists []. now split. }
  rewrite ZFSGetFilesystemPlaceholderState_run.
  set (probe := CallGetPlaceholder (ToString v)).
  assert (Hp : exists nc, calls (record probe w) = nc ++ calls w
                          /\ Forall (gentleCall (ToString lp)) nc).
  { exists [probe]. split; [reflexivity|]. repeat constructor. }
  destruct (flt w probe).
  { eexists _, _, _. split; [reflexivity|]. split; [discriminate|exact Hp]. }
  destruct (filesystems w !! ToString v) as [fsp|] eqn:Hfs; cbn [FSExists negb].
  { eexists _, _, _. split; [reflexivity|]. split; [reflexivity|exact Hp]. }
  destruct (HasPrefix (Endpoint.rootWithoutClientComponent s) v) eqn:Hroot.
  { eexists _, _, _. split; [reflexivity|]. split; [discriminate|exact Hp]. }
  rewrite ZFSCreatePlaceholderFilesystem_run.
  set (create := CallCreatePlaceholder (ToString v)).
  assert (Hc : exists nc, calls (record create (record probe w)) = nc ++ calls w
                          /\ Forall (gentleCall (ToString lp)) nc).
  { exists [create; probe]. split; [reflexivity|]. repeat constructor. }
  destruct (flt (record probe w) create).
  { eexists _, _, _. split; [reflexivity|]. split; [discriminate|exact Hc]. }
  rewrite filesystems_record, Hfs.
  eexists _, _, _. split; [reflexivity|]. split; [reflexivity|exact Hc].
Qed.

Lemma WalkTopDown_calls flt s lp vs : forall w r w',
  WalkTopDown vs (Endpoint.visitor flt s lp) (Ok tt, w) = (r, w') ->
  exists nc, calls w' = nc ++ calls w /\ Forall (gentleCall (ToString lp)) nc.
Proof.
  induction vs as [|v vs IH]; intros w r w' H.
  - cbn in H. injection H as <- <-. exists []. now split.
  - cbn [WalkTopDown] in H.
    destruct (visitor_calls flt s lp v w) as (b & r1 & w1 & Hstep & Hr & nc1 & Hc1 & Hg1).
    rewrite Hstep in H. destruct b.
    + rewrite (Hr eq_refl) in H. apply IH in H as (nc2 & Hc2 & Hg2).
      exists (nc2 ++ nc1). split; [rewrite Hc2, Hc1; now rewrite app_assoc|].
      apply Forall_app. now split.
    + injection H as <- <-. eauto.
Qed.

(** X23. [Receive] into a filesystem that exists and is not a placeholder never
    forces anything, whatever fails: it runs [zfs recv] on the target only
    and without rollback, it does not set the placeholder property of any
    filesystem and destroys nothing, and afterwards the target still exists
    and is not a placeholder. *)
Theorem Receive_does_not_force_existing_filesystem
  (flt : Faults) (s : Endpoint.Receiver) (ctx : option string)
  (req : Pdu.ReceiveReq.t) (receive : sendStreamCopier)
  (w w' : World) (r : result unit) (root lp : DatasetPath) (fsp : FSProps) :
  Endpoint.clientRootFromCtx s ctx = Ok root ->
  Endpoint.MapToLocal {| Endpoint.localRoot := root |} (Pdu.ReceiveReq.Filesystem req) = Ok lp ->
  filesystems w !! ToString lp = Some fsp ->
  placeholder fsp = false ->
  Endpoint.Receive flt s ctx req receive w = (r, w') ->
  exists newcalls,
    calls w' = newcalls ++ calls w
    /\ Forall (gentleCall (ToString lp)) newcalls
    /\ exists p, filesystems w' !! ToString lp = Some p /\ placeholder p = false.
Proof.
  intros Hroot Hlp Hfs Hph.
  set (J := fun w0 : World =>
              exists nc, calls w0 = nc ++ calls w
                /\ Forall (gentleCall (ToString lp)) nc
                /\ exists p, filesystems w0 !! ToString lp = Some p /\ placeholder p = false).
  change (Endpoint.Receive flt s ctx req receive w = (r, w') -> J w').
  assert (Jrec : forall w0 c, J w0 -> gentleCall (ToString lp) c -> J (record c w0)).
  { intros w0 c (nc & Hc & Hg & Hp) Hgc. exists (c :: nc).
    split; [cbn; now rewrite Hc|]. split; [now constructor|]. exact Hp. }
  unfold Endpoint.Receive. rewrite bindM_run. unfold lift at 1. rewrite Hroot.
  rewrite bindM_run. unfold lift at 1. rewrite Hlp.
  rewrite bindM_run.
  destruct (Endpoint.createPlaceholderParents flt s lp w) as [r1 w1] eqn:Hwalk.
  assert (J1 : J w1).
  { unfold Endpoint.createPlaceholderParents in Hwalk.
    destruct (WalkTopDown_calls _ _ _ _ _ _ _ Hwalk) as (nc & Hc & Hg).
    apply WalkTopDown_walked in Hwalk as (_ & _ & Hf).
    exists nc. split; [exact Hc|]. split; [exact Hg|].
    destruct (Hf (ToString lp)) as [E|(N & _)]; [|congruence].
    exists fsp. now rewrite E. }
  destruct r1 as [[]|e|m]; [|intros [= <- <-]; exact J1..].
  (* the placeholder state of the target *)
  rewrite bindM_run. unfold try. rewrite ZFSGetFilesystemPlaceholderState_run.
  set (probe := CallGetPlaceholder (ToString lp)).
  assert (J2 : J (record probe w1)) by (apply Jrec; [exact J1|exact I]).
  destruct J1 as (_ & _ & _ & p1 & Hp1 & Hb1).
  set (w2 := record probe w1) in *.
  assert (Hrest : forall (exists_ : bool),
    ((if false
      then mapErr
             (fun e => Errorf "cannot clear placeholder property for forced receive: %s" [FErr e])
             (ZFSSetPlaceholder flt lp false)
      else mret tt);;
     (if Pdu.ReceiveReq.ClearResumeToken req && exists_
      then mapErr (fun e => Wrap e "cannot clear resume token")
                  (ZFSRecvClearResumeToken flt (ToString lp))
      else mret tt);;
     savePartialRecvState ←
       mapErr (fun e => Wrap e "cannot determine whether we can use resumable send & recv")
              (ResumeRecvSupported flt lp);
     let recvOpts := {| RollbackAndForceRecv := false;
                        SavePartialRecvState := savePartialRecvState |} in
     call flt CallAcquireRecv;;
     ZFSRecv flt (ToString lp) receive recvOpts) w2 = (r, w') -> J w').
  { intros exists_. rewrite bindM_run. cbn [mret M_ret].
    rewrite bindM_run.
    destruct ((if Pdu.ReceiveReq.ClearResumeToken req && exists_
               then mapErr (fun e => Wrap e "cannot clear resume token")
                           (ZFSRecvClearResumeToken flt (ToString lp))
               else mret tt) w2) as [r3 w3] eqn:H3.
    assert (J3 : J w3).
    { destruct (Pdu.ReceiveReq.ClearResumeToken req && exists_).
      - unfold mapErr in H3.
        destruct (ZFSRecvClearResumeToken flt (ToString lp) w2) as [r0 w0] eqn:H0.
        assert (w3 = w0) as -> by (destruct r0; congruence).
        destruct J2 as (nc & Hc & Hg & Hp).
        destruct (ZFSRecvClearResumeToken_keeps flt _ _ _ _ false H0) as (Hk & _).
        assert (Hcalls : calls w0 = calls w2 \/ calls w0 = CallRecvAbort (ToString lp) :: calls w2).
        { revert H0. unfold ZFSRecvClearResumeToken, lift, mapErr. rewrite bindM_run.
          destruct (validateZFSFilesystem (ToString lp)) as [[]|e|m];
            [|intros [= <- <-]; now left..].
          rewrite bindM_run, call_run. unfold effect.
          destruct (flt w2 _); [intros [= <- <-]; now right|].
          rewrite filesystems_record.
          destruct (filesystems w2 !! ToString lp); intros [= <- <-]; now right. }
        destruct Hcalls as [E|E].
        + exists nc. split; [now rewrite E|]. split; [exact Hg|]. now apply Hk.
        + exists (CallRecvAbort (ToString lp) :: nc). split; [rewrite E, Hc; reflexivity|].
          split; [constructor; [exact I|exact Hg]|]. now apply Hk.
      - injection H3 as <- <-. exact J2. }
    destruct r3 as [[]|e|m]; [|intros [= <- <-]; exact J3..].
    (* resume support *)
    rewrite bindM_run. unfold mapErr at 1, ResumeRecvSupported.
    rewrite bindM_run, call_run. unfold effect.
    set (c5 := CallResumeRecvSupported (ToString lp)).
    assert (J5 : J (record c5 w3)) by (apply Jrec; [exact J3|exact I]).
    destruct (flt w3 c5) as [e|]; [intros [= <- <-]; exact J5|].
    cbv zeta. rewrite bindM_run, call_run.
    set (w5 := record c5 w3) in *.
    assert (J6 : J (record CallAcquireRecv w5)) by (apply Jrec; [exact J5|exact I]).
    destruct (flt w5 CallAcquireRecv) as [e|]; [intros [= <- <-]; exact J6|].
    set (w6 := record CallAcquireRecv w5) in *.
    intros Hrecv.
    destruct (ZFSRecv_keeps flt _ _ _ _ _ _ false Hrecv) as (Hk & later & Hl & Hin & _).
    destruct J6 as (nc & Hc & Hg & Hp).
    exists (later ++ nc). split; [rewrite Hl, Hc; now rewrite app_assoc|].
    split; [|now apply Hk].
    apply Forall_app. split; [|exact Hg].
    assert (Hlater : later = [] \/ later = [CallRecv (ToString lp)
                                  {| RollbackAndForceRecv := false;
                                     SavePartialRecvState := resumable w3 |}]).
    { revert Hrecv Hl. rewrite ZFSRecv_unforced. unfold lift. rewrite bindM_run.
      destruct (validateZFSFilesystem (ToString lp)) as [[]|e|m].
      2,3: intros H0 Hl; injection H0 as Hr0 <-; left;
           apply (f_equal (@length Call)) in Hl; rewrite length_app in Hl;
           destruct later; [reflexivity|cbn in Hl; lia].
      rewrite bindM_run.
      destruct (NewDatasetPath (ToString lp)) as [dp|e|m].
      2,3: intros H0 Hl; injection H0 as Hr0 <-; left;
           apply (f_equal (@length Call)) in Hl; rewrite length_app in Hl;
           destruct later; [reflexivity|cbn in Hl; lia].
      rewrite bindM_run, call_run. unfold effect.
      assert (Hone : forall wx, calls wx = CallRecv (ToString lp)
                         {| RollbackAndForceRecv := false;
                            SavePartialRecvState := resumable w3 |} :: calls w6 ->
                calls wx = later ++ calls w6 ->
                later = [CallRecv (ToString lp)
                           {| RollbackAndForceRecv := false;
                              SavePartialRecvState := resumable w3 |}]).
      { intros wx E1 E2. rewrite E1 in E2.
        change (?c :: calls w6) with ([c] ++ calls w6) in E2.
        now apply app_inv_tail in E2. }
      destruct (flt w6 _); intros [= _ <-] Hl; right; eapply Hone; eauto; reflexivity. }
    destruct Hlater as [-> | ->]; repeat constructor. }
  destruct (flt w1 probe) as [e|].
  - (* the query failed: the state is taken as that of no filesystem *)
    cbn [FSExists IsPlaceholder andb]. apply (Hrest false).
  - rewrite Hp1. cbn [FSExists IsPlaceholder]. rewrite Hb1. cbn [andb]. apply (Hrest true).
Qed.

Lemma Receive_does_not_force_existing_filesystem_witness :
  exists newcalls,
    calls (snd (Endpoint.Receive Demo.noFaults Demo.receiver (Some "alice")
                  (Demo.receiveReq "data") Demo.someStream Demo.dataWorld))
    = newcalls ++ calls Demo.dataWorld
    /\ Forall (gentleCall "tank/backups/alice/data") newcalls
    /\ exists p,
         filesystems (snd (Endpoint.Receive Demo.noFaults Demo.receiver (Some "alice")
                             (Demo.receiveReq "data") Demo.someStream Demo.dataWorld))
           !! "tank/backups/alice/data" = Some p
         /\ placeholder p = false.
Proof.
  apply (Receive_does_not_force_existing_filesystem Demo.noFaults Demo.receiver (Some "alice")
           (Demo.receiveReq "data") Demo.someStream Demo.dataWorld _
           (fst (Endpoint.Receive Demo.noFaults Demo.receiver (Some "alice")
                   (Demo.receiveReq "data") Demo.someStream Demo.dataWorld))
           {| comps := ["tank"; "backups"; "alice"] |}
           {| comps := ["tank"; "backups"; "alice"; "data"] |} Demo.plainFS).
  - reflexivity.
  - reflexivity.
  - vm_compute. reflexivity.
  - reflexivity.
  - apply surjective_pairing.
Defined.

(** ** The root of a client *)

Lemma ContainsAny_String c s chars :
  ContainsAny (String c s) chars = byteIn c chars || ContainsAny s chars.
Proof. reflexivity. Qed.

Lemma ContainsAny_append a b chars :
  ContainsAny (a +:+ b) chars = ContainsAny a chars || ContainsAny b chars.
Proof.
  induction a as [|c a IH]; [reflexivity|].
  rewrite append_String, !ContainsAny_String, IH. now rewrite orb_assoc.
Qed.

Lemma Join_snoc l x sep :
  l <> [] -> Join (l ++ [x]) sep = Join l sep +:+ sep +:+ x.
Proof. intros H. now rewrite Join_app_cons. Qed.

Lemma Split_Join l :
  l <> [] -> Forall (fun c => ContainsByte c "/" = false) l -> Split (Join l "/") "/" = l.
Proof.
  intros Hne H. induction H as [|x l Hx Hl IH]; [congruence|].
  destruct l as [|y l].
  - cbn [Join String.concat]. clear IH Hne.
    induction x as [|c x IHx]; [reflexivity|].
    rewrite ContainsByte_String in Hx. apply orb_false_iff in Hx as [Hc Hx].
    cbn [Split]. rewrite Ascii.eqb_sym, Hc. now rewrite IHx.
  - rewrite Join_cons_cons. change ("/" +:+ Join (y :: l) "/") with (String "/" (Join (y :: l) "/")).
    rewrite Split_append_sep by exact Hx. now rewrite IH.
Qed.

Lemma cleanElems_plain rooted elems : forall out,
  Forall plainComponent elems -> GoPath.cleanElems rooted out elems = rev out ++ elems.
Proof.
  induction elems as [|e elems IH]; intros out H; cbn [GoPath.cleanElems].
  - now rewrite app_nil_r.
  - apply Forall_cons in H as [(H1 & H2 & H3 & _) H].
    destruct (String.eqb_spec e "") as [|_]; [contradiction|].
    destruct (String.eqb_spec e ".") as [|_]; [contradiction|].
    destruct (String.eqb_spec e "..") as [|_]; [contradiction|]. cbn [orb].
    rewrite IH by exact H. cbn [rev]. now rewrite <- app_assoc.
Qed.

Lemma ContainsAny_Join l :
  Forall plainComponent l -> ContainsAny (Join l "/") FORBIDDEN = false.
Proof.
  induction 1 as [|x l (_ & _ & _ & _ & Hx) _ IH]; [reflexivity|].
  destruct l as [|y l]; [exact Hx|].
  rewrite Join_cons_cons, !ContainsAny_append, Hx, IH. reflexivity.
Qed.

(** X24. For a root whose components are clean and a client identity that is
    one clean component, the root of the client is the root extended by the
    identity: [TestClientIdentity] accepts it and [clientRootFromCtx] does
    not panic. *)
Theorem clientRoot_single_component (rootFS : DatasetPath) (clientIdentity : string) :
  comps rootFS <> [] ->
  Forall plainComponent (comps rootFS) ->
  plainComponent clientIdentity ->
  Endpoint.clientRoot rootFS clientIdentity
  = Ok {| comps := comps rootFS ++ [clientIdentity] |}
  /\ Endpoint.TestClientIdentity rootFS clientIdentity = Ok tt
  /\ Endpoint.clientRootFromCtx
       {| Endpoint.rootWithoutClientComponent := rootFS;
          Endpoint.appendClientIdentity := true |} (Some clientIdentity)
     = Ok {| comps := comps rootFS ++ [clientIdentity] |}.
Proof.
  intros Hne Hroot Hid.
  assert (Hall : Forall plainComponent (comps rootFS ++ [clientIdentity])).
  { apply Forall_app. split; [exact Hroot|]. now constructor. }
  assert (Hslash : Forall (fun c => ContainsByte c "/" = false) (comps rootFS ++ [clientIdentity])).
  { eapply Forall_impl; [exact Hall|]. now intros c (_ & _ & _ & H & _). }
  assert (Hne' : comps rootFS ++ [clientIdentity] <> []) by (now destruct (comps rootFS)).
  set (path := Join (comps rootFS ++ [clientIdentity]) "/").
  assert (Hpath : exists c rest, path = String c rest /\ c <> "/"%char).
  { subst path. destruct (comps rootFS) as [|x l] eqn:E; [contradiction|].
    apply Forall_cons in Hroot as [(Hx & _ & _ & Hxs & _) _].
    destruct x as [|c x]; [contradiction|].
    exists c. cbn [app]. rewrite Join_String_head. eexists. split; [reflexivity|].
    rewrite ContainsByte_String in Hxs. apply orb_false_iff in Hxs as [Hc _].
    intros ->. discriminate Hc. }
  assert (Hjoin : GoPath.Join2 (ToString rootFS) clientIdentity = path).
  { unfold GoPath.Join2.
    destruct Hid as (Hid & _).
    destruct (Nat.eqb_spec (String.length (ToString rootFS) + String.length clientIdentity) 0)
      as [E|_].
    { destruct clientIdentity; [contradiction|]. cbn in E. lia. }
    assert (Hr : ToString rootFS <> "").
    { unfold ToString. destruct (comps rootFS) as [|x l] eqn:E; [contradiction|].
      apply Forall_cons in Hroot as [(Hx & _) _].
      destruct x as [|c x]; [contradiction|]. rewrite Join_String_head. discriminate. }
    destruct (String.eqb_spec (ToString rootFS) "") as [|_]; [contradiction|].
    replace (ToString rootFS +:+ "/" +:+ clientIdentity) with path
      by (subst path; unfold ToString; now rewrite Join_snoc).
    unfold GoPath.Clean.
    destruct Hpath as (c & rest & Hp & Hc). rewrite Hp.
    cbn [String.eqb]. unfold slice01. cbn [String.substring].
    replace (String.substring 0 0 rest) with "" by (now destruct rest).
    replace (String.eqb (String c "") "/") with false.
    2: { symmetry. apply String.eqb_neq. congruence. }
    rewrite <- Hp. subst path. rewrite Split_Join by assumption.
    rewrite cleanElems_plain by exact Hall. cbn [rev app].
    change ("" +:+ ?x) with x. rewrite Hp. reflexivity. }
  assert (Hnew : NewDatasetPath path = Ok {| comps := comps rootFS ++ [clientIdentity] |}).
  { unfold NewDatasetPath.
    destruct Hpath as (c & rest & Hp & _).
    destruct (String.eqb_spec path "") as [E|_]; [rewrite Hp in E; discriminate E|].
    subst path. rewrite ContainsAny_Join by exact Hall.
    rewrite Split_Join by assumption.
    rewrite length_app. cbn [length]. rewrite Nat.add_sub.
    rewrite app_nth2, Nat.sub_diag by lia. cbn [nth].
    destruct Hid as (Hid & _).
    destruct (String.eqb_spec clientIdentity "") as [|_]; [contradiction|]. reflexivity. }
  assert (Hcr : Endpoint.clientRoot rootFS clientIdentity
                = Ok {| comps := comps rootFS ++ [clientIdentity] |}).
  { unfold Endpoint.clientRoot. cbv zeta. rewrite Hjoin, Hnew. cbn [mbind result_bind].
    unfold Length. cbn [comps]. rewrite length_app. cbn [length].
    now rewrite Nat.eqb_refl. }
  split; [exact Hcr|]. split.
  - unfold Endpoint.TestClientIdentity. now rewrite Hcr.
  - unfold Endpoint.clientRootFromCtx. cbn. now rewrite Hcr.
Qed.

Lemma clientRoot_single_component_witness :
  Endpoint.clientRoot {| comps := ["tank"; "backups"] |} "alice"
  = Ok {| comps := ["tank"; "backups"] ++ ["alice"] |}
  /\ Endpoint.TestClientIdentity {| comps := ["tank"; "backups"] |} "alice" = Ok tt
  /\ Endpoint.clientRootFromCtx
       {| Endpoint.rootWithoutClientComponent := {| comps := ["tank"; "backups"] |};
          Endpoint.appendClientIdentity := true |} (Some "alice")
     = Ok {| comps := ["tank"; "backups"] ++ ["alice"] |}.
Proof.
  apply (clientRoot_single_component {| comps := ["tank"; "backups"] |} "alice").
  - discriminate.
  - repeat constructor; discriminate.
  - repeat split; discriminate.
Defined.

(** ** Reading into several buffers *)

Section Readv.
Import Timeoutconn.

Lemma length_addresses v : length (addresses v) = Z.to_nat (Len v).
Proof. unfold addresses. now rewrite length_map, length_seq. Qed.

Lemma totalLen_cons v iovecs : totalLen (v :: iovecs) = (Len v + totalLen iovecs)%Z.
Proof. reflexivity. Qed.

Lemma covered_cons v iovecs : covered (v :: iovecs) = addresses v ++ covered iovecs.
Proof. reflexivity. Qed.

Lemma totalLen_nonneg iovecs :
  Forall (fun v => (0 <= Len v)%Z) iovecs -> (0 <= totalLen iovecs)%Z.
Proof.
  induction 1 as [|v iovecs Hv _ IH]; [reflexivity|]. rewrite totalLen_cons. lia.
Qed.

Lemma map_seq_skipn (f : nat -> Z) k a n :
  skipn k (map f (seq a n)) = map f (seq (a + k) (n - k)).
Proof.
  revert a n. induction k as [|k IH]; intros a n.
  - cbn [skipn]. now rewrite Nat.add_0_r, Nat.sub_0_r.
  - destruct n as [|n]; [reflexivity|]. cbn [seq map skipn].
    rewrite IH. now rewrite Nat.add_succ_r.
Qed.

Lemma addresses_trim v left :
  (0 <= left)%Z -> (left < Len v)%Z ->
  addresses {| Base := Base v + left; Len := Len v - left |}
  = skipn (Z.to_nat left) (addresses v).
Proof.
  intros H0 H1. unfold addresses. cbn [Base Len].
  rewrite map_seq_skipn. cbn [Nat.add].
  replace (Z.to_nat (Len v) - Z.to_nat left) with (Z.to_nat (Len v - left)) by lia.
  generalize (Z.to_nat (Len v - left)) as n. intros n.
  change (Z.to_nat left) with (0 + Z.to_nat left) at 1.
  generalize 0 as a. induction n as [|n IH]; intros a; [reflexivity|].
  cbn [seq map]. f_equal; [lia|]. apply (IH (S a)).
Qed.

(** What the shifting loop does, when it ends without panic. *)
Lemma shiftIovecs_Ok iovecs : forall left iovecs',
  Forall (fun v => (0 <= Len v)%Z) iovecs -> (0 <= left)%Z ->
  shiftIovecs iovecs left = Ok iovecs' ->
  (left <= totalLen iovecs)%Z /\
  totalLen iovecs' = (totalLen iovecs - left)%Z /\
  covered iovecs' = skipn (Z.to_nat left) (covered iovecs) /\
  Forall (fun v => (0 <= Len v)%Z) iovecs'.
Proof.
  induction iovecs as [|v rest IH]; intros left iovecs' Hall H0 Hs; cbn [shiftIovecs] in Hs.
  - destruct (Z.ltb_spec 0 left); [discriminate|]. injection Hs as <-.
    assert (left = 0%Z) as -> by lia.
    split; [reflexivity|]. split; [reflexivity|]. split; [reflexivity|constructor].
  - pose proof (Forall_inv Hall) as Hv. pose proof (Forall_inv_tail Hall) as Hrest.
    cbv beta in Hv.
    destruct (Z.ltb_spec 0 left) as [Hpos|Hz].
    + cbv zeta in Hs. destruct (Z.leb_spec (Len v) left) as [Hle|Hlt].
      * assert (0 <= left - Len v)%Z as Hge by lia.
        destruct (IH _ _ Hrest Hge Hs) as (Ha & Hb & Hc & Hd).
        rewrite totalLen_cons, covered_cons.
        split; [lia|]. split; [lia|]. split; [|exact Hd].
        rewrite Hc, skipn_app, length_addresses.
        rewrite (skipn_all2 (addresses v)) by (rewrite length_addresses; lia).
        cbn [app]. f_equal. lia.
      * injection Hs as <-. rewrite !totalLen_cons, !covered_cons. cbn [Len].
        pose proof (totalLen_nonneg _ Hrest).
        split; [lia|]. split; [lia|]. split.
        -- rewrite skipn_app, length_addresses, addresses_trim by lia.
           replace (Z.to_nat left - Z.to_nat (Len v)) with 0 by lia. reflexivity.
        -- constructor; [cbn [Len]; lia|exact Hrest].
    + injection Hs as <-. assert (left = 0%Z) as -> by lia.
      split; [apply totalLen_nonneg, Hall|].
      split; [lia|]. split; [reflexivity|exact Hall].
Qed.

(** The shifting loop ends without panic when the count is within the
    buffers, and panics otherwise. *)
Lemma shiftIovecs_within iovecs : forall left,
  Forall (fun v => (0 <= Len v)%Z) iovecs ->
  (left <= totalLen iovecs)%Z -> exists iovecs', shiftIovecs iovecs left = Ok iovecs'.
Proof.
  induction iovecs as [|v rest IH]; intros left Hall Hle; cbn [shiftIovecs].
  - change (totalLen []) with 0%Z in Hle. destruct (Z.ltb_spec 0 left); [lia|]. now eexists.
  - pose proof (Forall_inv Hall) as Hv. pose proof (Forall_inv_tail Hall) as Hrest.
    rewrite totalLen_cons in Hle.
    destruct (Z.ltb_spec 0 left); [|now eexists].
    cbv zeta. destruct (Z.leb_spec (Len v) left); [|now eexists].
    apply IH; [exact Hrest|lia].
Qed.

Lemma shiftIovecs_beyond iovecs : forall left,
  Forall (fun v => (0 <= Len v)%Z) iovecs ->
  (totalLen iovecs < left)%Z -> shiftIovecs iovecs left = Panic "index out of range".
Proof.
  induction iovecs as [|v rest IH]; intros left Hall Hlt; cbn [shiftIovecs].
  - change (totalLen []) with 0%Z in Hlt. destruct (Z.ltb_spec 0 left); [reflexivity|lia].
  - pose proof (Forall_inv Hall) as Hv. pose proof (Forall_inv_tail Hall) as Hrest.
    cbv beta in Hv. pose proof (totalLen_nonneg _ Hrest).
    rewrite totalLen_cons in Hlt.
    destruct (Z.ltb_spec 0 left); [|lia].
    cbv zeta. destruct (Z.leb_spec (Len v) left); [|lia].
    apply IH; [exact Hrest|lia].
Qed.


(** One call of the function, when there is an iovec. *)
Lemma readCallback_cons r rest iovecs :
  iovecs <> [] ->
  readCallback (r :: rest) iovecs
  = match r with
    | Eagain => readCallback rest iovecs
    | Errno e => Ok (0%Z, Some e, iovecs)
    | Count thisReadN =>
        if (2 ^ 63 <=? thisReadN)%N then Panic "unexpected return value"
        else
          iovecs ← shiftIovecs iovecs (Z.of_N thisReadN);
          if (thisReadN =? 0)%N then Ok (Z.of_N thisReadN, Some EOF, iovecs)
          else Ok (Z.of_N thisReadN, None, iovecs)
    end.
Proof. destruct iovecs; [contradiction|reflexivity]. Qed.

Lemma readCallback_Ok syscalls : forall iovecs oneN err iovecs',
  Forall (fun v => (0 <= Len v)%Z) iovecs ->
  readCallback syscalls iovecs = Ok (oneN, err, iovecs') ->
  (0 <= oneN <= totalLen iovecs)%Z /\
  totalLen iovecs' = (totalLen iovecs - oneN)%Z /\
  covered iovecs' = skipn (Z.to_nat oneN) (covered iovecs) /\
  Forall (fun v => (0 <= Len v)%Z) iovecs' /\
  (err = None -> (exists r, In r syscalls /\ r <> Eagain) -> (0 < oneN)%Z).
Proof.
  induction syscalls as [|r rest IH]; intros iovecs oneN err iovecs' Hall Hr.
  - cbn [readCallback] in Hr.
    injection Hr as <- <- <-. pose proof (totalLen_nonneg _ Hall).
    split; [lia|]. split; [lia|]. split; [reflexivity|]. split; [exact Hall|].
    intros _ (r & [] & _).
  - assert (Hne : iovecs <> []) by (intros ->; discriminate Hr).
    rewrite (readCallback_cons _ _ _ Hne) in Hr.
    destruct r as [k| |e].
    + destruct (N.leb_spec (2 ^ 63) k); [discriminate|].
      destruct (shiftIovecs iovecs (Z.of_N k)) as [shifted|e|msg] eqn:Hs;
        cbn [mbind result_bind] in Hr; try discriminate.
      destruct (shiftIovecs_Ok _ _ _ Hall (N2Z.is_nonneg k) Hs) as (Ha & Hb & Hc & Hd).
      assert (oneN = Z.of_N k /\ iovecs' = shifted /\ (err = None -> k <> 0%N))
        as (-> & -> & Hk).
      { destruct (N.eqb_spec k 0); injection Hr as <- <- <-;
          (split; [reflexivity|split; [reflexivity|]]); [discriminate|auto]. }
      split; [lia|]. split; [exact Hb|]. split; [exact Hc|]. split; [exact Hd|].
      intros He _. specialize (Hk He). lia.
    + destruct (IH _ _ _ _ Hall Hr) as (Ha & Hb & Hc & Hd & He).
      split; [exact Ha|]. split; [exact Hb|]. split; [exact Hc|]. split; [exact Hd|].
      intros Hn (r & [<-|Hin] & Hne'); [congruence|]. apply He; [exact Hn|]. now exists r.
    + injection Hr as <- <- <-. pose proof (totalLen_nonneg _ Hall).
      split; [lia|]. split; [lia|]. split; [reflexivity|]. split; [exact Hall|].
      discriminate.
Qed.

Lemma doOneReadv_Ok syscalls rawReadErr iovecs oneN err iovecs' :
  Forall (fun v => (0 <= Len v)%Z) iovecs ->
  doOneReadv syscalls rawReadErr iovecs = Ok (oneN, err, iovecs') ->
  (0 <= oneN <= totalLen iovecs)%Z /\
  totalLen iovecs' = (totalLen iovecs - oneN)%Z /\
  Forall (fun v => (0 <= Len v)%Z) iovecs' /\
  (err = None -> rawReadErr = None /\
     ((exists r, In r syscalls /\ r <> Eagain) -> (0 < oneN)%Z)).
Proof.
  intros Hall Hr. unfold doOneReadv in Hr.
  destruct (readCallback syscalls iovecs) as [[[n0 e0] v0]|e|msg] eqn:Hc;
    cbn [mbind result_bind] in Hr; try discriminate.
  injection Hr as <- <- <-.
  destruct (readCallback_Ok _ _ _ _ _ Hall Hc) as (Ha & Hb & _ & Hd & He).
  split; [exact Ha|]. split; [exact Hb|]. split; [exact Hd|].
  destruct rawReadErr as [e|]; [discriminate|]. intros ->. split; [reflexivity|].
  now apply He.
Qed.

Lemma readvLoop_Ok renew reads isTimeout : forall fuel i iovecs n0 n err,
  Forall (fun v => (0 <= Len v)%Z) iovecs ->
  readvLoop fuel renew reads isTimeout i iovecs n0 = Some (Ok (n, err)) ->
  (n0 <= n <= n0 + totalLen iovecs)%Z /\
  ((forall j, snd (reads j) = None -> exists r, In r (fst (reads j)) /\ r <> Eagain) ->
   err = None -> n = (n0 + totalLen iovecs)%Z).
Proof.
  induction fuel as [|fuel IH]; intros i iovecs n0 n err Hall Hr.
  - destruct iovecs; cbn [readvLoop] in Hr; [|discriminate].
    injection Hr as <- <-. change (totalLen []) with 0%Z. split; [lia|]. intros; lia.
  - pose proof (totalLen_nonneg _ Hall) as Hnn.
    destruct iovecs as [|v rest]; cbn [readvLoop] in Hr.
    { injection Hr as <- <-. change (totalLen []) with 0%Z. split; [lia|]. intros; lia. }
    destruct (renew i) as [e|].
    { injection Hr as <- <-. split; [lia|]. discriminate. }
    destruct (doOneReadv (fst (reads i)) (snd (reads i)) (v :: rest))
      as [[[oneN oneErr] iovecs']|e|msg] eqn:Hone; try discriminate.
    destruct (doOneReadv_Ok _ _ _ _ _ _ Hall Hone) as (Ha & Hb & Hd & He).
    cbv zeta in Hr.
    assert (readvLoop fuel renew reads isTimeout (S i) iovecs' (n0 + oneN) = Some (Ok (n, err)) ->
            (n0 <= n <= n0 + totalLen (v :: rest))%Z /\
            ((forall j, snd (reads j) = None -> exists r, In r (fst (reads j)) /\ r <> Eagain) ->
             err = None -> n = (n0 + totalLen (v :: rest))%Z)) as Hagain.
    { intros Hl. destruct (IH _ _ _ _ _ Hd Hl) as (H1 & H2).
      split; [lia|]. intros Hc Hn. rewrite (H2 Hc Hn). lia. }
    destruct oneErr as [e|].
    + destruct (isTimeout e && (0 <? oneN)%Z); [exact (Hagain Hr)|].
      injection Hr as <- <-. split; [lia|]. discriminate.
    + destruct (Z.ltb_spec 0 oneN) as [Hpos|Hz]; [exact (Hagain Hr)|].
      injection Hr as <- _. split; [lia|]. intros Hc _.
      destruct (He eq_refl) as (Hraw & Hp). specialize (Hp (Hc i Hraw)). lia.
Qed.

Lemma readvLoop_terminates renew reads isTimeout : forall fuel i iovecs n0,
  Forall (fun v => (0 <= Len v)%Z) iovecs ->
  (Z.to_nat (totalLen iovecs) < fuel)%nat ->
  exists r, readvLoop fuel renew reads isTimeout i iovecs n0 = Some r.
Proof.
  induction fuel as [|fuel IH]; intros i iovecs n0 Hall Hf; [lia|].
  destruct iovecs as [|v rest]; cbn [readvLoop]; [now eexists|].
  destruct (renew i) as [e|]; [now eexists|].
  destruct (doOneReadv (fst (reads i)) (snd (reads i)) (v :: rest))
    as [[[oneN oneErr] iovecs']|e|msg] eqn:Hone; try (now eexists).
  destruct (doOneReadv_Ok _ _ _ _ _ _ Hall Hone) as (Ha & Hb & Hd & _).
  cbv zeta.
  assert ((0 < oneN)%Z ->
          exists r, readvLoop fuel renew reads isTimeout (S i) iovecs' (n0 + oneN) = Some r)
    as Hagain.
  { intros Hpos. apply IH; [exact Hd|]. rewrite Hb. lia. }
  destruct oneErr as [e|].
  - destruct (Z.ltb_spec 0 oneN) as [Hpos|Hz].
    + destruct (isTimeout e); cbn [andb]; [exact (Hagain Hpos)|now eexists].
    + rewrite andb_false_r. now eexists.
  - destruct (Z.ltb_spec 0 oneN) as [Hpos|Hz]; [exact (Hagain Hpos)|now eexists].
Qed.

Lemma readCallback_Eagain j syscalls iovecs :
  iovecs <> [] ->
  readCallback (repeat Eagain j ++ syscalls) iovecs = readCallback syscalls iovecs.
Proof.
  intros Hne. induction j as [|j IH]; [reflexivity|].
  cbn [repeat app]. now rewrite readCallback_cons.
Qed.

(** X25. There is at least one iovec. After any number of [EAGAIN]s, a system
    call that read [k] bytes makes [doOneReadv] return [k] and leave iovecs
    that cover exactly the addresses after the first [k]: the next read
    continues where this one ended. The error is the one of [rawConn.Read]
    if it has one, and else [io.EOF] exactly when [k] is 0. Without an
    iovec, [doOneReadv] panics at the first system call. *)
Theorem doOneReadv_advances (eagains : nat) (k : N) (rest : list readvResult)
  (rawReadErr : option error) (iovecs : list Iovec) :
  iovecs <> [] ->
  Forall (fun v => (0 <= Len v)%Z) iovecs ->
  (k < 2 ^ 63)%N ->
  (Z.of_N k <= totalLen iovecs)%Z ->
  exists iovecs',
    doOneReadv (repeat Eagain eagains ++ Count k :: rest) rawReadErr iovecs
    = Ok (Z.of_N k,
          match rawReadErr with
          | Some e => Some e
          | None => if (k =? 0)%N then Some EOF else None
          end,
          iovecs')
    /\ covered iovecs' = skipn (N.to_nat k) (covered iovecs)
    /\ totalLen iovecs' = (totalLen iovecs - Z.of_N k)%Z
    /\ exists msg,
         doOneReadv (repeat Eagain eagains ++ Count k :: rest) rawReadErr [] = Panic msg.
Proof.
  intros Hne Hall Hk Hle.
  assert (Hnil : exists msg,
            doOneReadv (repeat Eagain eagains ++ Count k :: rest) rawReadErr [] = Panic msg).
  { unfold doOneReadv. destruct eagains; cbn; eauto. }
  unfold doOneReadv. rewrite readCallback_Eagain, readCallback_cons by exact Hne.
  destruct (N.leb_spec (2 ^ 63) k); [lia|].
  destruct (shiftIovecs_within _ _ Hall Hle) as (iovecs' & Hs). rewrite Hs.
  destruct (shiftIovecs_Ok _ _ _ Hall (N2Z.is_nonneg k) Hs) as (_ & Hb & Hc & _).
  exists iovecs'. replace (Z.to_nat (Z.of_N k)) with (N.to_nat k) in Hc by lia.
  split; [|split; [exact Hc|split; [exact Hb|exact Hnil]]].
  cbn [mbind result_bind]. destruct (k =? 0)%N; cbn [mbind result_bind]; destruct rawReadErr; reflexivity.
Qed.

Lemma doOneReadv_advances_witness :
  exists iovecs',
    doOneReadv [Eagain; Eagain; Count 4] None
      [{| Base := 100; Len := 3 |}; {| Base := 200; Len := 2 |}]
    = Ok (4%Z, None, iovecs')
    /\ covered iovecs' = [201%Z]
    /\ totalLen iovecs' = 1%Z
    /\ exists msg, doOneReadv [Eagain; Eagain; Count 4] None [] = Panic msg.
Proof.
  refine (doOneReadv_advances 2 4 [] None
            [{| Base := 100; Len := 3 |}; {| Base := 200; Len := 2 |}] _ _ _ _).
  - discriminate.
  - constructor; [cbn; lia|]. constructor; [cbn; lia|constructor].
  - reflexivity.
  - cbn. lia.
Defined.

(** X26. A system call that reports more bytes than the iovecs hold makes
    [doOneReadv] panic: the shifting loop indexes the emptied slice, or the
    count is negative as an [int]. *)
Theorem doOneReadv_count_beyond_buffers_panics (eagains : nat) (k : N)
  (rest : list readvResult) (rawReadErr : option error) (iovecs : list Iovec) :
  Forall (fun v => (0 <= Len v)%Z) iovecs ->
  (totalLen iovecs < Z.of_N k)%Z ->
  exists msg,
    doOneReadv (repeat Eagain eagains ++ Count k :: rest) rawReadErr iovecs = Panic msg.
Proof.
  intros Hall Hlt. unfold doOneReadv.
  destruct (list_eq_nil_dec iovecs) as [->|Hne]; [destruct eagains; cbn; eauto|].
  rewrite readCallback_Eagain, readCallback_cons by exact Hne.
  destruct (N.leb_spec (2 ^ 63) k); [now eexists|].
  rewrite (shiftIovecs_beyond _ _ Hall Hlt). now eexists.
Qed.

Lemma doOneReadv_count_beyond_buffers_panics_witness :
  exists msg,
    doOneReadv [Eagain; Count 6] None
      [{| Base := 100; Len := 3 |}; {| Base := 200; Len := 2 |}] = Panic msg.
Proof.
  refine (doOneReadv_count_beyond_buffers_panics 1 6 [] None
            [{| Base := 100; Len := 3 |}; {| Base := 200; Len := 2 |}] _ _).
  - constructor; [cbn; lia|]. constructor; [cbn; lia|constructor].
  - cbn. lia.
Defined.

(** X27. [readv] ends: with one more round than the iovecs hold bytes, the loop
    returns. The count that it returns is never more than the iovecs
    hold. *)
Theorem readv_count_within_buffers (readvFallback : Z * option error)
  (renew : nat -> option error) (reads : nat -> list readvResult * option error)
  (isTimeout : error -> bool) (iovecs : list Iovec) :
  Forall (fun v => (0 <= Len v)%Z) iovecs ->
  (exists r, readv RawConn readvFallback (S (Z.to_nat (totalLen iovecs)))
               renew reads isTimeout iovecs = Some r) /\
  (forall fuel n err,
     readv RawConn readvFallback fuel renew reads isTimeout iovecs = Some (Ok (n, err)) ->
     (0 <= n <= totalLen iovecs)%Z).
Proof.
  intros Hall. split.
  - apply readvLoop_terminates; [exact Hall|lia].
  - intros fuel n err Hr. apply (readvLoop_Ok _ _ _ _ _ _ _ _ _ Hall) in Hr.
    destruct Hr as (Hr & _). lia.
Qed.

Lemma readv_count_within_buffers_witness :
  exists r,
    readv RawConn (0%Z, None) 6 (fun _ => None)
      (fun j => match j with
                | O => ([Eagain; Count 2], None)
                | _ => ([Count 3], None)
                end)
      (fun _ => false)
      [{| Base := 100; Len := 3 |}; {| Base := 200; Len := 2 |}] = Some r.
Proof.
  refine (proj1 (readv_count_within_buffers (0%Z, None) (fun _ => None)
                   (fun j => match j with
                             | O => ([Eagain; Count 2], None)
                             | _ => ([Count 3], None)
                             end)
                   (fun _ => false)
                   [{| Base := 100; Len := 3 |}; {| Base := 200; Len := 2 |}] _)).
  constructor; [cbn; lia|]. constructor; [cbn; lia|constructor].
Defined.

(** X28. When [rawConn.Read] returns nil only after the function has returned
    true, a nil error of [readv] means that the iovecs are full: the count
    is the sum of their lengths. *)
Theorem readv_nil_error_means_all_read (readvFallback : Z * option error)
  (fuel : nat) (renew : nat -> option error)
  (reads : nat -> list readvResult * option error)
  (isTimeout : error -> bool) (iovecs : list Iovec) (n : Z) :
  Forall (fun v => (0 <= Len v)%Z) iovecs ->
  (forall j, snd (reads j) = None -> exists r, In r (fst (reads j)) /\ r <> Eagain) ->
  readv RawConn readvFallback fuel renew reads isTimeout iovecs = Some (Ok (n, None)) ->
  n = totalLen iovecs.
Proof.
  intros Hall Hc Hr. apply (readvLoop_Ok _ _ _ _ _ _ _ _ _ Hall) in Hr.
  destruct Hr as (_ & Hr). rewrite (Hr Hc eq_refl). lia.
Qed.

Lemma readv_nil_error_means_all_read_witness :
  5%Z = totalLen [{| Base := 100; Len := 3 |}; {| Base := 200; Len := 2 |}].
Proof.
  refine (readv_nil_error_means_all_read (0%Z, None) 6 (fun _ => None)
            (fun j => match j with
                      | O => ([Eagain; Count 2], None)
                      | _ => ([Count 3], None)
                      end)
            (fun _ => false)
            [{| Base := 100; Len := 3 |}; {| Base := 200; Len := 2 |}] 5 _ _ _).
  - constructor; [cbn; lia|]. constructor; [cbn; lia|constructor].
  - intros [|j] _; cbn [fst snd].
    + exists (Count 2). split; [right; left; reflexivity|discriminate].
    + exists (Count 3). split; [left; reflexivity|discriminate].
  - reflexivity.
Defined.

End Readv.

(** ** Destroying snapshots through the endpoints *)

Section DestroyingSnapshots.
Import EndpointDestroy.

Lemma filterCheckFS_refused (s : Endpoint.Sender) (fs : string) :
  (forall dp, NewDatasetPath fs = Ok dp -> Endpoint.FSFilter s dp <> Ok true) ->
  isOk (Endpoint.filterCheckFS s fs) = false.
Proof.
  intros Href. unfold Endpoint.filterCheckFS.
  destruct (NewDatasetPath fs) as [dp|e|msg] eqn:Hdp; [|reflexivity|reflexivity].
  cbn [mbind result_bind].
  destruct (negb (Nat.eqb (Length dp) 0)); [|reflexivity]. cbn [check mbind result_bind].
  specialize (Href dp eq_refl).
  destruct (Endpoint.FSFilter s dp) as [[|]|e|msg]; [congruence|reflexivity..].
Qed.

Lemma checkSendReq_Ok_filterCheckFS (s : Endpoint.Sender) (r : Pdu.SendReq.t) :
  Endpoint.checkSendReq s r = Ok tt ->
  isOk (Endpoint.filterCheckFS s (Pdu.SendReq.Filesystem r)) = true.
Proof.
  unfold Endpoint.checkSendReq. intros H.
  do 4 (apply bind_Ok in H as ([] & _ & H)).
  apply bind_Ok in H as (dp & Hdp & _). now rewrite Hdp.
Qed.

(** X29. The sender refuses a filesystem that its filter does not pass, before
    it does anything: [Send] fails whatever the environment is,
    [ReplicationCursor] fails and leaves everything as it is, and
    [DestroySnapshots] fails and passes nothing to
    [ZFSDestroyFilesystemVersions]. *)
Theorem Sender_refuses_unchecked_filesystem
  (s : Endpoint.Sender) (fs : string)
  (env env' : Endpoint.SendEnv) (r : Pdu.SendReq.t)
  (flt : Faults) (creq : Pdu.ReplicationCursorReq.t) (w : World)
  (destroyVersions : list DestroySnapOp.t -> list (option ZfsCmd.destroyError))
  (errorText : error -> string) (dreq : DestroySnapshotsReq.t) :
  (forall dp, NewDatasetPath fs = Ok dp -> Endpoint.FSFilter s dp <> Ok true) ->
  Pdu.SendReq.Filesystem r = fs ->
  Pdu.ReplicationCursorReq.Filesystem creq = fs ->
  DestroySnapshotsReq.Filesystem dreq = fs ->
  (isOk (Endpoint.Send s env r) = false
   /\ Endpoint.Send s env r = Endpoint.Send s env' r)
  /\ (isOk (fst (Endpoint.ReplicationCursor flt s creq w)) = false
      /\ snd (Endpoint.ReplicationCursor flt s creq w) = w)
  /\ (isOk (fst (Sender_DestroySnapshots destroyVersions errorText s dreq)) = false
      /\ snd (Sender_DestroySnapshots destroyVersions errorText s dreq) = []).
Proof.
  intros Href Hr Hc Hd. pose proof (filterCheckFS_refused s fs Href) as Hno.
  split; [|split].
  - unfold Endpoint.Send.
    destruct (Endpoint.checkSendReq s r) as [[]|e|msg] eqn:Hchk.
    + apply checkSendReq_Ok_filterCheckFS in Hchk. rewrite Hr in Hchk. congruence.
    + split; reflexivity.
    + split; reflexivity.
  - unfold Endpoint.ReplicationCursor. rewrite Hc.
    destruct (Endpoint.filterCheckFS s fs) as [dp|e|msg]; [discriminate Hno|..];
      split; reflexivity.
  - unfold Sender_DestroySnapshots. rewrite Hd.
    destruct (Endpoint.filterCheckFS s fs) as [dp|e|msg]; [discriminate Hno|..];
      split; reflexivity.
Qed.

Lemma Sender_refuses_unchecked_filesystem_witness :
  (isOk (Endpoint.Send {| Endpoint.FSFilter := fun dp => Ok (Nat.eqb (Length dp) 1) |}
           (Demo.sendEnv true) (Demo.sendReq "")) = false
   /\ Endpoint.Send {| Endpoint.FSFilter := fun dp => Ok (Nat.eqb (Length dp) 1) |}
        (Demo.sendEnv true) (Demo.sendReq "")
      = Endpoint.Send {| Endpoint.FSFilter := fun dp => Ok (Nat.eqb (Length dp) 1) |}
          (Demo.sendEnv false) (Demo.sendReq ""))
  /\ (isOk (fst (Endpoint.ReplicationCursor Demo.noFaults
                   {| Endpoint.FSFilter := fun dp => Ok (Nat.eqb (Length dp) 1) |}
                   (Demo.setCursorReq "s2") (Demo.cursorWorld 11))) = false
      /\ snd (Endpoint.ReplicationCursor Demo.noFaults
                {| Endpoint.FSFilter := fun dp => Ok (Nat.eqb (Length dp) 1) |}
                (Demo.setCursorReq "s2") (Demo.cursorWorld 11)) = (Demo.cursorWorld 11))
  /\ (isOk (fst (Sender_DestroySnapshots (fun _ => []) (fun _ => "")
                   {| Endpoint.FSFilter := fun dp => Ok (Nat.eqb (Length dp) 1) |}
                   {| DestroySnapshotsReq.Filesystem := "pool/a";
                      DestroySnapshotsReq.Snapshots := [] |})) = false
      /\ snd (Sender_DestroySnapshots (fun _ => []) (fun _ => "")
                {| Endpoint.FSFilter := fun dp => Ok (Nat.eqb (Length dp) 1) |}
                {| DestroySnapshotsReq.Filesystem := "pool/a";
                   DestroySnapshotsReq.Snapshots := [] |}) = []).
Proof.
  apply (Sender_refuses_unchecked_filesystem
           {| Endpoint.FSFilter := fun dp => Ok (Nat.eqb (Length dp) 1) |} "pool/a").
  - intros dp Hdp. vm_compute in Hdp. injection Hdp as <-. discriminate.
  - reflexivity.
  - reflexivity.
  - reflexivity.
Defined.

Lemma buildReqs_spec (lp : DatasetPath) (snaps : list FilesystemVersion.t) :
  (Forall (fun v => FilesystemVersion.Type_ v = FilesystemVersion.Snapshot) snaps
   /\ buildReqs lp snaps
      = Ok (map (fun v => {| DestroySnapOp.Filesystem := ToString lp;
                             DestroySnapOp.Name := FilesystemVersion.Name v |}) snaps,
            map (fun v => {| DestroySnapshotRes.Snapshot := v;
                             DestroySnapshotRes.Error := "" |}) snaps))
  \/ (exists before v after,
        snaps = before ++ v :: after
        /\ Forall (fun v => FilesystemVersion.Type_ v = FilesystemVersion.Snapshot) before
        /\ FilesystemVersion.Type_ v <> FilesystemVersion.Snapshot
        /\ buildReqs lp snaps
           = Err (Errorf "version %q is not a snapshot" [FStr (FilesystemVersion.Name v)])).
Proof.
  induction snaps as [|fsv snaps IH]; [left; split; [constructor|reflexivity]|].
  cbn [buildReqs]. destruct (FilesystemVersion.Type_ fsv) eqn:Hty.
  - destruct IH as [(Hall & ->)|(before & v & after & -> & Hbefore & Hv & ->)].
    + left. split; [now constructor|reflexivity].
    + right. exists (fsv :: before), v, after.
      split; [reflexivity|]. split; [now constructor|]. split; [exact Hv|reflexivity].
  - right. exists [], fsv, snaps.
    split; [reflexivity|]. split; [constructor|]. split; [congruence|reflexivity].
Qed.

Lemma setErrors_Ok (errorText : error -> string) (errs : list (option ZfsCmd.destroyError))
  (ress : list DestroySnapshotRes.t) : forall i out,
  setErrors errorText errs i ress = Ok out ->
  map DestroySnapshotRes.Snapshot out = map DestroySnapshotRes.Snapshot ress
  /\ forall j res, nth_error out j = Some res ->
       exists res0, nth_error ress j = Some res0
         /\ resultError errorText (nth (i + j) errs None) (DestroySnapshotRes.Error res0)
            = Ok (DestroySnapshotRes.Error res).
Proof.
  induction ress as [|res0 ress IH]; intros i out H; cbn [setErrors] in H.
  - injection H as <-. split; [reflexivity|]. intros [|j] res Hj; discriminate Hj.
  - apply bind_Ok in H as (text & Htext & H).
    apply bind_Ok in H as (rest & Hrest & H). injection H as <-.
    destruct (IH _ _ Hrest) as (Hmap & Hnth).
    split; [cbn [map DestroySnapshotRes.Snapshot]; now rewrite Hmap|].
    intros [|j] res Hj; cbn [nth_error] in Hj |- *.
    + injection Hj as <-. exists res0. split; [reflexivity|].
      now rewrite Nat.add_0_r.
    + destruct (Hnth _ _ Hj) as (r0 & Hr0 & He). exists r0. split; [exact Hr0|].
      now rewrite Nat.add_succ_r.
Qed.

(** What [doDestroySnapshots] passes on: all the versions, in their order
    and for the one filesystem, or nothing. *)
Lemma doDestroySnapshots_spec
  (destroyVersions : list DestroySnapOp.t -> list (option ZfsCmd.destroyError))
  (errorText : error -> string) (lp : DatasetPath) (snaps : list FilesystemVersion.t) :
  let reqs := map (fun v => {| DestroySnapOp.Filesystem := ToString lp;
                               DestroySnapOp.Name := FilesystemVersion.Name v |}) snaps in
  let out := doDestroySnapshots destroyVersions errorText lp snaps in
  (Forall (fun v => FilesystemVersion.Type_ v = FilesystemVersion.Snapshot) snaps
   /\ snd out = [reqs]
   /\ forall ress, fst out = Ok ress ->
        map DestroySnapshotRes.Snapshot ress = snaps
        /\ forall i res, nth_error ress i = Some res ->
             resultError errorText (nth i (destroyVersions reqs) None) ""
             = Ok (DestroySnapshotRes.Error res))
  \/ (exists before v after,
        snaps = before ++ v :: after
        /\ Forall (fun v => FilesystemVersion.Type_ v = FilesystemVersion.Snapshot) before
        /\ FilesystemVersion.Type_ v <> FilesystemVersion.Snapshot
        /\ out = (Err (Errorf "version %q is not a snapshot"
                         [FStr (FilesystemVersion.Name v)]), [])).
Proof.
  cbv zeta. unfold doDestroySnapshots.
  destruct (buildReqs_spec lp snaps)
    as [(Hall & ->)|(before & v & after & Hs & Hbefore & Hv & ->)].
  - left. split; [exact Hall|]. split; [reflexivity|]. cbn [fst].
    intros ress Hress. apply setErrors_Ok in Hress as (Hmap & Hnth).
    rewrite map_map in Hmap. cbn [DestroySnapshotRes.Snapshot] in Hmap.
    rewrite map_id in Hmap. split; [exact Hmap|].
    intros i res Hi. destruct (Hnth _ _ Hi) as (res0 & Hres0 & He).
    apply nth_error_In, in_map_iff in Hres0 as (v & <- & _). exact He.
  - right. exists before, v, after. repeat (split; [assumption|]). reflexivity.
Qed.

(** X30. [DestroySnapshots] of the receiver destroys nothing outside the root
    of the client and nothing that was not asked for: either it fails and
    passes nothing to [ZFSDestroyFilesystemVersions], or every version of
    the request is a snapshot and it passes one batch, the requested names
    in their order, all for the one filesystem that the name of the request
    maps to, which lies strictly below the root of the client. A version
    that is not a snapshot makes the whole request fail. The answer, if
    there is one, has one result per requested version, in the order of
    the request, with the text of the error left for its operation. *)
Theorem Receiver_DestroySnapshots_scope
  (destroyVersions : list DestroySnapOp.t -> list (option ZfsCmd.destroyError))
  (errorText : error -> string)
  (s : Endpoint.Receiver) (ctx : option string) (req : DestroySnapshotsReq.t)
  (r : result (list DestroySnapshotRes.t)) (batches : list (list DestroySnapOp.t)) :
  Receiver_DestroySnapshots destroyVersions errorText s ctx req = (r, batches) ->
  (isOk r = false /\ batches = [])
  \/ (exists root lp,
        Endpoint.clientRootFromCtx s ctx = Ok root
        /\ Endpoint.MapToLocal {| Endpoint.localRoot := root |}
             (DestroySnapshotsReq.Filesystem req) = Ok lp
        /\ strictlyBelow lp root
        /\ Forall (fun v => FilesystemVersion.Type_ v = FilesystemVersion.Snapshot)
             (DestroySnapshotsReq.Snapshots req)
        /\ batches
           = [map (fun v => {| DestroySnapOp.Filesystem := ToString lp;
                               DestroySnapOp.Name := FilesystemVersion.Name v |})
                (DestroySnapshotsReq.Snapshots req)]
        /\ forall ress, r = Ok ress ->
             map DestroySnapshotRes.Snapshot ress = DestroySnapshotsReq.Snapshots req
             /\ forall i res, nth_error ress i = Some res ->
                  resultError errorText (nth i (destroyVersions (hd [] batches)) None) ""
                  = Ok (DestroySnapshotRes.Error res)).
Proof.
  unfold Receiver_DestroySnapshots. intros H.
  destruct (Endpoint.clientRootFromCtx s ctx) as [root|e|msg] eqn:Hroot;
    [|injection H as <- <-; left; split; reflexivity..].
  destruct (Endpoint.MapToLocal {| Endpoint.localRoot := root |}
              (DestroySnapshotsReq.Filesystem req)) as [lp|e|msg] eqn:Hlp;
    [|injection H as <- <-; left; split; reflexivity..].
  pose proof (doDestroySnapshots_spec destroyVersions errorText lp
                (DestroySnapshotsReq.Snapshots req)) as Hspec.
  cbv zeta in Hspec. rewrite H in Hspec. cbn [fst snd] in Hspec.
  destruct Hspec as [(Hall & Hb & Hress)|(before & v & after & _ & _ & _ & Hout)].
  - right. exists root, lp. split; [reflexivity|]. split; [exact Hlp|].
    split; [exact (MapToLocal_below _ _ _ Hlp)|]. split; [exact Hall|].
    split; [exact Hb|]. rewrite Hb. cbn [hd]. exact Hress.
  - left. injection Hout as -> ->. split; reflexivity.
Qed.

Lemma Receiver_DestroySnapshots_scope_witness :
  exists root lp,
    Endpoint.clientRootFromCtx Demo.receiver (Some "alice") = Ok root
    /\ Endpoint.MapToLocal {| Endpoint.localRoot := root |} "proj" = Ok lp
    /\ ToString lp = "tank/backups/alice/proj"
    /\ snd (Receiver_DestroySnapshots
              (fun _ => [None; Some (ZfsCmd.DestroyErr (New "dataset is busy"))])
              (fun _ => "dataset is busy")
              Demo.receiver (Some "alice")
              {| DestroySnapshotsReq.Filesystem := "proj";
                 DestroySnapshotsReq.Snapshots :=
                   [ {| FilesystemVersion.Type_ := FilesystemVersion.Snapshot;
                        FilesystemVersion.Name := "a"; FilesystemVersion.Guid := 1;
                        FilesystemVersion.CreateTXG := 5;
                        FilesystemVersion.Creation := "" |};
                     {| FilesystemVersion.Type_ := FilesystemVersion.Snapshot;
                        FilesystemVersion.Name := "b"; FilesystemVersion.Guid := 2;
                        FilesystemVersion.CreateTXG := 6;
                        FilesystemVersion.Creation := "" |} ] |})
       = [[ {| DestroySnapOp.Filesystem := ToString lp; DestroySnapOp.Name := "a" |};
            {| DestroySnapOp.Filesystem := ToString lp; DestroySnapOp.Name := "b" |} ]].
Proof.
  destruct (Receiver_DestroySnapshots_scope
              (fun _ => [None; Some (ZfsCmd.DestroyErr (New "dataset is busy"))])
              (fun _ => "dataset is busy")
              Demo.receiver (Some "alice")
              {| DestroySnapshotsReq.Filesystem := "proj";
                 DestroySnapshotsReq.Snapshots :=
                   [ {| FilesystemVersion.Type_ := FilesystemVersion.Snapshot;
                        FilesystemVersion.Name := "a"; FilesystemVersion.Guid := 1;
                        FilesystemVersion.CreateTXG := 5;
                        FilesystemVersion.Creation := "" |};
                     {| FilesystemVersion.Type_ := FilesystemVersion.Snapshot;
                        FilesystemVersion.Name := "b"; FilesystemVersion.Guid := 2;
                        FilesystemVersion.CreateTXG := 6;
                        FilesystemVersion.Creation := "" |} ] |}
              _ _ eq_refl)
    as [(Hr & _)|(root & lp & Hroot & Hlp & _ & _ & Hb & _)].
  - discriminate Hr.
  - exists root, lp. split; [exact Hroot|]. split; [exact Hlp|].
    split; [|exact Hb].
    vm_compute in Hroot. injection Hroot as <-.
    vm_compute in Hlp. injection Hlp as <-. reflexivity.
Defined.

End DestroyingSnapshots.
